(** * geotechLogs: the [Well] class and [plotSection] of Well.py

    A shallow embedding of the borehole-log container and of its two
    renderers, followed by the properties of the specification and by
    further properties read off the code.

    Conventions of the embedding.
    - Depths, elevations and coordinates are exact rationals ([Q]); the
      rounding of Python floats is not modelled.  Two numbers are the same
      value when they are [Qeq], as [2 == 2.0] in Python.
    - A pandas DataFrame is the list of its rows in stored order, each row
      paired with its index label.
    - What pandas decides is a parameter, [DataFrame.Pandas]: the order
      [sort_values] gives to rows of equal [Top], of which only ascending
      order is known, and the value a number has once [append] has stored
      it, which the dtype of the column can round.  The numbers already
      stored are taken as their column holds them.  [pandas16] is pandas
      on frames of at most 16 rows and numbers no column rounds.
    - Python exceptions are the constructors of [exn]; a call that can raise
      returns a [result].
    - matplotlib is modelled by the state it accumulates: the patches and
      texts added to the axes, the files written and the figures shown.
      What [savefig] refuses a file name with is a parameter of the
      renderers; [Agg_format_error] is matplotlib's own check of the
      format.
    - A method reads [self.intervals] from the instance, else from the
      class, and assigns it on the instance.  The methods are given twice:
      on [Well] values, with the class attribute as a parameter, and on
      a heap ([Heap]) where frames and instances are objects with
      references; the second are shown to compute the first. *)

From Stdlib Require Import QArith.
From Stdlib Require Import List Sorted Permutation Bool Arith ZArith Lia.
From Stdlib Require Import SetoidList SetoidPermutation.
From Stdlib Require Import String Ascii.
From stdpp Require Import base option gmap.
Import ListNotations.

Local Open Scope nat_scope.
Local Open Scope list_scope.

(** ** Python results and exceptions *)

Inductive exn : Type :=
| Exception (msg : string)              (* raise Exception(msg) *)
| KeyError (key : string)               (* dict lookup of an absent key *)
| KeyError_not_in_axis (label : Z)      (* DataFrame.drop of an absent label *)
| IndexError (msg : string)             (* positional indexer out of bounds *)
| UnboundLocalError (var : string)      (* local read before assignment *)
| ValueError_format (fmt : string)      (* savefig: format not supported *)
| OSError (msg : string).               (* savefig: path cannot be written *)

(** Python's class hierarchy: KeyError and IndexError derive from
    LookupError; UnboundLocalError derives from NameError; ValueError and
    OSError derive from Exception directly. *)
Definition is_LookupError (e : exn) : bool :=
  match e with
  | KeyError _ | KeyError_not_in_axis _ | IndexError _ => true
  | Exception _ | UnboundLocalError _ | ValueError_format _ | OSError _ =>
      false
  end.

Inductive result (A : Type) : Type :=
| Ok (a : A)
| Raise (e : exn).
Arguments Ok {A} a.
Arguments Raise {A} e.

(** ** Rows and frames *)

Record Row : Type := mkRow {
  Lithology : string;
  Top : Q;
  Bottom : Q;
  Description : string
}.

(** Equality of two rows as [drop_duplicates] sees it: field by field, by
    value. *)
Definition Row_eqb (r s : Row) : bool :=
  String.eqb (Lithology r) (Lithology s)
  && Qeq_bool (Top r) (Top s)
  && Qeq_bool (Bottom r) (Bottom s)
  && String.eqb (Description r) (Description s).

(** Ascending order of Top, on labelled rows. *)
Definition Top_le (x y : nat * Row) : Prop :=
  (Top (snd x) <= Top (snd y))%Q.

Module DataFrame.

(** A frame: rows in stored order, each with its index label. *)
Definition t : Type := list (nat * Row).

(** [pd.DataFrame(columns=[...])]: no rows. *)
Definition empty : t := [].

Definition index (df : t) : list nat := map fst df.
Definition rows (df : t) : list Row := map snd df.

(** Labels of a [RangeIndex] starting at [n]. *)
Fixpoint number_from (n : nat) (rs : list Row) : t :=
  match rs with
  | [] => []
  | r :: rs' => (n, r) :: number_from (S n) rs'
  end.

(** What pandas decides and the program does not: the order
    [sort_values] gives to rows of equal Top (its default quicksort is
    not stable), and the value a number has once [append] has stored it
    in the Top or in the Bottom column of a frame (the column's dtype
    can round it: an int above 2^53 in a float64 column). *)
Record Pandas : Type := mkPandas {
  sort_values_by_Top : t -> t;
  sort_values_permutes : forall df, Permutation (sort_values_by_Top df) df;
  sort_values_ascending : forall df, Sorted Top_le (sort_values_by_Top df);
  as_Top : t -> Q -> Q;
  as_Bottom : t -> Q -> Q
}.

(** The row as [append] stores it after the rows of [df]. *)
Definition stored (pd : Pandas) (df : t) (r : Row) : Row :=
  {| Lithology := Lithology r; Top := as_Top pd df (Top r);
     Bottom := as_Bottom pd df (Bottom r); Description := Description r |}.

(** [df.append(row, ignore_index=True)]: the row goes last and the
    labels of the result are 0, 1, 2, ... in stored order. *)
Definition append (pd : Pandas) (df : t) (r : Row) : t :=
  number_from 0 (rows df ++ [stored pd df r]).

(** [df.drop_duplicates()]: a row is kept when no equal row precedes it;
    kept rows keep their labels. *)
Fixpoint drop_duplicates_from (seen : list Row) (df : t) : t :=
  match df with
  | [] => []
  | (i, r) :: df' =>
      if existsb (Row_eqb r) seen
      then drop_duplicates_from seen df'
      else (i, r) :: drop_duplicates_from (r :: seen) df'
  end.

Definition drop_duplicates (df : t) : t := drop_duplicates_from [] df.

(** [df.drop(k)]: removes the rows labelled [k]; KeyError when no row
    carries the label. *)
Definition has_label (k : Z) (x : nat * Row) : bool :=
  Z.eqb (Z.of_nat (fst x)) k.

Definition drop (df : t) (k : Z) : result t :=
  if existsb (has_label k) df
  then Ok (List.filter (fun x => negb (has_label k x)) df)
  else Raise (KeyError_not_in_axis k).

(** [df[df.Lithology != lith]]: boolean-mask selection. *)
Definition Lithology_ne (lith : string) (x : nat * Row) : bool :=
  negb (String.eqb (Lithology (snd x)) lith).

Definition where_Lithology_ne (df : t) (lith : string) : t :=
  List.filter (Lithology_ne lith) df.

(** [df.iloc[i]] for a non-negative position [i]. *)
Definition iloc (df : t) (i : nat) : result Row :=
  match nth_error df i with
  | Some x => Ok (snd x)
  | None => Raise (IndexError "single positional indexer is out-of-bounds")
  end.

(** [df.iloc[-1]]. *)
Definition iloc_last (df : t) : result Row :=
  match df with
  | [] => Raise (IndexError "single positional indexer is out-of-bounds")
  | x :: df' => Ok (snd (List.last df' x))
  end.

End DataFrame.

(** ** pandas on small frames *)

(** On a frame of at most 16 rows the quicksort of [sort_values] is an
    insertion sort, which keeps rows of equal Top in their order; labels
    travel with rows. *)
Fixpoint insert_by_Top (x : nat * Row) (df : DataFrame.t) : DataFrame.t :=
  match df with
  | [] => [x]
  | y :: df' =>
      if Qle_bool (Top (snd x)) (Top (snd y))
      then x :: y :: df'
      else y :: insert_by_Top x df'
  end.

Fixpoint insertion_sort_by_Top (df : DataFrame.t) : DataFrame.t :=
  match df with
  | [] => []
  | x :: df' => insert_by_Top x (insertion_sort_by_Top df')
  end.

Lemma Qle_bool_false (a b : Q) : Qle_bool a b = false -> (b <= a)%Q.
Proof.
  intros E. apply Qlt_le_weak, Qnot_le_lt.
  intros H. apply Qle_bool_iff in H. congruence.
Qed.

Lemma insert_by_Top_Sorted (x : nat * Row) (df : DataFrame.t) :
  Sorted Top_le df -> Sorted Top_le (insert_by_Top x df).
Proof.
  induction 1 as [|y df Hs IH Hhd]; simpl.
  - repeat constructor.
  - destruct (Qle_bool (Top (snd x)) (Top (snd y))) eqn:E.
    + constructor; [constructor; assumption|].
      constructor. apply Qle_bool_iff. exact E.
    + constructor; [exact IH|].
      apply Qle_bool_false in E.
      destruct df as [|z df]; simpl.
      * constructor. exact E.
      * inversion Hhd; subst.
        destruct (Qle_bool (Top (snd x)) (Top (snd z)));
          constructor; assumption.
Qed.

Lemma insertion_sort_Sorted (df : DataFrame.t) :
  Sorted Top_le (insertion_sort_by_Top df).
Proof.
  induction df as [|x df IH]; simpl.
  - constructor.
  - apply insert_by_Top_Sorted, IH.
Qed.

Lemma insert_by_Top_Permutation (x : nat * Row) (df : DataFrame.t) :
  Permutation (insert_by_Top x df) (x :: df).
Proof.
  induction df as [|y df IH]; simpl.
  - reflexivity.
  - destruct (Qle_bool (Top (snd x)) (Top (snd y))).
    + reflexivity.
    + rewrite IH. apply perm_swap.
Qed.

Lemma insertion_sort_Permutation (df : DataFrame.t) :
  Permutation (insertion_sort_by_Top df) df.
Proof.
  induction df as [|x df IH]; simpl.
  - reflexivity.
  - rewrite insert_by_Top_Permutation, IH. reflexivity.
Qed.

(** pandas as the example wells below meet it: frames of at most 16
    rows, and numbers that every column dtype holds as passed (floats,
    and ints up to 2^53). *)
Definition pandas16 : DataFrame.Pandas :=
  {| DataFrame.sort_values_by_Top := insertion_sort_by_Top;
     DataFrame.sort_values_permutes := insertion_sort_Permutation;
     DataFrame.sort_values_ascending := insertion_sort_Sorted;
     DataFrame.as_Top := fun _ q => q;
     DataFrame.as_Bottom := fun _ q => q |}.

(** ** The Well object *)

(** The instance attributes set by [__init__], and the entry ['intervals']
  of the instance dictionary, absent until a method assigns
  [self.intervals]. *)
Record Well : Type := mkWell {
name : string;
xcoord : Q;
ycoord : Q;
elevation : Q;
date : string;
project : string;
logged_by : string;
own_intervals : option DataFrame.t
}.

(** The constructor called with every keyword left at its default. *)
Definition Well_default : Well :=
{| name := "Borehole"; xcoord := 0; ycoord := 0; elevation := 0;
   date := "---"; project := "---"; logged_by := "Not Specified";
   own_intervals := None |}.

Definition set_intervals (self : Well) (df : DataFrame.t) : Well :=
{| name := name self; xcoord := xcoord self; ycoord := ycoord self;
   elevation := elevation self; date := date self;
   project := project self; logged_by := logged_by self;
   own_intervals := Some df |}.

(** The default of the parameter [description] of [add_interval]: the
    empty string. *)
Definition no_desc : string := EmptyString.

Section Methods.

Variable pd : DataFrame.Pandas.

(** The class attribute [Well.intervals] (line 20), as the methods find
    it when the instance has no attribute of its own. *)
Variable Well_intervals : DataFrame.t.

(** Reading [self.intervals]: the instance dictionary first, then the
    class. *)
Definition intervals (self : Well) : DataFrame.t :=
  match own_intervals self with
  | Some df => df
  | None => Well_intervals
  end.

Definition add_interval (self : Well) (top bottom : Q)
    (lithology description : string) : Well :=
  let interval :=
    {| Lithology := lithology; Top := top; Bottom := bottom;
       Description := description |} in
  let self :=
    set_intervals self (DataFrame.append pd (intervals self) interval) in
  let self := set_intervals self (DataFrame.drop_duplicates (intervals self)) in
  set_intervals self (DataFrame.sort_values_by_Top pd (intervals self)).

Definition remove_interval (self : Well) (layNum : option Z)
    (lithology : option string) : result Well :=
  match layNum, lithology with
  | None, None => Raise (Exception "Need to specify a layer number or lithology!")
  | _, _ =>
      let step1 :=
        match layNum with
        | Some k =>
            match DataFrame.drop (intervals self) k with
            | Ok df => Ok (set_intervals self df)
            | Raise e => Raise e
            end
        | None => Ok self
        end in
      match step1 with
      | Raise e => Raise e
      | Ok self =>
          match lithology with
          | Some lith =>
              Ok (set_intervals self
                    (DataFrame.where_Lithology_ne (intervals self) lith))
          | None => Ok self
          end
      end
  end.

End Methods.

(** ** The lithology style table *)

Record Style : Type := mkStyle {
  color : string;
  hatch : string;
  alpha : Q
}.

Definition complex_zone : Style := mkStyle "wheat" ".." (9 # 10).
Definition brown_clay : Style := mkStyle "tan" "---" (7 # 10).
Definition grey_clay : Style := mkStyle "dimgray" "---" (8 # 10).
Definition fill : Style := mkStyle "black" ".." (7 # 10).
Definition silt : Style := mkStyle "tan" "\\\" (8 # 10).
Definition claySilt : Style := mkStyle "tan" "\,--" (8 # 10).
Definition clay : Style := mkStyle "dimgray" "---" (8 # 10).
Definition siltClay : Style := mkStyle "rosybrown" "--,\" (8 # 10).
Definition till : Style := mkStyle "peru" "xx" (85 # 100).
Definition bedrock : Style := mkStyle "khaki" "\\" (85 # 100).

(** The class attribute [plotTemplates]: a dict from lithology name to
    style. *)
Definition plotTemplates : gmap string Style :=
  list_to_map
    [ ("Complex Zone"%string, complex_zone);
      ("Brown Clay"%string, brown_clay);
      ("Grey Clay"%string, grey_clay);
      ("Fill"%string, fill);
      ("Silt"%string, silt);
      ("Clay Silt"%string, claySilt);
      ("Clay"%string, clay);
      ("Silt Clay"%string, siltClay);
      ("Till"%string, till);
      ("Bedrock"%string, bedrock) ].

(** [plotTemplates[lith]]. *)
Definition plotTemplates_getitem (lith : string) : result Style :=
  match plotTemplates !! lith with
  | Some s => Ok s
  | None => Raise (KeyError lith)
  end.

(** ** matplotlib, as the state it accumulates *)

(** A polygon added by [ax.fill(x, y, c, hatch=, alpha=, label=)]. *)
Record Patch : Type := mkPatch {
  patch_x : list Q;
  patch_y : list Q;
  patch_color : string;
  patch_hatch : string;
  patch_alpha : Q;
  patch_label : string
}.

(** A text added by [ax.text(x, y, s, rotation=)]. *)
Record Text : Type := mkText {
  text_x : Q;
  text_y : Q;
  text_s : string;
  text_rotation : Z
}.

(** The axes. The calls that only style spines, ticks and tick labels
    ([spines], [tick_params], [set_major_formatter], [set_xticks],
    [set_axisbelow]) change nothing recorded here and are left out of
    the renderers below. [ylim] holds the arguments of the last
    [set_ylim], and [yaxis_inverted] tells whether [invert_yaxis] has
    been called an odd number of times. *)
Record Axes : Type := mkAxes {
  patches : list Patch;                  (* in drawing order *)
  texts : list Text;                     (* in drawing order *)
  major_locator : option Q;
  minor_locator : option Q;
  ylim : option (Q * Q);
  yaxis_inverted : bool;
  yaxis_grid : bool;
  xlabel : string;
  ylabel : string;
  title : option string;
  legend : option (list (string * Patch))
}.

Definition new_axes : Axes :=
  {| patches := []; texts := []; major_locator := None;
     minor_locator := None; ylim := None; yaxis_inverted := false;
     yaxis_grid := false; xlabel := EmptyString; ylabel := EmptyString;
     title := None; legend := None |}.

(** The state of [plt]: whether [plt.subplots] has made a figure, its
    axes, the files written by [plt.savefig] (name and dpi) and the number
    of calls of [plt.show]. *)
Record Plt : Type := mkPlt {
  fig_open : bool;
  ax : Axes;
  saved : list (string * Z);
  shown : nat
}.

Definition plt0 : Plt :=
  {| fig_open := false; ax := new_axes; saved := []; shown := 0 |}.

(** Computations that change the [plt] state and may raise. The state at
    the raise is kept: it tells what had been drawn, saved and shown. *)
Definition M (A : Type) : Type := Plt -> Plt * result A.

Definition ret {A} (a : A) : M A := fun p => (p, Ok a).

Definition bind {A B} (m : M A) (k : A -> M B) : M B :=
  fun p =>
    match m p with
    | (p', Ok a) => k a p'
    | (p', Raise e) => (p', Raise e)
    end.

Notation "x <- m ;; k" := (bind m (fun x => k))
  (at level 100, m at next level, right associativity).
Notation "m ;;; k" := (bind m (fun _ => k))
  (at level 100, right associativity).

Definition lift {A} (r : result A) : M A := fun p => (p, r).

Definition modify_ax (f : Axes -> Axes) : M unit :=
  fun p =>
    ({| fig_open := fig_open p; ax := f (ax p); saved := saved p;
        shown := shown p |}, Ok tt).

Definition get_ax : M Axes := fun p => (p, Ok (ax p)).

(** [for x in xs: body], with the local variables the body assigns
    carried from one iteration to the next. *)
Fixpoint for_each {A S} (xs : list A) (body : S -> A -> M S) (s : S) : M S :=
  match xs with
  | [] => ret s
  | x :: xs' => s' <- body s x ;; for_each xs' body s'
  end.

Module plt.

(** [fig, ax = plt.subplots(1,1, ...)]. *)
Definition subplots : M unit :=
  fun p =>
    ({| fig_open := true; ax := new_axes; saved := saved p;
        shown := shown p |}, Ok tt).

(** [plt.savefig(fname, dpi=)]. matplotlib takes the format from the text
    after the last dot of the file name and raises ValueError when the
    backend has no such format; the file system can refuse the path.
    [error] tells what a file name is refused with, if anything; a
    refused call writes nothing. *)
Definition savefig (error : string -> option exn) (fname : string)
    (dpi : Z) : M unit :=
  fun p =>
    match error fname with
    | Some e => (p, Raise e)
    | None =>
        ({| fig_open := fig_open p; ax := ax p;
            saved := saved p ++ [(fname, dpi)]; shown := shown p |}, Ok tt)
    end.

Definition show : M unit :=
  fun p =>
    ({| fig_open := fig_open p; ax := ax p; saved := saved p;
        shown := S (shown p) |}, Ok tt).

End plt.

Module Ax.

Definition set_patches (a : Axes) (v : list Patch) : Axes :=
  {| patches := v; texts := texts a; major_locator := major_locator a;
     minor_locator := minor_locator a; ylim := ylim a;
     yaxis_inverted := yaxis_inverted a; yaxis_grid := yaxis_grid a;
     xlabel := xlabel a; ylabel := ylabel a; title := title a;
     legend := legend a |}.

Definition set_texts (a : Axes) (v : list Text) : Axes :=
  {| patches := patches a; texts := v; major_locator := major_locator a;
     minor_locator := minor_locator a; ylim := ylim a;
     yaxis_inverted := yaxis_inverted a; yaxis_grid := yaxis_grid a;
     xlabel := xlabel a; ylabel := ylabel a; title := title a;
     legend := legend a |}.

(** Everything but the patches and the texts. *)
Definition set_cosmetics (a : Axes) (maj mi : option Q) (yl : option (Q * Q))
    (inv gr : bool) (xl yl' : string) (ti : option string)
    (leg : option (list (string * Patch))) : Axes :=
  {| patches := patches a; texts := texts a; major_locator := maj;
     minor_locator := mi; ylim := yl; yaxis_inverted := inv;
     yaxis_grid := gr; xlabel := xl; ylabel := yl'; title := ti;
     legend := leg |}.

Definition fill (x y : list Q) (c h : string) (al : Q) (label : string)
    : M unit :=
  modify_ax (fun a =>
    set_patches a (patches a ++ [mkPatch x y c h al label])).

Definition text (x y : Q) (s : string) (rotation : Z) : M unit :=
  modify_ax (fun a => set_texts a (texts a ++ [mkText x y s rotation])).

Definition set_locators (maj mi : Q) : M unit :=
  modify_ax (fun a =>
    set_cosmetics a (Some maj) (Some mi) (ylim a) (yaxis_inverted a)
      (yaxis_grid a) (xlabel a) (ylabel a) (title a) (legend a)).

Definition set_ylim (lo hi : Q) : M unit :=
  modify_ax (fun a =>
    set_cosmetics a (major_locator a) (minor_locator a) (Some (lo, hi))
      (yaxis_inverted a) (yaxis_grid a) (xlabel a) (ylabel a) (title a)
      (legend a)).

Definition invert_yaxis : M unit :=
  modify_ax (fun a =>
    set_cosmetics a (major_locator a) (minor_locator a) (ylim a)
      (negb (yaxis_inverted a)) (yaxis_grid a) (xlabel a) (ylabel a)
      (title a) (legend a)).

Definition grid : M unit :=
  modify_ax (fun a =>
    set_cosmetics a (major_locator a) (minor_locator a) (ylim a)
      (yaxis_inverted a) true (xlabel a) (ylabel a) (title a) (legend a)).

Definition set_xlabel (s : string) : M unit :=
  modify_ax (fun a =>
    set_cosmetics a (major_locator a) (minor_locator a) (ylim a)
      (yaxis_inverted a) (yaxis_grid a) s (ylabel a) (title a) (legend a)).

Definition set_ylabel (s : string) : M unit :=
  modify_ax (fun a =>
    set_cosmetics a (major_locator a) (minor_locator a) (ylim a)
      (yaxis_inverted a) (yaxis_grid a) (xlabel a) s (title a) (legend a)).

Definition set_title (s : string) : M unit :=
  modify_ax (fun a =>
    set_cosmetics a (major_locator a) (minor_locator a) (ylim a)
      (yaxis_inverted a) (yaxis_grid a) (xlabel a) (ylabel a) (Some s)
      (legend a)).

(** [OrderedDict(zip(l, h))]: a key keeps the place of its first
    occurrence and takes the value of its last. *)
Fixpoint od_set (d : list (string * Patch)) (k : string) (v : Patch)
    : list (string * Patch) :=
  match d with
  | [] => [(k, v)]
  | (k', v') :: d' =>
      if String.eqb k' k then (k, v) :: d' else (k', v') :: od_set d' k v
  end.

Definition OrderedDict_zip (lh : list (string * Patch))
    : list (string * Patch) :=
  fold_left (fun d kv => od_set d (fst kv) (snd kv)) lh [].

(** [h, l = ax.get_legend_handles_labels()], [legDict = OrderedDict(zip(l,h))],
    [ax.legend(legDict.values(), legDict.keys(), ...)]. Every patch on
    the axes is labelled with a key of the style table, so none is
    skipped for an empty or underscore label. *)
Definition legend_dedup : M unit :=
  modify_ax (fun a =>
    let lh := map (fun pa => (patch_label pa, pa)) (patches a) in
    set_cosmetics a (major_locator a) (minor_locator a) (ylim a)
      (yaxis_inverted a) (yaxis_grid a) (xlabel a) (ylabel a) (title a)
      (Some (OrderedDict_zip lh))).

End Ax.

(** [s.replace(' ', '_')]. *)
Fixpoint replace_spaces (s : string) : string :=
  match s with
  | EmptyString => EmptyString
  | String c s' =>
      String (if Ascii.eqb c " "%char then "_"%char else c) (replace_spaces s')
  end.

(** matplotlib's own reason to refuse a file name, with the file types of
    its Agg canvas: the format is the text after the last dot of the last
    path component (leading dots do not count), compared in lower case;
    a name without format is saved as png. *)
Definition Agg_filetypes : list string :=
  [ "eps"; "jpeg"; "jpg"; "pdf"; "pgf"; "png"; "ps"; "raw"; "rgba"; "svg";
    "svgz"; "tif"; "tiff"; "webp" ]%string.

Definition is_char (c d : ascii) : bool := Ascii.eqb c d.

(** Walking the name from its end: the characters after the last dot,
    and what precedes the dot (reversed). *)
Fixpoint split_ext_rev (ext : list ascii) (s : list ascii)
    : option (list ascii * list ascii) :=
  match s with
  | [] => None
  | c :: s' =>
      if is_char c "/" then None
      else if is_char c "." then Some (ext, s')
      else split_ext_rev (c :: ext) s'
  end.

(** The last path component has a character other than a dot before the
    dot found. *)
Fixpoint has_stem (s : list ascii) : bool :=
  match s with
  | [] => false
  | c :: s' =>
      if is_char c "/" then false
      else if is_char c "." then has_stem s'
      else true
  end.

Definition lower (c : ascii) : ascii :=
  let n := nat_of_ascii c in
  if (65 <=? n) && (n <=? 90) then ascii_of_nat (n + 32) else c.

(** [os.path.splitext(fname)[1][1:].lower()], [None] when it is empty. *)
Definition file_format (fname : string) : option string :=
  match split_ext_rev [] (rev (list_ascii_of_string fname)) with
  | Some (c :: ext, rest) =>
      if has_stem rest
      then Some (string_of_list_ascii (map lower (c :: ext)))
      else None
  | _ => None
  end.

Definition Agg_format_error (fname : string) : option exn :=
  match file_format fname with
  | Some fmt =>
      if existsb (String.eqb fmt) Agg_filetypes then None
      else Some (ValueError_format fmt)
  | None => None
  end.

Section Rendering.

Variable Well_intervals : DataFrame.t.

(** What [plt.savefig] refuses a file name with, if anything: the
    formats of the backend and the state of the file system are not part
    of the program. *)
Variable savefig_error : string -> option exn.

(** The body of the loop over [self.intervals.index], shared in shape by
    the two renderers: the label [i] is used as a position. *)
Definition plotWell_body (self : Well) (description : bool) (_ : unit)
    (i : nat) : M unit :=
  intTop <- lift (DataFrame.iloc (intervals Well_intervals self) i) ;;
  intBttm <- lift (DataFrame.iloc (intervals Well_intervals self) i) ;;
  desc <- lift (DataFrame.iloc (intervals Well_intervals self) i) ;;
  lith <- lift (DataFrame.iloc (intervals Well_intervals self) i) ;;
  h <- lift (plotTemplates_getitem (Lithology lith)) ;;
  c <- lift (plotTemplates_getitem (Lithology lith)) ;;
  alph <- lift (plotTemplates_getitem (Lithology lith)) ;;
  let width := 1%Q in
  let x := [0%Q; 0%Q; width; width] in
  let y := [Top intTop; Bottom intBttm; Bottom intBttm; Top intTop] in
  Ax.fill x y (color c) (hatch h) (alpha alph) (Lithology lith) ;;;
  (if description
   then Ax.text (width * (11 # 10))%Q (Top intTop) (Description desc) 0
   else ret tt).

(** Lines 114-135 of [plotWell]: axis format, legend, save, show. *)
Definition plotWell_finish (self : Well) (top bttm : Q)
    (legend save : bool) : M unit :=
  Ax.set_locators 1 (1 # 4) ;;;
  Ax.set_ylim top bttm ;;;
  Ax.invert_yaxis ;;;
  Ax.set_ylabel "Depth [m]" ;;;
  (if legend then Ax.legend_dedup else ret tt) ;;;
  (if save
   then
     let figTitle := name self in
     Ax.set_title figTitle ;;;
     plt.savefig savefig_error (replace_spaces figTitle) 175
   else ret tt) ;;;
  plt.show.

Definition plotWell (self : Well) (description hatch legend : bool)
    (figTitle : option string) (save : bool) : M unit :=
  top <- lift (DataFrame.iloc (intervals Well_intervals self) 0) ;;
  bttm <- lift (DataFrame.iloc_last (intervals Well_intervals self)) ;;
  plt.subplots ;;;
  for_each (DataFrame.index (intervals Well_intervals self))
    (plotWell_body self description) tt ;;;
  plotWell_finish self (Top top) (Bottom bttm) legend save.

(** The inner loop of [plotSection]; the local [xx] is assigned in it. *)
Definition plotSection_body (w : Well) (width : Q) (xx : option Q)
    (i : nat) : M (option Q) :=
  rTop <- lift (DataFrame.iloc (intervals Well_intervals w) i) ;;
  let intTop := (elevation w - Top rTop)%Q in
  rBttm <- lift (DataFrame.iloc (intervals Well_intervals w) i) ;;
  let intBttm := (elevation w - Bottom rBttm)%Q in
  lith <- lift (DataFrame.iloc (intervals Well_intervals w) i) ;;
  h <- lift (plotTemplates_getitem (Lithology lith)) ;;
  c <- lift (plotTemplates_getitem (Lithology lith)) ;;
  alph <- lift (plotTemplates_getitem (Lithology lith)) ;;
  let xx := xcoord w in
  let x := [xx; xx; (xx + width)%Q; (xx + width)%Q] in
  let y := [intTop; intBttm; intBttm; intTop] in
  Ax.fill x y (color c) (hatch h) (alpha alph) (Lithology lith) ;;;
  ret (Some xx).

(** Reading the local [xx]. *)
Definition read_xx (xx : option Q) : M Q :=
  match xx with
  | Some v => ret v
  | None => lift (Raise (UnboundLocalError "xx"))
  end.

(** One turn of the loop over the wells. *)
Definition plotSection_well (width wellLabelHeight : Q) (xx : option Q)
    (w : Well) : M (option Q) :=
  xx <- for_each (DataFrame.index (intervals Well_intervals w))
          (plotSection_body w width) xx ;;
  let wellTitleElevation := wellLabelHeight in
  v <- read_xx xx ;;
  Ax.text (v + width * (1 # 2))%Q (elevation w + wellTitleElevation)%Q
    (name w) 90 ;;;
  ret xx.

(** Lines 248-285 of [plotSection]: axis format, legend, save, show. *)
Definition plotSection_finish (grid save : bool) (title : string)
    (north elevation : bool) : M unit :=
  Ax.set_locators 1 (1 # 4) ;;;
  (if grid then Ax.grid else ret tt) ;;;
  (if north then Ax.set_xlabel "Northing [m]"
   else Ax.set_xlabel "Easting [m]") ;;;
  (if elevation then Ax.set_ylabel "Elevation [m]"
   else Ax.set_ylabel "Depth [m]") ;;;
  Ax.legend_dedup ;;;
  (if save
   then
     let figTitle := title in
     plt.savefig savefig_error (replace_spaces figTitle) 300
   else ret tt) ;;;
  plt.show.

Definition plotSection (wells : list Well) (width : Q) (grid save : bool)
    (title : string) (north elevation : bool) (wellLabelHeight : Q)
    : M unit :=
  plt.subplots ;;;
  for_each wells (plotSection_well width wellLabelHeight) None ;;;
  plotSection_finish grid save title north elevation.

End Rendering.

(** ** Instances and the class, by reference *)

(** The instance dictionary of a well: the attributes set by [__init__]
    and the entry ['intervals'], a reference to a frame, absent until a
    method assigns [self.intervals]. *)
Record Instance : Type := mkInstance {
  inst_name : string;
  inst_xcoord : Q;
  inst_ycoord : Q;
  inst_elevation : Q;
  inst_date : string;
  inst_project : string;
  inst_logged_by : string;
  inst_intervals : option nat
}.

Definition set_inst_intervals (r : nat) (o : Instance) : Instance :=
  {| inst_name := inst_name o; inst_xcoord := inst_xcoord o;
     inst_ycoord := inst_ycoord o; inst_elevation := inst_elevation o;
     inst_date := inst_date o; inst_project := inst_project o;
     inst_logged_by := inst_logged_by o; inst_intervals := Some r |}.

(** Python's heap, as far as wells go: the DataFrame objects and the
    instances, a reference being a position; and the class attribute
    [Well.intervals], the reference of one frame, which every instance
    without entry of its own reads. *)
Record Heap : Type := mkHeap {
  frames : list DataFrame.t;
  class_intervals : nat;
  instances : list Instance
}.

Module Heap.

(** The heap once the class statement has run: [Well.intervals] refers
    to a new empty frame and there is no instance. *)
Definition initial : Heap :=
  {| frames := [DataFrame.empty]; class_intervals := 0; instances := [] |}.

(** The constructor: a new instance whose dictionary has the seven
    attributes and no ['intervals']. *)
Definition construct (name : string) (xcoord ycoord elevation : Q)
    (date project logged_by : string) (h : Heap) : nat * Heap :=
  (length (instances h),
   {| frames := frames h; class_intervals := class_intervals h;
      instances :=
        instances h ++
        [mkInstance name xcoord ycoord elevation date project logged_by
           None] |}).

(** A DataFrame method that returns a frame makes a new object. *)
Definition new_frame (df : DataFrame.t) (h : Heap) : nat * Heap :=
  (length (frames h),
   {| frames := frames h ++ [df]; class_intervals := class_intervals h;
      instances := instances h |}).

(** Reading [self.intervals]: the instance dictionary first, then the
    class. [None] stands for a reference that is no instance, which
    Python cannot produce. *)
Definition getattr_intervals (self : nat) (h : Heap) : option nat :=
  match instances h !! self with
  | Some o =>
      Some (match inst_intervals o with
            | Some r => r
            | None => class_intervals h
            end)
  | None => None
  end.

(** [self.intervals = value]: an entry of the instance dictionary. *)
Definition setattr_intervals (self r : nat) (h : Heap) : Heap :=
  {| frames := frames h; class_intervals := class_intervals h;
     instances := alter (set_inst_intervals r) self (instances h) |}.

(** The frame [self.intervals] evaluates to. *)
Definition read_intervals (self : nat) (h : Heap) : option DataFrame.t :=
  r ← getattr_intervals self h; frames h !! r.

(** The frame the class attribute refers to. *)
Definition class_frame (h : Heap) : option DataFrame.t :=
  frames h !! class_intervals h.

(** [self.intervals = self.intervals.method(...)] for a method that
    computes [f] and may raise: the attribute is read, the method
    returns a new frame or raises, and only then the instance is
    assigned. *)
Definition reassign_intervals (f : DataFrame.t -> result DataFrame.t)
    (self : nat) (h : Heap) : option (Heap * result unit) :=
  r ← getattr_intervals self h;
  df ← frames h !! r;
  match f df with
  | Ok df' =>
      let (r', h') := new_frame df' h in
      Some (setattr_intervals self r' h', Ok tt)
  | Raise e => Some (h, Raise e)
  end.

(** Sequencing of two statements: the second runs unless the first
    raised. *)
Definition and_then (m : option (Heap * result unit))
    (k : Heap -> option (Heap * result unit))
    : option (Heap * result unit) :=
  match m with
  | Some (h, Ok _) => k h
  | Some (h, Raise e) => Some (h, Raise e)
  | None => None
  end.

Definition add_interval (pd : DataFrame.Pandas) (self : nat)
    (top bottom : Q) (lithology description : string) (h : Heap)
    : option (Heap * result unit) :=
  let interval :=
    {| Lithology := lithology; Top := top; Bottom := bottom;
       Description := description |} in
  and_then
    (reassign_intervals (fun df => Ok (DataFrame.append pd df interval))
       self h)
    (fun h =>
  and_then
    (reassign_intervals (fun df => Ok (DataFrame.drop_duplicates df)) self h)
    (fun h =>
  reassign_intervals (fun df => Ok (DataFrame.sort_values_by_Top pd df))
    self h)).

Definition remove_interval (self : nat) (layNum : option Z)
    (lithology : option string) (h : Heap) : option (Heap * result unit) :=
  match layNum, lithology with
  | None, None =>
      Some (h, Raise (Exception "Need to specify a layer number or lithology!"))
  | _, _ =>
      and_then
        (match layNum with
         | Some k => reassign_intervals (fun df => DataFrame.drop df k) self h
         | None => Some (h, Ok tt)
         end)
        (fun h =>
           match lithology with
           | Some lith =>
               reassign_intervals
                 (fun df => Ok (DataFrame.where_Lithology_ne df lith)) self h
           | None => Some (h, Ok tt)
           end)
  end.

(** For contrast, an update in place of the frame [self.intervals]
    refers to, as [self.intervals.loc[n] = row] would be; no method of
    the source does it. *)
Definition update_in_place (f : DataFrame.t -> DataFrame.t) (self : nat)
    (h : Heap) : option Heap :=
  r ← getattr_intervals self h;
  df ← frames h !! r;
  Some {| frames := <[r := f df]> (frames h);
          class_intervals := class_intervals h; instances := instances h |}.

(** Every reference of the heap is that of an object. *)
Definition wf (h : Heap) : Prop :=
  class_intervals h < length (frames h) /\
  Forall (fun o =>
            match inst_intervals o with
            | Some r => r < length (frames h)
            | None => True
            end) (instances h).

(** The instance behind [self] as a [Well] value, its table read
    through the reference. *)
Definition view (self : nat) (h : Heap) : option Well :=
  match instances h !! self with
  | Some o =>
      match inst_intervals o with
      | Some r =>
          match frames h !! r with
          | Some df =>
              Some (mkWell (inst_name o) (inst_xcoord o) (inst_ycoord o)
                      (inst_elevation o) (inst_date o) (inst_project o)
                      (inst_logged_by o) (Some df))
          | None => None
          end
      | None =>
          Some (mkWell (inst_name o) (inst_xcoord o) (inst_ycoord o)
                  (inst_elevation o) (inst_date o) (inst_project o)
                  (inst_logged_by o) None)
      end
  | None => None
  end.

(** What a call on [self] may change between two heaps: frames are only
    added, the class attribute keeps its reference and every other
    instance its dictionary. *)
Definition only_self (self : nat) (h h' : Heap) : Prop :=
  (exists l, frames h' = frames h ++ l) /\
  class_intervals h' = class_intervals h /\
  length (instances h') = length (instances h) /\
  forall w, w <> self -> instances h' !! w = instances h !! w.

(** The outcome of a call on [self]: it returns or raises, on a heap
    that is well formed and differs from [h] by [only_self]. *)
Definition call_on (self : nat) (h : Heap)
    (m : option (Heap * result unit)) : Prop :=
  exists h' r,
    m = Some (h', r) /\ wf h' /\ only_self self h h' /\
    is_Some (instances h' !! self).

(** The heaps a program can reach from the class statement by making
    wells and calling the two methods on them. *)
Inductive reachable (pd : DataFrame.Pandas) : Heap -> Prop :=
| reachable_initial : reachable pd initial
| reachable_construct (h : Heap) (name : string)
    (xcoord ycoord elevation : Q) (date project logged_by : string) :
    reachable pd h ->
    reachable pd
      (snd (construct name xcoord ycoord elevation date project
              logged_by h))
| reachable_add_interval (h h' : Heap) (r : result unit) (self : nat)
    (top bottom : Q) (lithology description : string) :
    reachable pd h ->
    add_interval pd self top bottom lithology description h
      = Some (h', r) ->
    reachable pd h'
| reachable_remove_interval (h h' : Heap) (r : result unit) (self : nat)
    (layNum : option Z) (lithology : option string) :
    reachable pd h ->
    remove_interval self layNum lithology h = Some (h', r) ->
    reachable pd h'.

End Heap.

(** ** Vocabulary of the properties *)

(** Sorted ascending by Top. *)
Definition sorted_by_Top (df : DataFrame.t) : Prop :=
  StronglySorted Top_le df.

(** The wells a caller has after each of a sequence of [add_interval]
    calls; a call is (top, bottom, lithology, description). *)
Fixpoint add_interval_trace (pd : DataFrame.Pandas)
    (Well_intervals : DataFrame.t) (self : Well)
    (calls : list (Q * Q * string * string)) : list Well :=
  match calls with
  | [] => []
  | (top, bottom, lithology, description) :: calls' =>
      let self' :=
        add_interval pd Well_intervals self top bottom lithology
          description in
      self' :: add_interval_trace pd Well_intervals self' calls'
  end.

(** The message of the exception of [remove_interval] (line 44). *)
Definition need_selector_msg : string :=
  "Need to specify a layer number or lithology!".

(** A record whose Top and Bottom the columns of every frame hold as
    passed: floats, and ints up to 2^53. *)
Definition kept (pd : DataFrame.Pandas) (r : Row) : Prop :=
  forall df, DataFrame.stored pd df r = r.

(** Two rows are the same record: equal by value, field by field. *)
Definition Row_eq (r s : Row) : Prop := Row_eqb r s = true.

(** How many stored rows equal [r] by value. *)
Definition count_rows (r : Row) (df : DataFrame.t) : nat :=
  length (List.filter (Row_eqb r) (DataFrame.rows df)).

(** ** Example wells *)

(** [w.add_interval(2, 5, 'Till')] then [w.add_interval(0, 2, 'Clay')] on a
    fresh well: the rows are Clay, Till and their labels 1, 0. *)
Definition well_Clay_Till : Well :=
  add_interval pandas16 DataFrame.empty
    (add_interval pandas16 DataFrame.empty Well_default 2 5 "Till" no_desc)
    0 2 "Clay" no_desc.

(** A well at elevation 100 with the single interval Clay 0-2. *)
Definition well_100 : Well :=
  add_interval pandas16 DataFrame.empty
    {| name := "BH-1"; xcoord := 10; ycoord := 0; elevation := 100;
       date := "---"; project := "---"; logged_by := "Not Specified";
       own_intervals := None |}
    0 2 "Clay" "stiff".

(** A well with one interval of a lithology the style table lacks. *)
Definition well_Sand : Well :=
  add_interval pandas16 DataFrame.empty Well_default 0 1 "Sand" no_desc.

(** A fresh well at x = 50 with no interval. *)
Definition well_empty_50 : Well :=
  {| name := "BH-2"; xcoord := 50; ycoord := 0; elevation := 0;
     date := "---"; project := "---"; logged_by := "Not Specified";
     own_intervals := None |}.

(** Clay 0-1, Sand 1-2 and Till 2-3 added in that order, then
    [remove_interval(layNum=0)]: the rows Sand, Till with labels 1, 2. *)
Definition well_Sand_Till : Well :=
  let w := add_interval pandas16 DataFrame.empty Well_default 0 1 "Clay"
      no_desc in
  let w := add_interval pandas16 DataFrame.empty w 1 2 "Sand" no_desc in
  let w := add_interval pandas16 DataFrame.empty w 2 3 "Till" no_desc in
  match remove_interval DataFrame.empty w (Some 0%Z) None with
  | Ok w' => w'
  | Raise _ => w
  end.

(** The heap after [w0 = Well()] and [w1 = Well(name='BH-2', xcoord=50)]:
    two instances, neither with intervals of its own. *)
Definition heap_two_wells : Heap :=
  snd (Heap.construct "BH-2" 50 0 0 "---" "---" "Not Specified"
         (snd (Heap.construct "Borehole" 0 0 0 "---" "---" "Not Specified"
                 Heap.initial))).

(** The heap after [w0 = Well()] and [w0.add_interval(0, 2, 'Clay')]. *)
Definition heap_after_calls : Heap :=
  let h := snd (Heap.construct "Borehole" 0 0 0 "---" "---" "Not Specified"
                  Heap.initial) in
  match Heap.add_interval pandas16 0 0 2 "Clay" no_desc h with
  | Some (h', _) => h'
  | None => h
  end.

(** ** Vocabulary of the rendering properties *)

(** The rectangle [plotSection] draws for row [r] of well [w] once the
    style [s] of its lithology is found. *)
Definition section_patch (w : Well) (width : Q) (r : Row) (s : Style)
    : Patch :=
  {| patch_x := [xcoord w; xcoord w; xcoord w + width; xcoord w + width]%Q;
     patch_y := [elevation w - Top r; elevation w - Bottom r;
                 elevation w - Bottom r; elevation w - Top r]%Q;
     patch_color := color s; patch_hatch := hatch s;
     patch_alpha := alpha s; patch_label := Lithology r |}.

Definition add_patch (p : Plt) (pa : Patch) : Plt :=
  {| fig_open := fig_open p;
     ax := Ax.set_patches (ax p) (patches (ax p) ++ [pa]);
     saved := saved p; shown := shown p |}.

Definition add_text (p : Plt) (tx : Text) : Plt :=
  {| fig_open := fig_open p;
     ax := Ax.set_texts (ax p) (texts (ax p) ++ [tx]);
     saved := saved p; shown := shown p |}.

(** Between two plotting states: nothing drawn was lost, nothing was
    saved and nothing shown. *)
Definition extends (p p' : Plt) : Prop :=
  incl (patches (ax p)) (patches (ax p')) /\
  saved p' = saved p /\ shown p' = shown p.

(** Every rectangle on the axes is that of a stored interval of a listed
    well, at its converted elevations. *)
Definition patches_sound (Well_intervals : DataFrame.t) (wells : list Well)
    (width : Q) (p : Plt) : Prop :=
  forall pa, In pa (patches (ax p)) ->
    exists w i r st,
      In w wells /\ In (i, r) (intervals Well_intervals w) /\
      plotTemplates !! Lithology r = Some st /\
      pa = section_patch w width r st.

(** A step that cannot raise and leaves the patches and texts alone. *)
Definition keeps_drawing (m : M unit) : Prop :=
  forall p, exists p',
    m p = (p', Ok tt) /\
    patches (ax p') = patches (ax p) /\ texts (ax p') = texts (ax p).

(** A step that leaves the patches and texts alone, raising or not. *)
Definition draws_nothing (m : M unit) : Prop :=
  forall p,
    patches (ax (fst (m p))) = patches (ax p) /\
    texts (ax (fst (m p))) = texts (ax p).

(** [plt.savefig] takes the file name, when the caller asks to save. *)
Definition savefig_accepts (savefig_error : string -> option exn)
    (save : bool) (fname : string) : Prop :=
  save = true -> savefig_error fname = None.

(** A well whose table the renderers can walk: the index labels are the
    positions 0 .. n-1 in some order, and every lithology has a style. *)
Definition positional_index (Well_intervals : DataFrame.t) (w : Well)
    : Prop :=
  Permutation (DataFrame.index (intervals Well_intervals w))
    (seq 0 (length (intervals Well_intervals w))).

Definition renderable (Well_intervals : DataFrame.t) (w : Well) : Prop :=
  positional_index Well_intervals w /\
  Forall (fun x => is_Some (plotTemplates !! Lithology (snd x)))
    (intervals Well_intervals w).

(** Some stored interval of the well has a lithology without style. *)
Definition has_unknown_lithology (Well_intervals : DataFrame.t) (w : Well)
    : Prop :=
  Exists (fun x => plotTemplates !! Lithology (snd x) = None)
    (intervals Well_intervals w).

(** The first well of the list, if any, has an interval. *)
Definition first_well_nonempty (Well_intervals : DataFrame.t)
    (wells : list Well) : Prop :=
  match wells with
  | [] => True
  | w :: _ => intervals Well_intervals w <> []
  end.

(** Clay 0-1, Silt 1-2 and Till 2-3 added in that order. *)
Definition well_three : Well :=
  let w := add_interval pandas16 DataFrame.empty Well_default 0 1 "Clay"
      no_desc in
  let w := add_interval pandas16 DataFrame.empty w 1 2 "Silt" no_desc in
  add_interval pandas16 DataFrame.empty w 2 3 "Till" no_desc.

(** ** Vocabulary of the further properties *)

(** The wells a caller can build: a new well, which reads the empty
    class-level table, then any calls of [add_interval] and of
    [remove_interval] that returned. *)
Inductive built (pd : DataFrame.Pandas) : Well -> Prop :=
| built_new (name : string) (xcoord ycoord elevation : Q)
    (date project logged_by : string) :
    built pd
      (mkWell name xcoord ycoord elevation date project logged_by None)
| built_add (w : Well) (top bottom : Q) (lithology description : string) :
    built pd w ->
    built pd
      (add_interval pd DataFrame.empty w top bottom lithology description)
| built_remove (w w' : Well) (layNum : option Z) (lithology : option string) :
    built pd w ->
    remove_interval DataFrame.empty w layNum lithology = Ok w' ->
    built pd w'.

(** Two rows start at the same depth. *)
Definition Top_eq (r s : Row) : Prop := (Top r == Top s)%Q.

(** Rows in ascending order of Top. *)
Definition rows_sorted (rs : list Row) : Prop :=
  StronglySorted (fun r s => (Top r <= Top s)%Q) rs.

(** The rectangle [plotWell] draws for row [r] once the style [s] of
    its lithology is found, and the description text it puts beside. *)
Definition well_patch (r : Row) (s : Style) : Patch :=
  {| patch_x := [0; 0; 1; 1]%Q;
     patch_y := [Top r; Bottom r; Bottom r; Top r];
     patch_color := color s; patch_hatch := hatch s;
     patch_alpha := alpha s; patch_label := Lithology r |}.

Definition well_text (r : Row) : Text :=
  {| text_x := (1 * (11 # 10))%Q; text_y := Top r;
     text_s := Description r; text_rotation := 0 |}.

(** The name label [plotSection] writes for a well whose own x is in
    [xx]. *)
Definition section_label (width wellLabelHeight : Q) (w : Well) : Text :=
  {| text_x := (xcoord w + width * (1 # 2))%Q;
     text_y := (elevation w + wellLabelHeight)%Q;
     text_s := name w; text_rotation := 90 |}.

(** The keys of a list, each kept at its first occurrence. *)
Fixpoint first_seen (seen ks : list string) : list string :=
  match ks with
  | [] => []
  | k :: ks' =>
      if existsb (String.eqb k) seen
      then first_seen seen ks'
      else k :: first_seen (k :: seen) ks'
  end.

(** What a plotting state holds besides the patches and the texts. *)
Definition cosmetics (p : Plt) :=
  (fig_open p, saved p, shown p,
   (major_locator (ax p), minor_locator (ax p), ylim (ax p),
    yaxis_inverted (ax p), yaxis_grid (ax p)),
   (xlabel (ax p), ylabel (ax p), title (ax p), legend (ax p))).

(** The labels and handles [ax.get_legend_handles_labels()] returns. *)
Definition legend_handles_labels (p : Plt) : list (string * Patch) :=
  map (fun pa => (patch_label pa, pa)) (patches (ax p)).

(** * Properties *)

(** ** Rows: equality by value *)

Lemma Row_eqb_refl (r : Row) : Row_eqb r r = true.
Proof.
  unfold Row_eqb.
  rewrite !String.eqb_refl, !Qeq_bool_refl. reflexivity.
Qed.

Lemma Row_eqb_fields (r s : Row) :
  Row_eqb r s = true <->
  Lithology r = Lithology s /\ (Top r == Top s)%Q /\
  (Bottom r == Bottom s)%Q /\ Description r = Description s.
Proof.
  unfold Row_eqb.
  rewrite !andb_true_iff, !String.eqb_eq, !Qeq_bool_iff. tauto.
Qed.

Lemma Row_eqb_sym (r s : Row) : Row_eqb r s = Row_eqb s r.
Proof.
  destruct (Row_eqb r s) eqn:E1, (Row_eqb s r) eqn:E2; try reflexivity.
  - apply Row_eqb_fields in E1. destruct E1 as (a & b & c & d).
    assert (Row_eqb s r = true) as E
      by (apply Row_eqb_fields; repeat split; symmetry; assumption).
    congruence.
  - apply Row_eqb_fields in E2. destruct E2 as (a & b & c & d).
    assert (Row_eqb r s = true) as E
      by (apply Row_eqb_fields; repeat split; symmetry; assumption).
    congruence.
Qed.

Lemma Row_eqb_trans (r s u : Row) :
  Row_eqb r s = true -> Row_eqb s u = true -> Row_eqb r u = true.
Proof.
  rewrite !Row_eqb_fields.
  intros (a & b & c & d) (a' & b' & c' & d').
  repeat split; try congruence.
  - rewrite b. exact b'.
  - rewrite c. exact c'.
Qed.

(** ** Frames: sorting by Top *)

Lemma Top_le_trans (x y z : nat * Row) :
  Top_le x y -> Top_le y z -> Top_le x z.
Proof. unfold Top_le. apply Qle_trans. Qed.

Module DataFrameFacts.
Import DataFrame.

Lemma sort_values_sorted (pd : Pandas) (df : t) :
  sorted_by_Top (sort_values_by_Top pd df).
Proof.
  apply Sorted_StronglySorted; [|apply sort_values_ascending].
  intros x y z. apply Top_le_trans.
Qed.

(** ** Frames: labels of [append] *)

Lemma rows_number_from (n : nat) (rs : list Row) :
  rows (number_from n rs) = rs.
Proof.
  revert n. induction rs as [|r rs IH]; intros n; simpl; [reflexivity|].
  unfold rows in IH. rewrite IH. reflexivity.
Qed.

Lemma index_number_from (n : nat) (rs : list Row) :
  index (number_from n rs) = seq n (length rs).
Proof.
  revert n. induction rs as [|r rs IH]; intros n; simpl; [reflexivity|].
  unfold index in IH. rewrite IH. reflexivity.
Qed.

Lemma rows_append (pd : Pandas) (df : t) (r : Row) :
  rows (append pd df r) = rows df ++ [stored pd df r].
Proof. apply rows_number_from. Qed.

Lemma index_append (pd : Pandas) (df : t) (r : Row) :
  index (append pd df r) = seq 0 (S (length df)).
Proof.
  unfold append. rewrite index_number_from, length_app.
  unfold rows. rewrite length_map. simpl length.
  rewrite Nat.add_1_r. reflexivity.
Qed.

End DataFrameFacts.

(** ** add_interval and remove_interval *)

Section MethodFacts.

Variable pd : DataFrame.Pandas.
Variable Well_intervals : DataFrame.t.

Lemma intervals_set_intervals (self : Well) (df : DataFrame.t) :
  intervals Well_intervals (set_intervals self df) = df.
Proof. reflexivity. Qed.

Lemma intervals_add_interval (self : Well) (top bottom : Q)
    (lithology description : string) :
  intervals Well_intervals
    (add_interval pd Well_intervals self top bottom lithology description) =
  DataFrame.sort_values_by_Top pd
    (DataFrame.drop_duplicates
       (DataFrame.append pd (intervals Well_intervals self)
          (mkRow lithology top bottom description))).
Proof. reflexivity. Qed.

End MethodFacts.

(** C2. Whatever the well and whatever the sequence of [add_interval]
    calls made on it, after each call the interval table is sorted
    ascending by Top: every row's Top is at most the Top of every row
    stored after it. *)
Theorem add_interval_keeps_sorted (pd : DataFrame.Pandas)
    (Well_intervals : DataFrame.t)
    (self : Well) (calls : list (Q * Q * string * string)) :
  Forall (fun w => sorted_by_Top (intervals Well_intervals w))
    (add_interval_trace pd Well_intervals self calls).
Proof.
  revert self. induction calls as [|[[[top bottom] lith] desc] calls IH];
    intros self; simpl.
  - constructor.
  - constructor; [|apply IH].
    rewrite intervals_add_interval.
    apply DataFrameFacts.sort_values_sorted.
Qed.

Lemma filter_sublist {A} (f : A -> bool) (l : list A) :
  sublist (List.filter f l) l.
Proof.
  induction l as [|a l IH]; simpl.
  - constructor.
  - destruct (f a); constructor; exact IH.
Qed.

(** C7. [remove_interval(lithology=L)] on any well, whatever calls built
    it, returns normally; the rows left are exactly the stored rows whose
    Lithology differs from L, with their labels and fields, in the order
    they had. *)
Theorem remove_interval_by_lithology (Well_intervals : DataFrame.t)
    (self : Well) (L : string) :
  exists self',
    remove_interval Well_intervals self None (Some L) = Ok self' /\
    intervals Well_intervals self' =
      List.filter (fun x => negb (String.eqb (Lithology (snd x)) L))
        (intervals Well_intervals self) /\
    (forall x, In x (intervals Well_intervals self') <->
               In x (intervals Well_intervals self) /\
               Lithology (snd x) <> L) /\
    sublist (intervals Well_intervals self') (intervals Well_intervals self).
Proof.
  eexists. split; [reflexivity|].
  rewrite intervals_set_intervals. unfold DataFrame.where_Lithology_ne.
  split; [reflexivity|]. split.
  - intros x. rewrite filter_In. unfold DataFrame.Lithology_ne.
    rewrite negb_true_iff.
    destruct (String.eqb_spec (Lithology (snd x)) L); split;
      intros [H1 H2]; split; congruence.
  - apply filter_sublist.
Qed.

(** C5 as the code has it. [remove_interval] raises
    [Exception('Need to specify a layer number or lithology!')] exactly
    when both selectors are absent. When both are supplied and layNum is
    the label of a stored row, no error is raised: the rows with that
    label are dropped, then every remaining row of the given lithology is
    removed. *)
Theorem remove_interval_selectors (Well_intervals : DataFrame.t)
    (self : Well) (layNum : option Z) (lithology : option string) :
  (remove_interval Well_intervals self layNum lithology =
     Raise (Exception need_selector_msg)
   <-> layNum = None /\ lithology = None) /\
  (forall k L,
     layNum = Some k -> lithology = Some L ->
     existsb (DataFrame.has_label k) (intervals Well_intervals self) = true ->
     exists df1,
       DataFrame.drop (intervals Well_intervals self) k = Ok df1 /\
       remove_interval Well_intervals self layNum lithology =
         Ok (set_intervals self (DataFrame.where_Lithology_ne df1 L))).
Proof.
  split.
  - split.
    + destruct layNum as [k|], lithology as [L|]; simpl;
        unfold DataFrame.drop; try destruct (existsb _ _);
        try discriminate; auto.
    + intros [-> ->]. reflexivity.
  - intros k L -> -> Hk. unfold remove_interval, DataFrame.drop.
    rewrite Hk. eexists. split; reflexivity.
Qed.

Lemma filter_all {A} (f : A -> bool) (l : list A) :
  (forall x, In x l -> f x = true) -> List.filter f l = l.
Proof.
  induction l as [|a l IH]; intros H; simpl; [reflexivity|].
  rewrite (H a (or_introl eq_refl)), IH; [reflexivity|].
  intros x Hx. apply H. right. exact Hx.
Qed.

Lemma has_label_of_nat (k : nat) (x : nat * Row) :
  DataFrame.has_label (Z.of_nat k) x = Nat.eqb (fst x) k.
Proof.
  unfold DataFrame.has_label.
  destruct (Nat.eqb_spec (fst x) k) as [->|Hne].
  - apply Z.eqb_refl.
  - apply Z.eqb_neq. lia.
Qed.

(** In a frame labelled m, m+1, ... in stored order, the row labelled
    m + k is the one at position k. *)
Lemma drop_label_of_range (k m : nat) (df : DataFrame.t) :
  DataFrame.index df = seq m (length df) ->
  DataFrame.rows
    (List.filter
       (fun x => negb (DataFrame.has_label (Z.of_nat (m + k)) x)) df) =
  delete k (DataFrame.rows df).
Proof.
  revert k m. induction df as [|[i r] df IH]; intros k m H.
  - destruct k; reflexivity.
  - simpl in H. inversion H as [[Hi Hdf]]. subst i. simpl List.filter.
    rewrite has_label_of_nat. simpl fst. destruct k as [|k].
    + rewrite Nat.add_0_r, Nat.eqb_refl. simpl.
      rewrite filter_all; [reflexivity|].
      intros x Hx. rewrite has_label_of_nat.
      apply (in_map fst) in Hx. fold (DataFrame.index df) in Hx.
      rewrite Hdf in Hx. apply in_seq in Hx.
      apply negb_true_iff, Nat.eqb_neq. lia.
    + replace (m =? m + S k) with false
        by (symmetry; apply Nat.eqb_neq; lia).
      simpl. f_equal.
      replace (m + S k) with (S m + k) by lia.
      apply IH. exact Hdf.
Qed.

(** C3 as the code has it. [remove_interval(layNum=k)], for k the index
    label of a stored row, returns normally and removes exactly the rows
    labelled k, the others keeping their labels, fields and order. The
    row removed is the one at ordinal position k when the labels are
    0, 1, ..., n-1 in stored order. *)
Theorem remove_interval_by_label (Well_intervals : DataFrame.t)
    (self : Well) (k : nat) :
  In k (DataFrame.index (intervals Well_intervals self)) ->
  exists self',
    remove_interval Well_intervals self (Some (Z.of_nat k)) None = Ok self' /\
    intervals Well_intervals self' =
      List.filter (fun x => negb (Nat.eqb (fst x) k))
        (intervals Well_intervals self) /\
    (DataFrame.index (intervals Well_intervals self) =
       seq 0 (length (intervals Well_intervals self)) ->
     DataFrame.rows (intervals Well_intervals self') =
       delete k (DataFrame.rows (intervals Well_intervals self))).
Proof.
  intros Hk. unfold remove_interval, DataFrame.drop.
  assert (existsb (DataFrame.has_label (Z.of_nat k))
            (intervals Well_intervals self) = true) as E.
  { apply existsb_exists. apply in_map_iff in Hk.
    destruct Hk as (x & Hx & Hin). exists x. split; [exact Hin|].
    rewrite has_label_of_nat, Hx. apply Nat.eqb_refl. }
  rewrite E. eexists. split; [reflexivity|].
  rewrite intervals_set_intervals. split.
  - apply filter_ext. intros x. rewrite has_label_of_nat. reflexivity.
  - intros Hseq. apply (drop_label_of_range k 0). exact Hseq.
Qed.

Lemma remove_interval_by_label_witness :
  In 0 (DataFrame.index (intervals DataFrame.empty well_Clay_Till)) /\
  exists self',
    remove_interval DataFrame.empty well_Clay_Till (Some (Z.of_nat 0)) None
      = Ok self' /\
    intervals DataFrame.empty self' =
      List.filter (fun x => negb (Nat.eqb (fst x) 0))
        (intervals DataFrame.empty well_Clay_Till) /\
    (DataFrame.index (intervals DataFrame.empty well_Clay_Till) =
       seq 0 (length (intervals DataFrame.empty well_Clay_Till)) ->
     DataFrame.rows (intervals DataFrame.empty self') =
       delete 0 (DataFrame.rows (intervals DataFrame.empty well_Clay_Till))).
Proof.
  assert (In 0 (DataFrame.index (intervals DataFrame.empty well_Clay_Till)))
    as H by (simpl; auto).
  split; [exact H|].
  exact (remove_interval_by_label DataFrame.empty well_Clay_Till 0 H).
Defined.

(** C3 as the specification words it fails: after Till 2-5 and Clay 0-2
    were added in that order, position 0 of the sorted table holds Clay,
    and [remove_interval(layNum=0)] removes Till, the row labelled 0. *)
Lemma remove_interval_not_by_position :
  0 < length (intervals DataFrame.empty well_Clay_Till) /\
  exists self',
    remove_interval DataFrame.empty well_Clay_Till (Some 0%Z) None
      = Ok self' /\
    DataFrame.rows (intervals DataFrame.empty self') =
      [mkRow "Clay" 0 2 no_desc] /\
    DataFrame.rows (intervals DataFrame.empty self') <>
      delete 0 (DataFrame.rows (intervals DataFrame.empty well_Clay_Till)).
Proof.
  split; [simpl; lia|].
  eexists. split; [reflexivity|]. split; [reflexivity|].
  vm_compute. discriminate.
Qed.

Lemma remove_interval_selectors_witness :
  exists df1,
    DataFrame.drop (intervals DataFrame.empty well_Clay_Till) 0 = Ok df1 /\
    remove_interval DataFrame.empty well_Clay_Till (Some 0%Z) (Some "Clay"%string)
      = Ok (set_intervals well_Clay_Till
              (DataFrame.where_Lithology_ne df1 "Clay")).
Proof.
  apply (proj2 (remove_interval_selectors DataFrame.empty well_Clay_Till
                  (Some 0%Z) (Some "Clay"%string)) 0%Z "Clay"%string);
    reflexivity.
Defined.

(** C5 as the specification words it fails twice: the message raised is
    not the quoted one, and with both selectors supplied a layNum that
    labels no row raises a KeyError. *)
Lemma remove_interval_message_and_absent_label :
  remove_interval DataFrame.empty Well_default None None <>
    Raise (Exception "must specify a layer number or lithology") /\
  remove_interval DataFrame.empty Well_default (Some 5%Z)
    (Some "Clay"%string) = Raise (KeyError_not_in_axis 5).
Proof. split; [discriminate | reflexivity]. Qed.

(** ** Duplicates *)

#[local] Instance Row_eq_Equivalence : Equivalence Row_eq.
Proof.
  split.
  - intros r. apply Row_eqb_refl.
  - intros r s H. unfold Row_eq. rewrite Row_eqb_sym. exact H.
  - intros r s u. apply Row_eqb_trans.
Qed.

Lemma existsb_Row_eqb_InA (r : Row) (l : list Row) :
  existsb (Row_eqb r) l = true <-> InA Row_eq r l.
Proof.
  rewrite existsb_exists, InA_alt. unfold Row_eq.
  split; intros (x & H1 & H2); exists x; split; assumption.
Qed.

Lemma existsb_Row_eqb_not_InA (r : Row) (l : list Row) :
  existsb (Row_eqb r) l = false <-> ~ InA Row_eq r l.
Proof.
  rewrite <- existsb_Row_eqb_InA. destruct (existsb (Row_eqb r) l);
    split; intros; congruence.
Qed.

Module DuplicateFacts.
Import DataFrame.

(** What [drop_duplicates] keeps has no two equal rows, and none equal to
    a row seen before. *)
Lemma drop_duplicates_from_NoDupA (df : t) (seen : list Row) :
  NoDupA Row_eq (rows (drop_duplicates_from seen df)) /\
  (forall r, InA Row_eq r (rows (drop_duplicates_from seen df)) ->
             ~ InA Row_eq r seen).
Proof.
  revert seen. induction df as [|[i r] df IH]; intros seen; simpl.
  - split; [constructor|]. intros r H. inversion H.
  - destruct (existsb (Row_eqb r) seen) eqn:E.
    + apply IH.
    + destruct (IH (r :: seen)) as [Hnd Hout]. simpl. split.
      * constructor; [|exact Hnd].
        intros Hin. apply (Hout r Hin). left. reflexivity.
      * intros u Hu Hseen. inversion Hu as [? ? Hur|? ? Hu']; subst.
        -- apply existsb_Row_eqb_not_InA in E. apply E.
           rewrite <- Hur. exact Hseen.
        -- apply (Hout u Hu'). right. exact Hseen.
Qed.

(** Every row of the frame is kept or equals a row seen before. *)
Lemma drop_duplicates_from_InA (df : t) (seen : list Row) (u : Row) :
  InA Row_eq u (rows df) ->
  InA Row_eq u seen \/ InA Row_eq u (rows (drop_duplicates_from seen df)).
Proof.
  revert seen. induction df as [|[i r] df IH]; intros seen H; simpl in *.
  - inversion H.
  - destruct (existsb (Row_eqb r) seen) eqn:E.
    + inversion H as [? ? Hur|? ? Hu']; subst.
      * left. apply existsb_Row_eqb_InA in E. rewrite Hur. exact E.
      * apply IH. exact Hu'.
    + simpl. inversion H as [? ? Hur|? ? Hu']; subst.
      * right. left. exact Hur.
      * destruct (IH (r :: seen) Hu') as [Hs|Hk].
        -- inversion Hs as [? ? Hur|? ? Hs']; subst.
           ++ right. left. exact Hur.
           ++ left. exact Hs'.
        -- right. right. exact Hk.
Qed.

(** Appending a row that is stored already to a frame without
    duplicates, then dropping duplicates, gives back the stored rows,
    labelled from [n] on. *)
Lemma drop_duplicates_from_stored_frame (rs : list Row) (u : Row)
    (seen : list Row) (n : nat) :
  NoDupA Row_eq rs ->
  (forall r, InA Row_eq r rs -> ~ InA Row_eq r seen) ->
  InA Row_eq u (seen ++ rs) ->
  drop_duplicates_from seen (number_from n (rs ++ [u])) = number_from n rs.
Proof.
  revert seen n. induction rs as [|r rs IH]; intros seen n Hnd Hout Hu; simpl.
  - rewrite app_nil_r in Hu. apply existsb_Row_eqb_InA in Hu.
    rewrite Hu. reflexivity.
  - assert (existsb (Row_eqb r) seen = false) as E.
    { apply existsb_Row_eqb_not_InA. apply Hout. left. reflexivity. }
    rewrite E. f_equal.
    inversion Hnd as [|? ? Hr Hnd']; subst.
    apply IH.
    + exact Hnd'.
    + intros v Hv Hseen. inversion Hseen as [? ? Hvr|? ? Hs']; subst.
      * apply Hr. rewrite <- Hvr. exact Hv.
      * apply (Hout v); [right; exact Hv | exact Hs'].
    + apply InA_app_iff in Hu. apply InA_app_iff.
      destruct Hu as [Hs|Hrs].
      * left. right. exact Hs.
      * inversion Hrs as [? ? Hur|? ? Hrs']; subst.
        -- left. left. exact Hur.
        -- right. exact Hrs'.
Qed.

Lemma drop_duplicates_from_stored (rs : list Row) (u : Row)
    (seen : list Row) (n : nat) :
  NoDupA Row_eq rs ->
  (forall r, InA Row_eq r rs -> ~ InA Row_eq r seen) ->
  InA Row_eq u (seen ++ rs) ->
  rows (drop_duplicates_from seen (number_from n (rs ++ [u]))) = rs.
Proof.
  intros Hnd Hout Hu.
  rewrite drop_duplicates_from_stored_frame by assumption.
  apply DataFrameFacts.rows_number_from.
Qed.

(** Appending a row that is not stored to a frame without duplicates:
    dropping duplicates drops nothing. *)
Lemma drop_duplicates_from_new_frame (rs : list Row) (u : Row)
    (seen : list Row) (n : nat) :
  NoDupA Row_eq rs ->
  (forall r, InA Row_eq r rs -> ~ InA Row_eq r seen) ->
  ~ InA Row_eq u (seen ++ rs) ->
  drop_duplicates_from seen (number_from n (rs ++ [u])) =
  number_from n (rs ++ [u]).
Proof.
  revert seen n. induction rs as [|r rs IH]; intros seen n Hnd Hout Hu; simpl.
  - rewrite app_nil_r in Hu. apply existsb_Row_eqb_not_InA in Hu.
    rewrite Hu. reflexivity.
  - assert (existsb (Row_eqb r) seen = false) as E.
    { apply existsb_Row_eqb_not_InA. apply Hout. left. reflexivity. }
    rewrite E. f_equal.
    inversion Hnd as [|? ? Hr Hnd']; subst.
    apply IH.
    + exact Hnd'.
    + intros v Hv Hseen. inversion Hseen as [? ? Hvr|? ? Hs']; subst.
      * apply Hr. rewrite <- Hvr. exact Hv.
      * apply (Hout v); [right; exact Hv | exact Hs'].
    + intros Hin. apply Hu. apply InA_app_iff in Hin. apply InA_app_iff.
      destruct Hin as [Hs|Hrs].
      * inversion Hs as [? ? Hur|? ? Hs']; subst.
        -- right. left. exact Hur.
        -- left. exact Hs'.
      * right. right. exact Hrs.
Qed.

Lemma filter_Row_eqb_none (u : Row) (l : list Row) :
  ~ InA Row_eq u l -> List.filter (Row_eqb u) l = [].
Proof.
  induction l as [|a l IH]; intros H; simpl; [reflexivity|].
  destruct (Row_eqb u a) eqn:E.
  - exfalso. apply H. left. exact E.
  - apply IH. intros Hin. apply H. right. exact Hin.
Qed.

(** A row stored in a frame without duplicates is stored once. *)
Lemma count_one (u : Row) (l : list Row) :
  NoDupA Row_eq l -> InA Row_eq u l ->
  length (List.filter (Row_eqb u) l) = 1.
Proof.
  induction 1 as [|a l Ha Hnd IH]; intros Hu.
  - inversion Hu.
  - simpl. destruct (Row_eqb u a) eqn:E.
    + rewrite filter_Row_eqb_none; [reflexivity|].
      intros Hin. apply Ha. change (Row_eq u a) in E.
      rewrite <- E. exact Hin.
    + inversion Hu as [? ? Hua|? ? Hu']; subst.
      * unfold Row_eq in Hua. congruence.
      * apply IH. exact Hu'.
Qed.

(** The rows after [add_interval]: no duplicates, and the row added, as
    [append] stored it, is among them. *)
Lemma add_interval_rows (pd : Pandas) (Well_intervals : t) (self : Well)
    (u : Row) :
  let df := sort_values_by_Top pd
              (drop_duplicates (append pd (intervals Well_intervals self) u))
  in
  NoDupA Row_eq (rows df) /\
  InA Row_eq (stored pd (intervals Well_intervals self) u) (rows df).
Proof.
  intros df.
  assert (Permutation
            (rows (drop_duplicates
                     (append pd (intervals Well_intervals self) u)))
            (rows df)) as HP.
  { symmetry. apply Permutation_map, (DataFrame.sort_values_permutes pd). }
  apply (Permutation_PermutationA Row_eq_Equivalence) in HP.
  split.
  - apply (PermutationA_preserves_NoDupA Row_eq_Equivalence HP).
    apply drop_duplicates_from_NoDupA.
  - apply (PermutationA_equivlistA Row_eq_Equivalence HP _).
    destruct (drop_duplicates_from_InA
                (append pd (intervals Well_intervals self) u) []
                (stored pd (intervals Well_intervals self) u)) as [H|H].
    + rewrite DataFrameFacts.rows_append. apply InA_app_iff.
      right. left. reflexivity.
    + inversion H.
    + exact H.
Qed.

(** A record the columns hold as passed is appended as it is. *)
Lemma append_kept (pd : Pandas) (df : t) (u : Row) :
  kept pd u -> append pd df u = number_from 0 (rows df ++ [u]).
Proof. intros H. unfold append. rewrite (H df). reflexivity. Qed.

End DuplicateFacts.

(** ** Rows of different Top *)

#[local] Instance Top_eq_Equivalence : Equivalence Top_eq.
Proof.
  unfold Top_eq. split.
  - intros r. reflexivity.
  - intros r s H. symmetry. exact H.
  - intros r s u H1 H2. rewrite H1. exact H2.
Qed.

Lemma Row_eq_Top_eq (r s : Row) : Row_eq r s -> Top_eq r s.
Proof. intros H. apply Row_eqb_fields in H. apply H. Qed.

Lemma InA_Row_eq_Top_eq (r : Row) (l : list Row) :
  InA Row_eq r l -> InA Top_eq r l.
Proof.
  induction 1 as [s l H|s l H IH]; [left; apply Row_eq_Top_eq; exact H|].
  right. exact IH.
Qed.

Lemma NoDupA_Top_eq_Row_eq (l : list Row) :
  NoDupA Top_eq l -> NoDupA Row_eq l.
Proof.
  induction 1 as [|r l Hr Hnd IH]; constructor; [|exact IH].
  intros H. apply Hr, InA_Row_eq_Top_eq, H.
Qed.

Lemma sorted_by_Top_rows (df : DataFrame.t) :
  sorted_by_Top df -> rows_sorted (DataFrame.rows df).
Proof.
  induction 1 as [|x df Hs IH Hx]; simpl; constructor; [exact IH|].
  rewrite List.Forall_forall in *. intros r Hr.
  apply in_map_iff in Hr. destruct Hr as (y & <- & Hy). apply (Hx y Hy).
Qed.

(** Two sorted lists of rows with the same rows, no two of which start
    at the same depth, are the same list. *)
Lemma rows_sorted_unique (l1 l2 : list Row) :
  rows_sorted l1 -> rows_sorted l2 -> Permutation l1 l2 ->
  NoDupA Top_eq l1 -> l1 = l2.
Proof.
  revert l2. induction l1 as [|a t1 IH]; intros l2 H1 H2 HP Hnd.
  - apply Permutation_nil in HP. symmetry. exact HP.
  - destruct l2 as [|b t2].
    { apply Permutation_sym, Permutation_nil in HP. discriminate. }
    inversion H1 as [|? ? Hs1 Ha]; subst.
    inversion H2 as [|? ? Hs2 Hb]; subst.
    inversion Hnd as [|? ? Hna Hnd']; subst.
    rewrite List.Forall_forall in Ha, Hb.
    assert (a = b) as ->.
    { assert (In a (b :: t2)) as Ha2
        by (apply (Permutation_in _ HP); left; reflexivity).
      assert (In b (a :: t1)) as Hb1
        by (apply (Permutation_in _ (Permutation_sym HP)); left;
            reflexivity).
      destruct Ha2 as [->|Ha2]; [reflexivity|].
      destruct Hb1 as [->|Hb1]; [reflexivity|].
      exfalso. apply Hna. apply InA_alt. exists b. split; [|exact Hb1].
      unfold Top_eq. apply Qle_antisym; [apply Ha, Hb1 | apply Hb, Ha2]. }
    f_equal. apply IH; try assumption.
    apply (Permutation_cons_inv HP).
Qed.

Lemma rows_sorted_number_from (n : nat) (rs : list Row) :
  rows_sorted rs -> sorted_by_Top (DataFrame.number_from n rs).
Proof.
  intros H. revert n. induction H as [|r rs Hs IH Hr]; intros n; simpl.
  - constructor.
  - constructor; [apply IH|].
    rewrite List.Forall_forall in *. intros x Hx.
    apply Hr. rewrite <- (DataFrameFacts.rows_number_from (S n) rs).
    apply in_map. exact Hx.
Qed.

(** Two sorted frames with the same labelled rows, no two of which start
    at the same depth, are the same frame. *)
Lemma sorted_by_Top_unique (d1 d2 : DataFrame.t) :
  sorted_by_Top d1 -> sorted_by_Top d2 -> Permutation d1 d2 ->
  NoDupA Top_eq (DataFrame.rows d1) -> d1 = d2.
Proof.
  revert d2. induction d1 as [|a t1 IH]; intros d2 H1 H2 HP Hnd.
  - apply Permutation_nil in HP. symmetry. exact HP.
  - destruct d2 as [|b t2].
    { apply Permutation_sym, Permutation_nil in HP. discriminate. }
    inversion H1 as [|? ? Hs1 Ha]; subst.
    inversion H2 as [|? ? Hs2 Hb]; subst.
    simpl in Hnd. inversion Hnd as [|? ? Hna Hnd']; subst.
    rewrite List.Forall_forall in Ha, Hb.
    assert (a = b) as ->.
    { assert (In a (b :: t2)) as Ha2
        by (apply (Permutation_in _ HP); left; reflexivity).
      assert (In b (a :: t1)) as Hb1
        by (apply (Permutation_in _ (Permutation_sym HP)); left;
            reflexivity).
      destruct Ha2 as [->|Ha2]; [reflexivity|].
      destruct Hb1 as [->|Hb1]; [reflexivity|].
      exfalso. apply Hna. apply InA_alt. exists (snd b).
      split; [|apply in_map; exact Hb1].
      unfold Top_eq. apply Qle_antisym; [apply Ha, Hb1 | apply Hb, Ha2]. }
    f_equal. apply IH; try assumption.
    apply (Permutation_cons_inv HP).
Qed.

(** ** Adding the same record twice *)

(** C6 as the code has it. For a record whose Top and Bottom the columns
    hold as passed, adding it twice to any well leaves exactly one stored
    record equal to it, after the first call and after the second. The
    second call keeps the same records; when no two of them have the
    same Top it keeps their order too, and relabels them 0, 1, 2, ... in
    that order. *)
Theorem add_interval_twice (pd : DataFrame.Pandas)
    (Well_intervals : DataFrame.t) (self : Well)
    (top bottom : Q) (lithology description : string) :
  let u := mkRow lithology top bottom description in
  let w1 :=
    add_interval pd Well_intervals self top bottom lithology description in
  let w2 :=
    add_interval pd Well_intervals w1 top bottom lithology description in
  kept pd u ->
  count_rows u (intervals Well_intervals w1) = 1 /\
  count_rows u (intervals Well_intervals w2) = 1 /\
  Permutation (DataFrame.rows (intervals Well_intervals w2))
    (DataFrame.rows (intervals Well_intervals w1)) /\
  (NoDupA Top_eq (DataFrame.rows (intervals Well_intervals w1)) ->
   intervals Well_intervals w2 =
     DataFrame.number_from 0 (DataFrame.rows (intervals Well_intervals w1))).
Proof.
  intros u w1 w2 Hu.
  assert (intervals Well_intervals w1 =
          DataFrame.sort_values_by_Top pd
            (DataFrame.drop_duplicates
               (DataFrame.append pd (intervals Well_intervals self) u)))
    as E1 by reflexivity.
  destruct (DuplicateFacts.add_interval_rows pd Well_intervals self u)
    as [Hnd Hin].
  rewrite <- E1 in Hnd, Hin. rewrite (Hu _) in Hin.
  assert (intervals Well_intervals w2 =
          DataFrame.sort_values_by_Top pd
            (DataFrame.number_from 0
               (DataFrame.rows (intervals Well_intervals w1)))) as E2.
  { change (intervals Well_intervals w2) with
      (DataFrame.sort_values_by_Top pd
         (DataFrame.drop_duplicates
            (DataFrame.append pd (intervals Well_intervals w1) u))).
    f_equal. rewrite (DuplicateFacts.append_kept pd _ u Hu).
    unfold DataFrame.drop_duplicates.
    apply DuplicateFacts.drop_duplicates_from_stored_frame.
    - exact Hnd.
    - intros r _ H. inversion H.
    - exact Hin. }
  assert (Permutation (DataFrame.rows (intervals Well_intervals w2))
            (DataFrame.rows (intervals Well_intervals w1))) as HP.
  { rewrite E2.
    rewrite (Permutation_map snd (DataFrame.sort_values_permutes pd _)).
    fold (DataFrame.rows
            (DataFrame.number_from 0
               (DataFrame.rows (intervals Well_intervals w1)))).
    rewrite DataFrameFacts.rows_number_from. reflexivity. }
  pose proof (Permutation_PermutationA Row_eq_Equivalence
                (Permutation_sym HP)) as HPA.
  split; [|split; [|split]].
  - apply DuplicateFacts.count_one; assumption.
  - apply DuplicateFacts.count_one.
    + apply (PermutationA_preserves_NoDupA Row_eq_Equivalence HPA Hnd).
    + apply (PermutationA_equivlistA Row_eq_Equivalence HPA u). exact Hin.
  - exact HP.
  - intros Htop. rewrite E2. symmetry. apply sorted_by_Top_unique.
    + apply rows_sorted_number_from, sorted_by_Top_rows. rewrite E1.
      apply DataFrameFacts.sort_values_sorted.
    + apply DataFrameFacts.sort_values_sorted.
    + symmetry. apply (DataFrame.sort_values_permutes pd).
    + rewrite DataFrameFacts.rows_number_from. exact Htop.
Qed.

(** Clay 0-2 added twice to the well that holds Till 2-5. *)
Lemma add_interval_twice_witness :
  let u := mkRow "Clay" 0 2 no_desc in
  let w1 := well_Clay_Till in
  let w2 := add_interval pandas16 DataFrame.empty w1 0 2 "Clay" no_desc in
  kept pandas16 u /\
  count_rows u (intervals DataFrame.empty w1) = 1 /\
  count_rows u (intervals DataFrame.empty w2) = 1 /\
  Permutation (DataFrame.rows (intervals DataFrame.empty w2))
    (DataFrame.rows (intervals DataFrame.empty w1)) /\
  (NoDupA Top_eq (DataFrame.rows (intervals DataFrame.empty w1)) ->
   intervals DataFrame.empty w2 =
     DataFrame.number_from 0
       (DataFrame.rows (intervals DataFrame.empty w1))).
Proof.
  intros u w1 w2.
  assert (kept pandas16 u) as Hu by (intros df; reflexivity).
  split; [exact Hu|].
  exact (add_interval_twice pandas16 DataFrame.empty
           (add_interval pandas16 DataFrame.empty Well_default 2 5 "Till"
              no_desc)
           0 2 "Clay" no_desc Hu).
Defined.

(** C6 as the specification words it fails: the second identical call
    is no no-op on the table. After Till 2-5 and Clay 0-2 the rows Clay,
    Till carry the labels 1, 0; adding Clay 0-2 again relabels them 0, 1,
    and [remove_interval(layNum=0)], which removed Till before, now
    removes Clay. *)
Lemma add_interval_again_relabels :
  intervals DataFrame.empty well_Clay_Till =
    [(1, mkRow "Clay" 0 2 no_desc); (0, mkRow "Till" 2 5 no_desc)] /\
  intervals DataFrame.empty
    (add_interval pandas16 DataFrame.empty well_Clay_Till 0 2 "Clay" no_desc)
    = [(0, mkRow "Clay" 0 2 no_desc); (1, mkRow "Till" 2 5 no_desc)] /\
  (exists w,
     remove_interval DataFrame.empty well_Clay_Till (Some 0%Z) None = Ok w /\
     DataFrame.rows (intervals DataFrame.empty w) =
       [mkRow "Clay" 0 2 no_desc]) /\
  (exists w,
     remove_interval DataFrame.empty
       (add_interval pandas16 DataFrame.empty well_Clay_Till 0 2 "Clay"
          no_desc) (Some 0%Z) None = Ok w /\
     DataFrame.rows (intervals DataFrame.empty w) =
       [mkRow "Till" 2 5 no_desc]).
Proof.
  split; [reflexivity|]. split; [reflexivity|].
  split; eexists; split; reflexivity.
Qed.

(** ** The labels add_interval leaves *)

Lemma length_number_from (n : nat) (rs : list Row) :
  length (DataFrame.number_from n rs) = length rs.
Proof.
  rewrite <- (length_map fst). fold (DataFrame.index (DataFrame.number_from n rs)).
  rewrite DataFrameFacts.index_number_from. apply length_seq.
Qed.



(** The stored rows are pairwise different after [add_interval], and
    [remove_interval] keeps them so. *)
Lemma add_interval_NoDupA (pd : DataFrame.Pandas)
    (Well_intervals : DataFrame.t) (self : Well)
    (top bottom : Q) (lithology description : string) :
  NoDupA Row_eq
    (DataFrame.rows
       (intervals Well_intervals
          (add_interval pd Well_intervals self top bottom lithology
             description))).
Proof.
  rewrite intervals_add_interval.
  apply (DuplicateFacts.add_interval_rows pd Well_intervals self).
Qed.

Lemma filter_rows_NoDupA (f : nat * Row -> bool) (df : DataFrame.t) :
  NoDupA Row_eq (DataFrame.rows df) ->
  NoDupA Row_eq (DataFrame.rows (List.filter f df)).
Proof.
  induction df as [|x df IH]; simpl; intros H; [constructor|].
  inversion H as [|? ? Hx Hnd]; subst.
  destruct (f x); simpl; [|apply IH; exact Hnd].
  constructor; [|apply IH; exact Hnd].
  intros Hin. apply Hx. apply InA_alt in Hin. apply InA_alt.
  destruct Hin as (y & Hy & Hin). exists y. split; [exact Hy|].
  apply in_map_iff in Hin. destruct Hin as (z & Hz & Hin).
  apply filter_In in Hin. apply in_map_iff. exists z. tauto.
Qed.

Lemma remove_interval_NoDupA (Well_intervals : DataFrame.t)
    (self self' : Well) (layNum : option Z) (lithology : option string) :
  NoDupA Row_eq (DataFrame.rows (intervals Well_intervals self)) ->
  remove_interval Well_intervals self layNum lithology = Ok self' ->
  NoDupA Row_eq (DataFrame.rows (intervals Well_intervals self')).
Proof.
  intros Hnd. unfold remove_interval, DataFrame.drop.
  destruct layNum as [k|], lithology as [L|]; try discriminate;
    try destruct (existsb _ _); try discriminate;
    intros H; injection H as <-; rewrite intervals_set_intervals;
    unfold DataFrame.where_Lithology_ne;
    repeat apply filter_rows_NoDupA; exact Hnd.
Qed.

(** ** plotWell on an empty well *)

(** C10. [plotWell] on a well with no interval raises the IndexError of
    [self.intervals.iloc[0]] and leaves the plotting state as it found
    it: no figure made, nothing drawn, saved or shown. *)
Theorem plotWell_empty_raises (Well_intervals : DataFrame.t)
    (savefig_error : string -> option exn) (self : Well)
    (description hatch legend : bool) (figTitle : option string)
    (save : bool) (p : Plt) :
  intervals Well_intervals self = [] ->
  plotWell Well_intervals savefig_error self description hatch legend
    figTitle save p =
    (p, Raise (IndexError "single positional indexer is out-of-bounds")).
Proof.
  intros H. unfold plotWell, bind, lift. rewrite H. reflexivity.
Qed.

Lemma plotWell_empty_raises_witness :
  intervals DataFrame.empty Well_default = [] /\
  plotWell DataFrame.empty Agg_format_error Well_default true true false
    None true plt0 =
    (plt0, Raise (IndexError "single positional indexer is out-of-bounds")).
Proof.
  split; [reflexivity|].
  apply (plotWell_empty_raises DataFrame.empty Agg_format_error Well_default).
  reflexivity.
Defined.

(** ** plotSection *)

Lemma extends_refl (p : Plt) : extends p p.
Proof. repeat split. apply incl_refl. Qed.

Lemma extends_trans (p q r : Plt) : extends p q -> extends q r -> extends p r.
Proof.
  intros (a & b & c) (a' & b' & c'). repeat split.
  - eapply incl_tran; eassumption.
  - congruence.
  - congruence.
Qed.

Lemma extends_add_patch (p : Plt) (pa : Patch) : extends p (add_patch p pa).
Proof. repeat split. simpl. apply incl_appl, incl_refl. Qed.

Lemma extends_add_text (p : Plt) (tx : Text) : extends p (add_text p tx).
Proof. repeat split. apply incl_refl. Qed.

(** A loop extends the state when each turn does, whether or not it
    raises. *)
Lemma for_each_extends {A S} (body : S -> A -> M S) :
  (forall s x p, extends p (fst (body s x p))) ->
  forall xs s p, extends p (fst (for_each xs body s p)).
Proof.
  intros Hbody xs. induction xs as [|x xs IH]; intros s p; simpl.
  - apply extends_refl.
  - unfold bind. specialize (Hbody s x p).
    destruct (body s x p) as [p1 [s1|e]]; simpl in *.
    + eapply extends_trans; [exact Hbody | apply IH].
    + exact Hbody.
Qed.

Lemma bind_Ok {A B} (m : M A) (k : A -> M B) (p p1 : Plt) (a : A) :
  m p = (p1, Ok a) -> bind m k p = k a p1.
Proof. intros H. unfold bind. rewrite H. reflexivity. Qed.

Lemma bind_Raise {A B} (m : M A) (k : A -> M B) (p p1 : Plt) (e : exn) :
  m p = (p1, Raise e) -> bind m k p = (p1, Raise e).
Proof. intros H. unfold bind. rewrite H. reflexivity. Qed.

Lemma keeps_drawing_ret : keeps_drawing (ret tt).
Proof. intros p. exists p. repeat split. Qed.

Lemma keeps_drawing_bind (m k : M unit) :
  keeps_drawing m -> keeps_drawing k -> keeps_drawing (m ;;; k).
Proof.
  intros Hm Hk p. destruct (Hm p) as (p1 & E1 & a1 & b1).
  destruct (Hk p1) as (p2 & E2 & a2 & b2). exists p2.
  rewrite (bind_Ok _ _ _ _ _ E1). repeat split; congruence.
Qed.

Lemma keeps_drawing_if (b : bool) (m k : M unit) :
  keeps_drawing m -> keeps_drawing k -> keeps_drawing (if b then m else k).
Proof. destruct b; auto. Qed.

Lemma keeps_drawing_cosmetics (f : Axes -> Axes) :
  (forall a, patches (f a) = patches a /\ texts (f a) = texts a) ->
  keeps_drawing (modify_ax f).
Proof.
  intros Hf p. eexists. split; [reflexivity|]. simpl. apply Hf.
Qed.

Lemma keeps_drawing_savefig (savefig_error : string -> option exn)
    (fname : string) (dpi : Z) :
  savefig_error fname = None ->
  keeps_drawing (plt.savefig savefig_error fname dpi).
Proof.
  intros E p. unfold plt.savefig. rewrite E. eexists. repeat split.
Qed.

Lemma keeps_drawing_show : keeps_drawing plt.show.
Proof. intros p. eexists. repeat split. Qed.

Ltac keeps_drawing_tac :=
  repeat first
    [ apply keeps_drawing_bind
    | apply keeps_drawing_if
    | apply keeps_drawing_ret
    | (apply keeps_drawing_savefig; assumption)
    | apply keeps_drawing_show
    | (apply keeps_drawing_cosmetics; intros a; split; reflexivity) ].

(** The closing steps of the renderers cannot raise when [savefig], if
    called, takes the file name. *)
Lemma plotSection_finish_keeps (savefig_error : string -> option exn)
    (grid save : bool) (title : string) (north elev : bool) :
  savefig_accepts savefig_error save (replace_spaces title) ->
  keeps_drawing (plotSection_finish savefig_error grid save title north elev).
Proof.
  unfold savefig_accepts, plotSection_finish. intros H.
  destruct save; [specialize (H eq_refl)|]; keeps_drawing_tac.
Qed.

Lemma plotWell_finish_keeps (savefig_error : string -> option exn)
    (self : Well) (top bttm : Q) (legend save : bool) :
  savefig_accepts savefig_error save (replace_spaces (name self)) ->
  keeps_drawing (plotWell_finish savefig_error self top bttm legend save).
Proof.
  unfold savefig_accepts, plotWell_finish. intros H.
  destruct save; [specialize (H eq_refl)|]; keeps_drawing_tac.
Qed.

(** Whatever [savefig] does, the closing steps draw nothing. *)
Lemma draws_nothing_bind (m k : M unit) :
  draws_nothing m -> draws_nothing k -> draws_nothing (m ;;; k).
Proof.
  intros Hm Hk p. unfold bind. specialize (Hm p).
  destruct (m p) as [p1 [[]|e]]; simpl in *; [|exact Hm].
  destruct (Hk p1) as [a b]. destruct Hm as [a' b']. split; congruence.
Qed.

Lemma draws_nothing_keeps (m : M unit) : keeps_drawing m -> draws_nothing m.
Proof.
  intros H p. destruct (H p) as (p' & E & a & b). rewrite E. split; assumption.
Qed.

Lemma draws_nothing_savefig (savefig_error : string -> option exn)
    (fname : string) (dpi : Z) :
  draws_nothing (plt.savefig savefig_error fname dpi).
Proof.
  intros p. unfold plt.savefig. destruct (savefig_error fname); split;
    reflexivity.
Qed.

Ltac draws_nothing_tac :=
  repeat first
    [ apply draws_nothing_bind
    | apply draws_nothing_savefig
    | (apply draws_nothing_keeps; keeps_drawing_tac; fail)
    | match goal with
      | |- draws_nothing (if ?b then _ else _) => destruct b
      end ].

Lemma plotSection_finish_draws_nothing
    (savefig_error : string -> option exn) (grid save : bool)
    (title : string) (north elev : bool) :
  draws_nothing (plotSection_finish savefig_error grid save title north elev).
Proof. unfold plotSection_finish. draws_nothing_tac. Qed.

Lemma plotWell_finish_draws_nothing (savefig_error : string -> option exn)
    (self : Well) (top bttm : Q) (legend save : bool) :
  draws_nothing (plotWell_finish savefig_error self top bttm legend save).
Proof. unfold plotWell_finish. draws_nothing_tac. Qed.

(** The closing steps raise only what [savefig] raises, and then nothing
    has been saved or shown. *)
Lemma plotSection_finish_raise (savefig_error : string -> option exn)
    (grid save : bool) (title : string) (north elev : bool)
    (p p' : Plt) (e : exn) :
  plotSection_finish savefig_error grid save title north elev p =
    (p', Raise e) ->
  save = true /\ savefig_error (replace_spaces title) = Some e /\
  saved p' = saved p /\ shown p' = shown p.
Proof.
  unfold plotSection_finish, bind, plt.savefig, plt.show.
  destruct grid, north, elev, save; simpl; try discriminate;
    destruct (savefig_error (replace_spaces title)) as [e0|];
    try discriminate; intros H; injection H as <- <-;
    repeat split; reflexivity.
Qed.

(** Whether the closing steps raise is decided by [save] and [title]
    alone. *)
Lemma plotSection_finish_result (savefig_error : string -> option exn)
    (grid save : bool) (title : string) (north elev grid' north' elev' : bool)
    (p : Plt) :
  snd (plotSection_finish savefig_error grid save title north elev p) =
  snd (plotSection_finish savefig_error grid' save title north' elev' p).
Proof.
  unfold plotSection_finish, bind, plt.savefig, plt.show.
  destruct grid, save, north, elev, grid', north', elev'; simpl;
    try destruct (savefig_error (replace_spaces title)); reflexivity.
Qed.

Lemma plotWell_finish_raise (savefig_error : string -> option exn)
    (self : Well) (top bttm : Q) (legend save : bool)
    (p p' : Plt) (e : exn) :
  plotWell_finish savefig_error self top bttm legend save p =
    (p', Raise e) ->
  save = true /\ savefig_error (replace_spaces (name self)) = Some e /\
  saved p' = saved p /\ shown p' = shown p.
Proof.
  unfold plotWell_finish, bind, plt.savefig, plt.show.
  destruct legend, save; simpl; try discriminate;
    destruct (savefig_error (replace_spaces (name self))) as [e0|];
    try discriminate; intros H; injection H as <- <-;
    repeat split; reflexivity.
Qed.

Section SectionFacts.

Variable Well_intervals : DataFrame.t.
Variables (w : Well) (width : Q).

Lemma plotSection_body_ok (xx : option Q) (i : nat) (x : nat * Row)
    (st : Style) (p : Plt) :
  nth_error (intervals Well_intervals w) i = Some x ->
  plotTemplates !! Lithology (snd x) = Some st ->
  plotSection_body Well_intervals w width xx i p =
    (add_patch p (section_patch w width (snd x) st), Ok (Some (xcoord w))).
Proof.
  intros Hi Hst.
  unfold plotSection_body, bind, lift, DataFrame.iloc, plotTemplates_getitem.
  rewrite Hi, Hst. reflexivity.
Qed.

Lemma plotSection_body_extends (xx : option Q) (i : nat) (p : Plt) :
  extends p (fst (plotSection_body Well_intervals w width xx i p)).
Proof.
  unfold plotSection_body, bind, lift, DataFrame.iloc, plotTemplates_getitem.
  destruct (nth_error (intervals Well_intervals w) i) as [x|]; simpl;
    [|apply extends_refl].
  destruct (plotTemplates !! Lithology (snd x)) as [st|]; simpl;
    [|apply extends_refl].
  apply (extends_add_patch p (section_patch w width (snd x) st)).
Qed.

(** The inner loop over labels that are all positions of rows with a
    known lithology: it completes, draws the rectangle of each row it
    visits, and leaves [xx] assigned when it made a turn. *)
Lemma plotSection_inner_ok (ls : list nat) :
  (forall i, In i ls ->
     exists x st, nth_error (intervals Well_intervals w) i = Some x /\
                  plotTemplates !! Lithology (snd x) = Some st) ->
  forall (xx : option Q) (p : Plt),
  exists p',
    for_each ls (plotSection_body Well_intervals w width) xx p =
      (p', Ok (match ls with [] => xx | _ => Some (xcoord w) end)) /\
    extends p p' /\
    texts (ax p') = texts (ax p) /\
    (forall i x st,
       In i ls -> nth_error (intervals Well_intervals w) i = Some x ->
       plotTemplates !! Lithology (snd x) = Some st ->
       In (section_patch w width (snd x) st) (patches (ax p'))).
Proof.
  induction ls as [|i ls IH]; intros Hls xx p.
  - exists p. simpl. repeat split; try apply incl_refl.
    intros i x st [].
  - destruct (Hls i (or_introl eq_refl)) as (x & st & Hx & Hst).
    simpl for_each. unfold bind.
    rewrite (plotSection_body_ok xx i x st p Hx Hst).
    destruct (IH (fun j Hj => Hls j (or_intror Hj)) (Some (xcoord w))
                (add_patch p (section_patch w width (snd x) st)))
      as (p' & Hrun & Hext & Htx & Hin).
    exists p'. split; [|split; [|split]].
    + rewrite Hrun. destruct ls; reflexivity.
    + eapply extends_trans; [apply extends_add_patch | exact Hext].
    + rewrite Htx. reflexivity.
    + intros j y st' [<-|Hj] Hy Hst'.
      * rewrite Hx in Hy. injection Hy as <-.
        rewrite Hst in Hst'. injection Hst' as <-.
        apply Hext. simpl. apply in_or_app. right. left. reflexivity.
      * apply (Hin j y st' Hj Hy Hst').
Qed.

End SectionFacts.

Section SectionLoop.

Variable Well_intervals : DataFrame.t.
Variables (width wellLabelHeight : Q).

Lemma renderable_labels (w : Well) :
  renderable Well_intervals w ->
  forall i, In i (DataFrame.index (intervals Well_intervals w)) ->
    exists x st, nth_error (intervals Well_intervals w) i = Some x /\
                 plotTemplates !! Lithology (snd x) = Some st.
Proof.
  intros [Hperm Hknown] i Hi.
  apply (Permutation_in _ Hperm) in Hi. apply in_seq in Hi.
  destruct (nth_error (intervals Well_intervals w) i) as [x|] eqn:E.
  - rewrite List.Forall_forall in Hknown.
    destruct (Hknown x (nth_error_In _ _ E)) as [st Hst].
    exists x, st. split; [reflexivity | exact Hst].
  - apply nth_error_None in E. lia.
Qed.

Lemma renderable_positions (w : Well) (x : nat * Row) :
  renderable Well_intervals w ->
  In x (intervals Well_intervals w) ->
  exists j, In j (DataFrame.index (intervals Well_intervals w)) /\
            nth_error (intervals Well_intervals w) j = Some x.
Proof.
  intros [Hperm _] Hx.
  destruct (In_nth_error _ _ Hx) as [j Hj]. exists j. split; [|exact Hj].
  apply (Permutation_in _ (Permutation_sym Hperm)). apply in_seq.
  assert (j < length (intervals Well_intervals w))
    by (apply nth_error_Some; congruence).
  lia.
Qed.

Lemma plotSection_well_extends (xx : option Q) (w : Well) (p : Plt) :
  extends p
    (fst (plotSection_well Well_intervals width wellLabelHeight xx w p)).
Proof.
  unfold plotSection_well, bind.
  pose proof (for_each_extends
                (plotSection_body Well_intervals w width)
                (plotSection_body_extends Well_intervals w width)
                (DataFrame.index (intervals Well_intervals w)) xx p) as H.
  destruct (for_each _ _ xx p) as [p1 [[v|]|e]]; simpl in *; exact H.
Qed.

(** One turn on a renderable well, entered with [xx] assigned or on a
    well that has an interval: it completes with [xx] assigned, and the
    rectangle of every row of the well is on the axes. *)
Lemma plotSection_well_ok (w : Well) (xx : option Q) (p : Plt) :
  renderable Well_intervals w ->
  xx <> None \/ intervals Well_intervals w <> [] ->
  exists p' v,
    plotSection_well Well_intervals width wellLabelHeight xx w p =
      (p', Ok (Some v)) /\
    extends p p' /\
    (forall x, In x (intervals Well_intervals w) ->
       exists st, plotTemplates !! Lithology (snd x) = Some st /\
                  In (section_patch w width (snd x) st) (patches (ax p'))).
Proof.
  intros Hw Hstart.
  destruct (plotSection_inner_ok Well_intervals w width
              (DataFrame.index (intervals Well_intervals w))
              (renderable_labels w Hw) xx p)
    as (p1 & Hrun & Hext & Htx & Hin).
  assert (exists v,
            match DataFrame.index (intervals Well_intervals w) with
            | [] => xx
            | _ :: _ => Some (xcoord w)
            end = Some v) as [v Hv].
  { destruct (intervals Well_intervals w) as [|y df] eqn:E; simpl.
    - destruct Hstart as [Hxx|Hne]; [|elim Hne; reflexivity].
      destruct xx as [v|]; [exists v; reflexivity | congruence].
    - eexists. reflexivity. }
  rewrite Hv in Hrun.
  exists (add_text p1
            (mkText (v + width * (1 # 2))%Q
               (elevation w + wellLabelHeight)%Q (name w) 90)), v.
  split; [|split].
  - unfold plotSection_well. rewrite (bind_Ok _ _ _ _ _ Hrun). reflexivity.
  - eapply extends_trans; [exact Hext | apply extends_add_text].
  - intros x Hx.
    destruct (renderable_positions w x Hw Hx) as (j & Hj & Hnth).
    destruct (renderable_labels w Hw j Hj) as (y & st & Hy & Hst).
    rewrite Hnth in Hy. injection Hy as <-.
    exists st. split; [exact Hst|]. simpl.
    apply (Hin j x st Hj Hnth Hst).
Qed.

(** The loop over renderable wells, entered with [xx] assigned or with a
    first well that has an interval: it completes and the rectangle of
    every row of every well is on the axes. *)
Lemma plotSection_wells_ok (wells : list Well) :
  Forall (renderable Well_intervals) wells ->
  forall (xx : option Q) (p : Plt),
  xx <> None \/ first_well_nonempty Well_intervals wells ->
  exists p' xx',
    for_each wells (plotSection_well Well_intervals width wellLabelHeight)
      xx p = (p', Ok xx') /\
    extends p p' /\
    (forall w x, In w wells -> In x (intervals Well_intervals w) ->
       exists st, plotTemplates !! Lithology (snd x) = Some st /\
                  In (section_patch w width (snd x) st) (patches (ax p'))).
Proof.
  induction 1 as [|w wells Hw Hws IH]; intros xx p Hstart.
  - exists p, xx. simpl. repeat split; try apply incl_refl.
    intros w x [].
  - destruct (plotSection_well_ok w xx p Hw Hstart)
      as (p1 & v & Hrun & Hext & Hin).
    destruct (IH (Some v) p1 (or_introl (Some_ne_None v)))
      as (p' & xx' & Hrest & Hext' & Hin').
    exists p', xx'. split; [|split].
    + simpl for_each. rewrite (bind_Ok _ _ _ _ _ Hrun). exact Hrest.
    + eapply extends_trans; [exact Hext | exact Hext'].
    + intros w' x [<-|Hw'] Hx.
      * destruct (Hin x Hx) as (st & Hst & Hpa).
        exists st. split; [exact Hst|]. apply Hext'. exact Hpa.
      * apply (Hin' w' x Hw' Hx).
Qed.

End SectionLoop.

(** C1 as the code has it. For wells that are [renderable] (labels
    0 .. n-1 in some order, every lithology a key of the style table),
    the first of which has an interval, and, when [save] is set, a title
    whose file name [savefig] takes, [plotSection] completes, and for
    every well of elevation E and every stored interval with Top T and
    Bottom B the axes hold a rectangle with corners at heights
    E - T, E - B, E - B, E - T between x and x + width. *)
Theorem plotSection_elevation_span (Well_intervals : DataFrame.t)
    (savefig_error : string -> option exn)
    (wells : list Well) (width : Q) (grid save : bool) (title : string)
    (north elev : bool) (wellLabelHeight : Q) (p : Plt) :
  Forall (renderable Well_intervals) wells ->
  first_well_nonempty Well_intervals wells ->
  savefig_accepts savefig_error save (replace_spaces title) ->
  exists p',
    plotSection Well_intervals savefig_error wells width grid save title
      north elev wellLabelHeight p = (p', Ok tt) /\
    forall w i r,
      In w wells -> In (i, r) (intervals Well_intervals w) ->
      exists pa,
        In pa (patches (ax p')) /\
        patch_y pa = [elevation w - Top r; elevation w - Bottom r;
                      elevation w - Bottom r; elevation w - Top r]%Q /\
        patch_x pa = [xcoord w; xcoord w; xcoord w + width;
                      xcoord w + width]%Q /\
        patch_label pa = Lithology r.
Proof.
  intros Hr Hfirst Hsave.
  destruct (plotSection_wells_ok Well_intervals width wellLabelHeight wells
              Hr None (fst (plt.subplots p)) (or_intror Hfirst))
    as (p1 & xx' & Hrun & Hext & Hin).
  assert (forall w i r,
            In w wells -> In (i, r) (intervals Well_intervals w) ->
            exists pa,
              In pa (patches (ax p1)) /\
              patch_y pa = [elevation w - Top r; elevation w - Bottom r;
                            elevation w - Bottom r; elevation w - Top r]%Q /\
              patch_x pa = [xcoord w; xcoord w; xcoord w + width;
                            xcoord w + width]%Q /\
              patch_label pa = Lithology r) as Hdrawn.
  { intros w i r Hw Hx. destruct (Hin w (i, r) Hw Hx) as (st & Hst & Hpa).
    exists (section_patch w width r st). repeat split. exact Hpa. }
  destruct (plotSection_finish_keeps savefig_error grid save title north
              elev Hsave p1)
    as (p' & Hfin & Hpa & _).
  exists p'. split.
  - unfold plotSection.
    rewrite (bind_Ok _ _ _ _ _ (eq_refl : plt.subplots p = (_, Ok tt))).
    rewrite (bind_Ok _ _ _ _ _ Hrun). exact Hfin.
  - rewrite Hpa. exact Hdrawn.
Qed.

Lemma plotSection_elevation_span_witness :
  Forall (renderable DataFrame.empty) [well_100; well_Clay_Till] /\
  first_well_nonempty DataFrame.empty [well_100; well_Clay_Till] /\
  savefig_accepts Agg_format_error true (replace_spaces "Cross section") /\
  exists p',
    plotSection DataFrame.empty Agg_format_error [well_100; well_Clay_Till]
      5 true true "Cross section" false true (3 # 2) plt0 = (p', Ok tt) /\
    forall w i r,
      In w [well_100; well_Clay_Till] ->
      In (i, r) (intervals DataFrame.empty w) ->
      exists pa,
        In pa (patches (ax p')) /\
        patch_y pa = [elevation w - Top r; elevation w - Bottom r;
                      elevation w - Bottom r; elevation w - Top r]%Q /\
        patch_x pa = [xcoord w; xcoord w; xcoord w + 5;
                      xcoord w + 5]%Q /\
        patch_label pa = Lithology r.
Proof.
  assert (Forall (renderable DataFrame.empty) [well_100; well_Clay_Till])
    as Hr.
  { repeat constructor; simpl; try (vm_compute; eexists; reflexivity). }
  assert (first_well_nonempty DataFrame.empty [well_100; well_Clay_Till])
    as Hf by (simpl; discriminate).
  assert (savefig_accepts Agg_format_error true
            (replace_spaces "Cross section")) as Hs
    by (intros _; reflexivity).
  split; [exact Hr|]. split; [exact Hf|]. split; [exact Hs|].
  exact (plotSection_elevation_span DataFrame.empty Agg_format_error
           [well_100; well_Clay_Till] 5 true true "Cross section"
           false true (3 # 2) plt0 Hr Hf Hs).
Defined.

(** C1 as the specification words it fails on a well whose stored
    interval has a lithology without style: [plotSection] raises the
    KeyError and no rectangle is on the axes. *)
Lemma plotSection_unknown_lithology_not_drawn :
  In (0, mkRow "Sand" 0 1 no_desc) (intervals DataFrame.empty well_Sand) /\
  exists p',
    plotSection DataFrame.empty Agg_format_error [well_Sand] 5 true false
      "Cross-section" false true (3 # 2) plt0 =
      (p', Raise (KeyError "Sand")) /\
    patches (ax p') = [].
Proof.
  split; [left; reflexivity|].
  eexists. split; vm_compute; reflexivity.
Qed.

(** ** What plotSection draws is right *)

(** A loop keeps an invariant of the state when each turn does, whether
    or not it raises. *)
Lemma for_each_invariant {A S} (I : Plt -> Prop) (body : S -> A -> M S)
    (xs : list A) :
  (forall s x p, In x xs -> I p -> I (fst (body s x p))) ->
  forall s p, I p -> I (fst (for_each xs body s p)).
Proof.
  induction xs as [|x xs IH]; intros Hbody s p Hp; simpl.
  - exact Hp.
  - unfold bind.
    pose proof (Hbody s x p (or_introl eq_refl) Hp) as H1.
    destruct (body s x p) as [p1 [s1|e]]; simpl in *.
    + apply IH; [|exact H1].
      intros s' y q Hy. apply Hbody. right. exact Hy.
    + exact H1.
Qed.

Section SectionSound.

Variable Well_intervals : DataFrame.t.
Variable savefig_error : string -> option exn.
Variables (wells : list Well) (width wellLabelHeight : Q).

Lemma plotSection_body_sound (w : Well) (xx : option Q) (i : nat)
    (p : Plt) :
  In w wells -> patches_sound Well_intervals wells width p ->
  patches_sound Well_intervals wells width
    (fst (plotSection_body Well_intervals w width xx i p)).
Proof.
  intros Hw Hp.
  unfold plotSection_body, bind, lift, DataFrame.iloc, plotTemplates_getitem.
  destruct (nth_error (intervals Well_intervals w) i) as [[j r]|] eqn:Hx;
    simpl; [|exact Hp].
  destruct (plotTemplates !! Lithology r) as [st|] eqn:Hst; simpl;
    [|exact Hp].
  intros pa Hpa. apply in_app_or in Hpa. destruct Hpa as [Hpa|[<-|[]]].
  - apply Hp. exact Hpa.
  - exists w, j, r, st. repeat split; try assumption.
    apply (nth_error_In _ _ Hx).
Qed.

Lemma plotSection_well_sound (xx : option Q) (w : Well) (p : Plt) :
  In w wells -> patches_sound Well_intervals wells width p ->
  patches_sound Well_intervals wells width
    (fst (plotSection_well Well_intervals width wellLabelHeight xx w p)).
Proof.
  intros Hw Hp. unfold plotSection_well, bind.
  pose proof (for_each_invariant (patches_sound Well_intervals wells width)
                (plotSection_body Well_intervals w width)
                (DataFrame.index (intervals Well_intervals w))
                (fun s i q _ Hq => plotSection_body_sound w s i q Hw Hq)
                xx p Hp) as H.
  destruct (for_each _ _ xx p) as [p1 [[v|]|e]]; simpl in *; exact H.
Qed.

(** X14. Whether [plotSection] returns or raises, each rectangle it has
    put on the axes belongs to a stored interval (Top T, Bottom B) of a
    listed well (elevation E) and has its corners at heights
    E - T, E - B, E - B, E - T. *)
Lemma plotSection_patches_sound (grid save : bool) (title : string)
    (north elev : bool) (p : Plt) :
  patches_sound Well_intervals wells width
    (fst (plotSection Well_intervals savefig_error wells width grid save
            title north elev wellLabelHeight p)).
Proof.
  unfold plotSection.
  rewrite (bind_Ok _ _ _ _ _ (eq_refl : plt.subplots p = (_, Ok tt))).
  pose proof (for_each_invariant (patches_sound Well_intervals wells width)
                (plotSection_well Well_intervals width wellLabelHeight)
                wells
                (fun s w q Hw Hq => plotSection_well_sound s w q Hw Hq)
                None (fst (plt.subplots p))) as H.
  destruct (for_each _ _ None (fst (plt.subplots p))) as [p1 [xx|e]] eqn:E;
    simpl fst in H.
  - rewrite (bind_Ok _ _ _ _ _ E).
    destruct (plotSection_finish_draws_nothing savefig_error grid save
                title north elev p1) as [Hpa _].
    intros pa Hin. rewrite Hpa in Hin.
    apply H; [|exact Hin]. intros pa' [].
  - rewrite (bind_Raise _ _ _ _ _ E). simpl. apply H. intros pa' [].
Qed.

End SectionSound.

(** ** plotSection and wells without intervals *)

(** X18. Whatever wells follow, a first well without intervals makes
    [plotSection] raise UnboundLocalError right after the figure is made:
    the label is placed through the local [xx], which no turn of the
    inner loop has assigned. *)
Lemma plotSection_first_well_empty (Well_intervals : DataFrame.t)
    (savefig_error : string -> option exn)
    (w : Well) (wells : list Well) (width : Q) (grid save : bool)
    (title : string) (north elev : bool) (wellLabelHeight : Q) (p : Plt) :
  intervals Well_intervals w = [] ->
  plotSection Well_intervals savefig_error (w :: wells) width grid save
    title north elev wellLabelHeight p =
  (fst (plt.subplots p), Raise (UnboundLocalError "xx")).
Proof.
  intros H. unfold plotSection.
  rewrite (bind_Ok _ _ _ _ _ (eq_refl : plt.subplots p = (_, Ok tt))).
  apply bind_Raise. simpl for_each. apply bind_Raise.
  unfold plotSection_well. rewrite H. reflexivity.
Qed.

(** C4, evaluated. A single well without intervals makes [plotSection]
    raise UnboundLocalError for [xx]; after a well at x = 10, a well
    without intervals at x = 50 gets its name label at the x of the well
    before it (10 + 5/2), not at its own. *)
Theorem plotSection_empty_well_label (savefig_error : string -> option exn) :
  plotSection DataFrame.empty savefig_error [well_empty_50] 5 true false
    "Cross-section" false true (3 # 2) plt0 =
    (fst (plt.subplots plt0), Raise (UnboundLocalError "xx")) /\
  texts (ax (fst (plotSection DataFrame.empty savefig_error
                    [well_100; well_empty_50] 5 true false "Cross-section"
                    false true (3 # 2) plt0))) =
    [ mkText (10 + 5 * (1 # 2)) (100 + (3 # 2)) "BH-1" 90;
      mkText (10 + 5 * (1 # 2)) (0 + (3 # 2)) "BH-2" 90 ].
Proof. split; vm_compute; reflexivity. Qed.

(** ** Where the style lookup fails *)

Lemma bind_inv_Raise {A B} (m : M A) (k : A -> M B) (p p' : Plt) (e : exn) :
  bind m k p = (p', Raise e) ->
  m p = (p', Raise e) \/
  exists a p1, m p = (p1, Ok a) /\ k a p1 = (p', Raise e).
Proof.
  unfold bind. destruct (m p) as [p1 [a|e1]]; intros H.
  - right. exists a, p1. split; [reflexivity | exact H].
  - left. injection H as -> ->. reflexivity.
Qed.

Section UnknownLithology.

Variable Well_intervals : DataFrame.t.
Variable savefig_error : string -> option exn.

Lemma plotWell_body_extends (self : Well) (description : bool) (u : unit)
    (i : nat) (p : Plt) :
  extends p (fst (plotWell_body Well_intervals self description u i p)).
Proof.
  unfold plotWell_body, bind, lift, DataFrame.iloc, plotTemplates_getitem.
  destruct (nth_error (intervals Well_intervals self) i) as [x|]; simpl;
    [|apply extends_refl].
  destruct (plotTemplates !! Lithology (snd x)) as [st|]; simpl;
    [|apply extends_refl].
  destruct description; simpl; repeat split; simpl;
    apply incl_appl, incl_refl.
Qed.

(** Whatever the well and the options, a [plotWell] that raises has
    saved no file and shown no figure. *)
Lemma plotWell_raise_no_output (self : Well)
    (description hatch legend : bool) (figTitle : option string)
    (save : bool) (p p' : Plt) (e : exn) :
  plotWell Well_intervals savefig_error self description hatch legend
    figTitle save p = (p', Raise e) ->
  saved p' = saved p /\ shown p' = shown p.
Proof.
  unfold plotWell. intros H.
  apply bind_inv_Raise in H. destruct H as [H|(top & p1 & H1 & H)].
  { unfold lift in H. injection H as <- _. split; reflexivity. }
  unfold lift in H1. injection H1 as <- _.
  apply bind_inv_Raise in H. destruct H as [H|(bttm & p1 & H1 & H)].
  { unfold lift in H. injection H as <- _. split; reflexivity. }
  unfold lift in H1. injection H1 as <- _.
  apply bind_inv_Raise in H. destruct H as [H|(u & p1 & H1 & H)].
  { discriminate H. }
  injection H1 as <- _.
  apply bind_inv_Raise in H. destruct H as [H|(u' & p2 & H2 & H)].
  - pose proof (for_each_extends
                  (plotWell_body Well_intervals self description)
                  (plotWell_body_extends self description)
                  (DataFrame.index (intervals Well_intervals self)) tt
                  (fst (plt.subplots p))) as Hext.
    simpl in H. simpl in Hext. rewrite H in Hext.
    destruct Hext as (_ & Hs & Hh). simpl in Hs, Hh. split; assumption.
  - apply plotWell_finish_raise in H. destruct H as (_ & _ & Hs & Hh).
    pose proof (for_each_extends
                  (plotWell_body Well_intervals self description)
                  (plotWell_body_extends self description)
                  (DataFrame.index (intervals Well_intervals self)) tt
                  (fst (plt.subplots p))) as Hext.
    simpl in H2. simpl in Hext. rewrite H2 in Hext.
    destruct Hext as (_ & Hs' & Hh'). simpl in Hs', Hh'.
    split; congruence.
Qed.

(** The same for [plotSection]. *)
Lemma plotSection_raise_no_output (wells : list Well) (width : Q)
    (grid save : bool) (title : string) (north elev : bool)
    (wellLabelHeight : Q) (p p' : Plt) (e : exn) :
  plotSection Well_intervals savefig_error wells width grid save title
    north elev wellLabelHeight p = (p', Raise e) ->
  saved p' = saved p /\ shown p' = shown p.
Proof.
  unfold plotSection. intros H.
  apply bind_inv_Raise in H. destruct H as [H|(u & p1 & H1 & H)].
  { discriminate H. }
  injection H1 as <- _.
  apply bind_inv_Raise in H. destruct H as [H|(xx & p2 & H2 & H)].
  - pose proof (for_each_extends
                  (plotSection_well Well_intervals width wellLabelHeight)
                  (plotSection_well_extends Well_intervals width
                     wellLabelHeight)
                  wells None (fst (plt.subplots p))) as Hext.
    simpl in H. simpl in Hext. rewrite H in Hext.
    destruct Hext as (_ & Hs & Hh). simpl in Hs, Hh. split; assumption.
  - apply plotSection_finish_raise in H. destruct H as (_ & _ & Hs & Hh).
    pose proof (for_each_extends
                  (plotSection_well Well_intervals width wellLabelHeight)
                  (plotSection_well_extends Well_intervals width
                     wellLabelHeight)
                  wells None (fst (plt.subplots p))) as Hext.
    simpl in H2. simpl in Hext. rewrite H2 in Hext.
    destruct Hext as (_ & Hs' & Hh'). simpl in Hs', Hh'.
    split; congruence.
Qed.

Lemma positional_index_lt (w : Well) :
  positional_index Well_intervals w ->
  forall i, In i (DataFrame.index (intervals Well_intervals w)) ->
    i < length (intervals Well_intervals w).
Proof.
  intros Hperm i Hi. apply (Permutation_in _ Hperm) in Hi.
  apply in_seq in Hi. lia.
Qed.

Lemma positional_index_covers (w : Well) (x : nat * Row) :
  positional_index Well_intervals w ->
  In x (intervals Well_intervals w) ->
  exists j, In j (DataFrame.index (intervals Well_intervals w)) /\
            nth_error (intervals Well_intervals w) j = Some x.
Proof.
  intros Hperm Hx.
  destruct (In_nth_error _ _ Hx) as [j Hj]. exists j. split; [|exact Hj].
  apply (Permutation_in _ (Permutation_sym Hperm)). apply in_seq.
  assert (j < length (intervals Well_intervals w))
    by (apply nth_error_Some; congruence).
  lia.
Qed.

(** A loop of [plotWell] over labels that are positions, one of them the
    position of a row without style: it raises the KeyError of the first
    such row it meets. *)
Lemma plotWell_loop_unknown (self : Well) (description : bool)
    (ls : list nat) :
  (forall i, In i ls -> i < length (intervals Well_intervals self)) ->
  (exists i x, In i ls /\
     nth_error (intervals Well_intervals self) i = Some x /\
     plotTemplates !! Lithology (snd x) = None) ->
  forall p, exists p' l,
    for_each ls (plotWell_body Well_intervals self description) tt p =
      (p', Raise (KeyError l)) /\
    plotTemplates !! l = None.
Proof.
  induction ls as [|i ls IH]; intros Hlt (j & y & Hj & Hy & Hnone) p.
  - destruct Hj.
  - destruct (nth_error (intervals Well_intervals self) i) as [x|] eqn:Hx.
    2:{ apply nth_error_None in Hx.
        specialize (Hlt i (or_introl eq_refl)). lia. }
    destruct (plotTemplates !! Lithology (snd x)) as [st|] eqn:Hst.
    + assert (exists p1,
                plotWell_body Well_intervals self description tt i p =
                  (p1, Ok tt)) as [p1 Hbody].
      { unfold plotWell_body, bind, lift, DataFrame.iloc,
          plotTemplates_getitem. rewrite Hx, Hst.
        destruct description; eexists; reflexivity. }
      destruct (IH (fun k Hk => Hlt k (or_intror Hk))) with (p := p1)
        as (p' & l & Hrun & Hl).
      { destruct Hj as [<-|Hj].
        - rewrite Hx in Hy. injection Hy as <-. congruence.
        - exists j, y. repeat split; assumption. }
      exists p', l. split; [|exact Hl].
      simpl for_each. rewrite (bind_Ok _ _ _ _ _ Hbody). exact Hrun.
    + exists p, (Lithology (snd x)). split; [|exact Hst].
      simpl for_each. apply bind_Raise.
      unfold plotWell_body, bind, lift, DataFrame.iloc,
        plotTemplates_getitem. rewrite Hx, Hst. reflexivity.
Qed.

(** X16. On a well whose labels are its positions, as [add_interval]
    leaves them, an interval whose lithology has no style makes
    [plotWell] raise the KeyError of the style table, with nothing saved
    or shown. *)
Lemma plotWell_unknown_lithology_KeyError (self : Well)
    (description hatch legend : bool) (figTitle : option string)
    (save : bool) (p : Plt) :
  positional_index Well_intervals self ->
  has_unknown_lithology Well_intervals self ->
  exists p' l,
    plotWell Well_intervals savefig_error self description hatch legend
      figTitle save p = (p', Raise (KeyError l)) /\
    plotTemplates !! l = None /\
    saved p' = saved p /\ shown p' = shown p.
Proof.
  intros Hperm Hbad. apply List.Exists_exists in Hbad.
  destruct Hbad as (x & Hx & Hnone).
  destruct (positional_index_covers self x Hperm Hx) as (j & Hj & Hnth).
  destruct (plotWell_loop_unknown self description
              (DataFrame.index (intervals Well_intervals self))
              (positional_index_lt self Hperm)
              (ex_intro _ j (ex_intro _ x (conj Hj (conj Hnth Hnone))))
              (fst (plt.subplots p))) as (p' & l & Hrun & Hl).
  assert (plotWell Well_intervals savefig_error self description hatch
            legend figTitle save p = (p', Raise (KeyError l))) as Hplot.
  { unfold plotWell.
    destruct (intervals Well_intervals self) as [|y df] eqn:E;
      [destruct Hx|].
    rewrite (bind_Ok _ _ _ _ _
               (eq_refl : lift (DataFrame.iloc (y :: df) 0) p = (p, Ok _))).
    rewrite (bind_Ok _ _ _ _ _
               (eq_refl : lift (DataFrame.iloc_last (y :: df)) p
                          = (p, Ok _))).
    rewrite (bind_Ok _ _ _ _ _ (eq_refl : plt.subplots p = (_, Ok tt))).
    apply bind_Raise. exact Hrun. }
  exists p', l. split; [exact Hplot|]. split; [exact Hl|].
  eapply plotWell_raise_no_output; exact Hplot.
Qed.

End UnknownLithology.

Section UnknownLithologySection.

Variable Well_intervals : DataFrame.t.
Variable savefig_error : string -> option exn.
Variables (width wellLabelHeight : Q).

Lemma plotSection_inner_unknown (w : Well) (ls : list nat) :
  (forall i, In i ls -> i < length (intervals Well_intervals w)) ->
  (exists i x, In i ls /\
     nth_error (intervals Well_intervals w) i = Some x /\
     plotTemplates !! Lithology (snd x) = None) ->
  forall xx p, exists p' l,
    for_each ls (plotSection_body Well_intervals w width) xx p =
      (p', Raise (KeyError l)) /\
    plotTemplates !! l = None.
Proof.
  induction ls as [|i ls IH]; intros Hlt (j & y & Hj & Hy & Hnone) xx p.
  - destruct Hj.
  - destruct (nth_error (intervals Well_intervals w) i) as [x|] eqn:Hx.
    2:{ apply nth_error_None in Hx.
        specialize (Hlt i (or_introl eq_refl)). lia. }
    destruct (plotTemplates !! Lithology (snd x)) as [st|] eqn:Hst.
    + destruct (IH (fun k Hk => Hlt k (or_intror Hk))) with
        (xx := Some (xcoord w))
        (p := add_patch p (section_patch w width (snd x) st))
        as (p' & l & Hrun & Hl).
      { destruct Hj as [<-|Hj].
        - rewrite Hx in Hy. injection Hy as <-. congruence.
        - exists j, y. repeat split; assumption. }
      exists p', l. split; [|exact Hl].
      simpl for_each.
      rewrite (bind_Ok _ _ _ _ _
                 (plotSection_body_ok Well_intervals w width xx i x st p
                    Hx Hst)).
      exact Hrun.
    + exists p, (Lithology (snd x)). split; [|exact Hst].
      simpl for_each. apply bind_Raise.
      unfold plotSection_body, bind, lift, DataFrame.iloc,
        plotTemplates_getitem. rewrite Hx, Hst. reflexivity.
Qed.

Lemma known_or_unknown (w : Well) :
  Forall (fun x => is_Some (plotTemplates !! Lithology (snd x)))
    (intervals Well_intervals w) \/
  has_unknown_lithology Well_intervals w.
Proof.
  unfold has_unknown_lithology.
  induction (intervals Well_intervals w) as [|x df IH].
  - left. constructor.
  - destruct (plotTemplates !! Lithology (snd x)) as [st|] eqn:E.
    + destruct IH as [IH|IH].
      * left. constructor; [rewrite E; eexists; reflexivity | exact IH].
      * right. apply Exists_cons_tl. exact IH.
    + right. apply Exists_cons_hd. exact E.
Qed.

Lemma plotSection_wells_unknown (wells : list Well) :
  Forall (positional_index Well_intervals) wells ->
  Exists (has_unknown_lithology Well_intervals) wells ->
  forall (xx : option Q) (p : Plt),
  xx <> None \/ first_well_nonempty Well_intervals wells ->
  exists p' l,
    for_each wells (plotSection_well Well_intervals width wellLabelHeight)
      xx p = (p', Raise (KeyError l)) /\
    plotTemplates !! l = None.
Proof.
  induction 1 as [|w wells Hw Hws IH]; intros Hbad xx p Hstart.
  - inversion Hbad.
  - destruct (known_or_unknown w) as [Hknown|Hunknown].
    + destruct (plotSection_well_ok Well_intervals width wellLabelHeight
                  w xx p (conj Hw Hknown) Hstart)
        as (p1 & v & Hrun & _ & _).
      assert (Exists (has_unknown_lithology Well_intervals) wells) as Hbad'.
      { inversion Hbad as [? ? Hhd|? ? Htl]; subst; [|exact Htl].
        exfalso. apply List.Exists_exists in Hhd.
        destruct Hhd as (x & Hx & Hnone).
        rewrite List.Forall_forall in Hknown.
        destruct (Hknown x Hx) as [st Hst]. congruence. }
      destruct (IH Hbad' (Some v) p1 (or_introl (Some_ne_None v)))
        as (p' & l & Hrest & Hl).
      exists p', l. split; [|exact Hl].
      simpl for_each. rewrite (bind_Ok _ _ _ _ _ Hrun). exact Hrest.
    + apply List.Exists_exists in Hunknown.
      destruct Hunknown as (x & Hx & Hnone).
      destruct (positional_index_covers Well_intervals w x Hw Hx)
        as (j & Hj & Hnth).
      destruct (plotSection_inner_unknown w
                  (DataFrame.index (intervals Well_intervals w))
                  (positional_index_lt Well_intervals w Hw)
                  (ex_intro _ j (ex_intro _ x (conj Hj (conj Hnth Hnone))))
                  xx p) as (p' & l & Hrun & Hl).
      exists p', l. split; [|exact Hl].
      simpl for_each. apply bind_Raise.
      unfold plotSection_well. apply bind_Raise. exact Hrun.
Qed.

(** X17. Over wells whose labels are their positions, the first of
    which has an interval, a well holding a lithology without style makes
    [plotSection] raise the KeyError of the style table, with nothing
    saved or shown. *)
Lemma plotSection_unknown_lithology_KeyError (wells : list Well)
    (grid save : bool) (title : string) (north elev : bool) (p : Plt) :
  Forall (positional_index Well_intervals) wells ->
  first_well_nonempty Well_intervals wells ->
  Exists (has_unknown_lithology Well_intervals) wells ->
  exists p' l,
    plotSection Well_intervals savefig_error wells width grid save title
      north elev wellLabelHeight p = (p', Raise (KeyError l)) /\
    plotTemplates !! l = None /\
    saved p' = saved p /\ shown p' = shown p.
Proof.
  intros Hpos Hfirst Hbad.
  destruct (plotSection_wells_unknown wells Hpos Hbad None
              (fst (plt.subplots p)) (or_intror Hfirst))
    as (p' & l & Hrun & Hl).
  assert (plotSection Well_intervals savefig_error wells width grid save
            title north elev wellLabelHeight p = (p', Raise (KeyError l)))
    as Hplot.
  { unfold plotSection.
    rewrite (bind_Ok _ _ _ _ _ (eq_refl : plt.subplots p = (_, Ok tt))).
    apply bind_Raise. exact Hrun. }
  exists p', l. split; [exact Hplot|]. split; [exact Hl|].
  eapply plotSection_raise_no_output; exact Hplot.
Qed.

End UnknownLithologySection.

(** ** Rendering a lithology without style *)

(** C8, evaluated. With a well without intervals listed before the well
    that holds the styleless lithology Sand, [plotSection] raises
    UnboundLocalError, which is no lookup error, before it reads Sand.
    On the well left by [remove_interval(layNum=0)] with rows Sand, Till
    labelled 1, 2, [plotWell] draws Till and raises the IndexError of
    [iloc[2]] without ever looking Sand up. Nothing is saved or shown in
    either case. *)
Theorem render_unknown_lithology_other_error
    (savefig_error : string -> option exn) :
  (exists p',
     plotSection DataFrame.empty savefig_error [Well_default; well_Sand] 5
       true true "Cross-section" false true (3 # 2) plt0
       = (p', Raise (UnboundLocalError "xx")) /\
     is_LookupError (UnboundLocalError "xx") = false /\
     saved p' = [] /\ shown p' = 0) /\
  (DataFrame.rows (intervals DataFrame.empty well_Sand_Till) =
     [mkRow "Sand" 1 2 no_desc; mkRow "Till" 2 3 no_desc] /\
   plotTemplates !! "Sand"%string = None /\
   exists p',
     plotWell DataFrame.empty savefig_error well_Sand_Till true true false
       None true plt0
       = (p', Raise (IndexError "single positional indexer is out-of-bounds")) /\
     map patch_label (patches (ax p')) = ["Till"%string] /\
     saved p' = [] /\ shown p' = 0).
Proof.
  split.
  - eexists. repeat split; vm_compute; reflexivity.
  - split; [vm_compute; reflexivity|]. split; [vm_compute; reflexivity|].
    eexists. repeat split; vm_compute; reflexivity.
Qed.

(** ** Instances do not share their intervals *)

Lemma only_self_refl (self : nat) (h : Heap) : Heap.only_self self h h.
Proof.
  repeat split. exists []. rewrite app_nil_r. reflexivity.
Qed.

Lemma only_self_trans (self : nat) (h1 h2 h3 : Heap) :
  Heap.only_self self h1 h2 -> Heap.only_self self h2 h3 ->
  Heap.only_self self h1 h3.
Proof.
  intros ([l1 F1] & C1 & L1 & I1) ([l2 F2] & C2 & L2 & I2).
  repeat split.
  - exists (l1 ++ l2). rewrite F2, F1, <- app_assoc. reflexivity.
  - congruence.
  - congruence.
  - intros w Hw. rewrite (I2 w Hw). apply (I1 w Hw).
Qed.

Lemma wf_ref (h : Heap) (self : nat) (o : Instance) :
  Heap.wf h -> instances h !! self = Some o ->
  match inst_intervals o with
  | Some r => r
  | None => class_intervals h
  end < length (frames h).
Proof.
  intros [Hc Hi] Ho.
  destruct (inst_intervals o) as [r|] eqn:E; [|exact Hc].
  pose proof (Forall_lookup_1 _ _ _ _ Hi Ho) as H. simpl in H.
  rewrite E in H. exact H.
Qed.

(** A call on another instance leaves what [w.intervals] reads. *)
Lemma only_self_read (self w : nat) (h h' : Heap) :
  Heap.wf h -> Heap.only_self self h h' -> w <> self ->
  Heap.read_intervals w h' = Heap.read_intervals w h.
Proof.
  intros Hwf ([l F] & C & L & I) Hw.
  unfold Heap.read_intervals, Heap.getattr_intervals.
  rewrite (I w Hw), C.
  destruct (instances h !! w) as [o|] eqn:Ho; [|reflexivity].
  simpl. rewrite F. apply lookup_app_l.
  apply (wf_ref h w o Hwf Ho).
Qed.

Lemma only_self_class_frame (self : nat) (h h' : Heap) :
  Heap.wf h -> Heap.only_self self h h' ->
  Heap.class_frame h' = Heap.class_frame h.
Proof.
  intros [Hc _] ([l F] & C & _). unfold Heap.class_frame.
  rewrite C, F. apply lookup_app_l. exact Hc.
Qed.

Lemma reassign_intervals_spec (f : DataFrame.t -> result DataFrame.t)
    (self : nat) (h : Heap) :
  Heap.wf h -> is_Some (instances h !! self) ->
  exists df,
    Heap.read_intervals self h = Some df /\
    match f df with
    | Ok df' =>
        exists h',
          Heap.reassign_intervals f self h = Some (h', Ok tt) /\
          Heap.wf h' /\ Heap.only_self self h h' /\
          is_Some (instances h' !! self) /\
          Heap.read_intervals self h' = Some df'
    | Raise e => Heap.reassign_intervals f self h = Some (h, Raise e)
    end.
Proof.
  intros Hwf [o Ho].
  pose proof (wf_ref h self o Hwf Ho) as Hr.
  destruct (lookup_lt_is_Some_2 _ _ Hr) as [df Hdf].
  exists df.
  unfold Heap.read_intervals, Heap.reassign_intervals,
    Heap.getattr_intervals.
  rewrite Ho. simpl. rewrite Hdf. simpl. split; [reflexivity|].
  destruct (f df) as [df'|e]; [|reflexivity].
  eexists. split; [reflexivity|].
  destruct Hwf as [Hc Hi].
  split; [|split; [|split]].
  - split; simpl.
    + rewrite length_app. simpl. lia.
    + apply Forall_alter.
      * eapply Forall_impl; [exact Hi|]. intros x Hx. simpl in Hx.
        destruct (inst_intervals x); [|exact I].
        rewrite length_app. simpl. lia.
      * intros x _. simpl. rewrite length_app. simpl. lia.
  - repeat split; simpl.
    + eexists. reflexivity.
    + apply length_alter.
    + intros w Hw. apply list_lookup_alter_ne.
      intros E. apply Hw. symmetry. exact E.
  - simpl. rewrite list_lookup_alter_eq, Ho. eexists. reflexivity.
  - simpl. rewrite list_lookup_alter_eq, Ho. simpl.
    apply list_lookup_middle. reflexivity.
Qed.

Lemma call_on_reassign (f : DataFrame.t -> result DataFrame.t)
    (self : nat) (h : Heap) :
  Heap.wf h -> is_Some (instances h !! self) ->
  Heap.call_on self h (Heap.reassign_intervals f self h).
Proof.
  intros Hwf Hi.
  destruct (reassign_intervals_spec f self h Hwf Hi) as (df & _ & H).
  destruct (f df) as [df'|e].
  - destruct H as (h' & E & Hwf' & Ho & Hi' & _).
    exists h', (Ok tt). split; [exact E|]. split; [exact Hwf'|].
    split; assumption.
  - exists h, (Raise e). split; [exact H|].
    split; [exact Hwf|]. split; [apply only_self_refl | exact Hi].
Qed.

Lemma call_on_and_then (self : nat) (h : Heap)
    (m : option (Heap * result unit))
    (k : Heap -> option (Heap * result unit)) :
  Heap.call_on self h m ->
  (forall h1, Heap.wf h1 -> is_Some (instances h1 !! self) ->
     Heap.call_on self h1 (k h1)) ->
  Heap.call_on self h (Heap.and_then m k).
Proof.
  intros (h1 & r & -> & Hwf & Ho & Hi) Hk. simpl.
  destruct r as [u|e].
  - destruct (Hk h1 Hwf Hi) as (h2 & r2 & E & Hwf2 & Ho2 & Hi2).
    exists h2, r2. split; [exact E|]. split; [exact Hwf2|].
    split; [|exact Hi2]. apply (only_self_trans self h h1 h2 Ho Ho2).
  - exists h1, (Raise e). split; [reflexivity|]. split; [exact Hwf|].
    split; assumption.
Qed.

Lemma call_on_add_interval (pd : DataFrame.Pandas) (self : nat)
    (top bottom : Q) (lithology description : string) (h : Heap) :
  Heap.wf h -> is_Some (instances h !! self) ->
  Heap.call_on self h
    (Heap.add_interval pd self top bottom lithology description h).
Proof.
  intros Hwf Hi. unfold Heap.add_interval.
  apply call_on_and_then; [apply call_on_reassign; assumption|].
  intros h1 Hwf1 Hi1.
  apply call_on_and_then; [apply call_on_reassign; assumption|].
  intros h2 Hwf2 Hi2. apply call_on_reassign; assumption.
Qed.

Lemma call_on_return (self : nat) (h : Heap) (r : result unit) :
  Heap.wf h -> is_Some (instances h !! self) ->
  Heap.call_on self h (Some (h, r)).
Proof.
  intros Hwf Hi. exists h, r. split; [reflexivity|].
  split; [exact Hwf|]. split; [apply only_self_refl | exact Hi].
Qed.

Lemma call_on_remove_interval (self : nat) (layNum : option Z)
    (lithology : option string) (h : Heap) :
  Heap.wf h -> is_Some (instances h !! self) ->
  Heap.call_on self h (Heap.remove_interval self layNum lithology h).
Proof.
  intros Hwf Hi. unfold Heap.remove_interval.
  destruct layNum as [k|], lithology as [lith|];
    try (apply call_on_and_then;
         [first [apply call_on_reassign | apply call_on_return]; assumption|];
         intros h1 Hwf1 Hi1;
         first [apply call_on_reassign | apply call_on_return]; assumption).
  apply call_on_return; assumption.
Qed.

(** A call on [self] leaves what every other instance reads, and the
    class attribute. *)
Lemma call_on_others (self w : nat) (h : Heap)
    (m : option (Heap * result unit)) :
  Heap.wf h -> Heap.call_on self h m -> w <> self ->
  exists h' r,
    m = Some (h', r) /\
    Heap.read_intervals w h' = Heap.read_intervals w h /\
    Heap.class_frame h' = Heap.class_frame h /\
    class_intervals h' = class_intervals h.
Proof.
  intros Hwf (h' & r & E & _ & Ho & _) Hw. exists h', r.
  split; [exact E|]. split; [|split].
  - apply (only_self_read self w h h' Hwf Ho Hw).
  - apply (only_self_class_frame self h h' Hwf Ho).
  - apply Ho.
Qed.

(** C9. On a heap whose references are those of objects, for two
    distinct instances w1 and w2, [add_interval] and [remove_interval]
    called on w1, whether they return or raise, leave the frame
    [w2.intervals] reads and the class attribute [Well.intervals], its
    reference and its frame, as they were; this covers a w2 that still
    reads the class-level frame, which w1 may have been reading too. *)
Theorem methods_leave_other_instances (pd : DataFrame.Pandas) (h : Heap)
    (w1 w2 : nat) :
  Heap.wf h -> w1 <> w2 -> is_Some (instances h !! w1) ->
  (forall top bottom lithology description,
     exists h' r,
       Heap.add_interval pd w1 top bottom lithology description h
         = Some (h', r) /\
       Heap.read_intervals w2 h' = Heap.read_intervals w2 h /\
       Heap.class_frame h' = Heap.class_frame h /\
       class_intervals h' = class_intervals h) /\
  (forall layNum lithology,
     exists h' r,
       Heap.remove_interval w1 layNum lithology h = Some (h', r) /\
       Heap.read_intervals w2 h' = Heap.read_intervals w2 h /\
       Heap.class_frame h' = Heap.class_frame h /\
       class_intervals h' = class_intervals h).
Proof.
  intros Hwf Hne Hi.
  assert (w2 <> w1) as Hne' by (intros E; apply Hne; symmetry; exact E).
  split.
  - intros top bottom lithology description.
    apply (call_on_others w1 w2 h _ Hwf); [|exact Hne'].
    apply call_on_add_interval; assumption.
  - intros layNum lithology.
    apply (call_on_others w1 w2 h _ Hwf); [|exact Hne'].
    apply call_on_remove_interval; assumption.
Qed.

Lemma methods_leave_other_instances_witness :
  Heap.wf heap_two_wells /\ 0 <> 1 /\
  is_Some (instances heap_two_wells !! 0) /\
  (forall top bottom lithology description,
     exists h' r,
       Heap.add_interval pandas16 0 top bottom lithology description
         heap_two_wells = Some (h', r) /\
       Heap.read_intervals 1 h' = Heap.read_intervals 1 heap_two_wells /\
       Heap.class_frame h' = Heap.class_frame heap_two_wells /\
       class_intervals h' = class_intervals heap_two_wells) /\
  (forall layNum lithology,
     exists h' r,
       Heap.remove_interval 0 layNum lithology heap_two_wells
         = Some (h', r) /\
       Heap.read_intervals 1 h' = Heap.read_intervals 1 heap_two_wells /\
       Heap.class_frame h' = Heap.class_frame heap_two_wells /\
       class_intervals h' = class_intervals heap_two_wells).
Proof.
  assert (Heap.wf heap_two_wells) as Hwf
    by (split; [simpl; lia | repeat constructor]).
  assert (0 <> 1) as Hne by lia.
  assert (is_Some (instances heap_two_wells !! 0)) as Hi
    by (eexists; reflexivity).
  split; [exact Hwf|]. split; [exact Hne|]. split; [exact Hi|].
  exact (methods_leave_other_instances pandas16 heap_two_wells 0 1 Hwf Hne
           Hi).
Defined.

(** Two wells, one interval added to the first: the second still reads
    the empty class-level frame. *)
Example two_wells_one_interval :
  exists h',
    Heap.add_interval pandas16 0 0 2 "Clay" no_desc heap_two_wells
      = Some (h', Ok tt) /\
    Heap.read_intervals 0 h' = Some [(0, mkRow "Clay" 0 2 no_desc)] /\
    Heap.read_intervals 1 h' = Some [] /\
    Heap.class_frame h' = Some [].
Proof.
  eexists. split; [reflexivity|]. repeat split.
Qed.

(** The class-level frame is shared all the same: had the first well
    been updated in place, the second would read the new row. *)
Example update_in_place_is_shared :
  exists h',
    Heap.update_in_place
      (fun df => DataFrame.append pandas16 df (mkRow "Clay" 0 2 no_desc))
      0 heap_two_wells = Some h' /\
    Heap.read_intervals 1 heap_two_wells = Some [] /\
    Heap.read_intervals 1 h' = Some [(0, mkRow "Clay" 0 2 no_desc)].
Proof.
  eexists. split; [reflexivity|]. split; reflexivity.
Qed.

(** ** The methods on the heap and on [Well] values agree *)

Lemma view_read (self : nat) (h : Heap) (w : Well) (cls : DataFrame.t) :
  Heap.view self h = Some w -> Heap.class_frame h = Some cls ->
  is_Some (instances h !! self) /\
  Heap.read_intervals self h = Some (intervals cls w).
Proof.
  unfold Heap.view, Heap.class_frame, Heap.read_intervals,
    Heap.getattr_intervals.
  destruct (instances h !! self) as [o|]; [|discriminate].
  intros Hv Hc. split; [eexists; reflexivity|]. simpl.
  destruct (inst_intervals o) as [r|].
  - destruct (frames h !! r) as [df|]; [|discriminate].
    injection Hv as <-. reflexivity.
  - injection Hv as <-. exact Hc.
Qed.

Lemma reassign_intervals_view (f : DataFrame.t -> result DataFrame.t)
    (self : nat) (h : Heap) (w : Well) (cls : DataFrame.t) :
  Heap.wf h -> Heap.view self h = Some w -> Heap.class_frame h = Some cls ->
  match f (intervals cls w) with
  | Ok df' =>
      exists h',
        Heap.reassign_intervals f self h = Some (h', Ok tt) /\
        Heap.wf h' /\ Heap.class_frame h' = Some cls /\
        Heap.view self h' = Some (set_intervals w df')
  | Raise e => Heap.reassign_intervals f self h = Some (h, Raise e)
  end.
Proof.
  intros Hwf Hv Hc.
  destruct (view_read self h w cls Hv Hc) as [Hi Hr].
  destruct (reassign_intervals_spec f self h Hwf Hi) as (df & Hr' & H).
  rewrite Hr in Hr'. injection Hr' as <-.
  destruct (f (intervals cls w)) as [df'|e] eqn:Ef; [|exact H].
  destruct H as (h' & E & Hwf' & Ho & Hi' & Hread).
  exists h'. split; [exact E|]. split; [exact Hwf'|]. split.
  - rewrite (only_self_class_frame self h h' Hwf Ho). exact Hc.
  - destruct Hi as [o Hoo].
    assert (w = mkWell (inst_name o) (inst_xcoord o) (inst_ycoord o)
                  (inst_elevation o) (inst_date o) (inst_project o)
                  (inst_logged_by o) (own_intervals w)) as Hw.
    { revert Hv. unfold Heap.view. rewrite Hoo.
      destruct (inst_intervals o) as [r|];
        [destruct (frames h !! r); [|discriminate]|];
        intros Hv; injection Hv as <-; reflexivity. }
    revert E Hr. unfold Heap.reassign_intervals, Heap.read_intervals.
    destruct (Heap.getattr_intervals self h) as [r0|]; [|discriminate].
    simpl. intros E Hr. rewrite Hr in E. simpl in E. rewrite Ef in E.
    injection E as <-. unfold Heap.view. simpl.
    rewrite list_lookup_alter_eq, Hoo. simpl.
    rewrite list_lookup_middle by reflexivity.
    rewrite Hw at 1. reflexivity.
Qed.

(** The heap method does to the instance what [add_interval] does to the
    [Well] value that views it. *)
Lemma Heap_add_interval_view (pd : DataFrame.Pandas) (self : nat)
    (top bottom : Q) (lithology description : string) (h : Heap)
    (w : Well) (cls : DataFrame.t) :
  Heap.wf h -> Heap.view self h = Some w -> Heap.class_frame h = Some cls ->
  exists h',
    Heap.add_interval pd self top bottom lithology description h
      = Some (h', Ok tt) /\
    Heap.wf h' /\ Heap.class_frame h' = Some cls /\
    Heap.view self h' =
      Some (add_interval pd cls w top bottom lithology description).
Proof.
  intros Hwf Hv Hc. unfold Heap.add_interval.
  pose proof (reassign_intervals_view
                (fun df => Ok (DataFrame.append pd df
                                 (mkRow lithology top bottom description)))
                self h w cls Hwf Hv Hc) as H1.
  cbv beta in H1. destruct H1 as (h1 & -> & Hwf1 & Hc1 & Hv1).
  simpl Heap.and_then.
  pose proof (reassign_intervals_view
                (fun df => Ok (DataFrame.drop_duplicates df))
                self h1 _ cls Hwf1 Hv1 Hc1) as H2.
  cbv beta in H2. destruct H2 as (h2 & -> & Hwf2 & Hc2 & Hv2).
  simpl Heap.and_then.
  pose proof (reassign_intervals_view
                (fun df => Ok (DataFrame.sort_values_by_Top pd df))
                self h2 _ cls Hwf2 Hv2 Hc2) as H3.
  cbv beta in H3. destruct H3 as (h3 & -> & Hwf3 & Hc3 & Hv3).
  exists h3. split; [reflexivity|]. split; [exact Hwf3|].
  split; [exact Hc3|]. exact Hv3.
Qed.

Lemma Heap_remove_interval_view (self : nat) (layNum : option Z)
    (lithology : option string) (h : Heap) (w : Well) (cls : DataFrame.t) :
  Heap.wf h -> Heap.view self h = Some w -> Heap.class_frame h = Some cls ->
  match remove_interval cls w layNum lithology with
  | Ok w' =>
      exists h',
        Heap.remove_interval self layNum lithology h = Some (h', Ok tt) /\
        Heap.wf h' /\ Heap.class_frame h' = Some cls /\
        Heap.view self h' = Some w'
  | Raise e => Heap.remove_interval self layNum lithology h = Some (h, Raise e)
  end.
Proof.
  intros Hwf Hv Hc. unfold Heap.remove_interval, remove_interval.
  destruct layNum as [k|], lithology as [lith|]; [| | |reflexivity].
  - pose proof (reassign_intervals_view (fun df => DataFrame.drop df k)
                  self h w cls Hwf Hv Hc) as H1.
    cbv beta in H1.
    destruct (DataFrame.drop (intervals cls w) k) as [df1|e].
    + destruct H1 as (h1 & -> & Hwf1 & Hc1 & Hv1). simpl Heap.and_then.
      pose proof (reassign_intervals_view
                    (fun df => Ok (DataFrame.where_Lithology_ne df lith))
                    self h1 _ cls Hwf1 Hv1 Hc1) as H2.
      cbv beta in H2. destruct H2 as (h2 & -> & Hwf2 & Hc2 & Hv2).
      exists h2. repeat split; try assumption; apply Hwf2.
    + rewrite H1. reflexivity.
  - pose proof (reassign_intervals_view (fun df => DataFrame.drop df k)
                  self h w cls Hwf Hv Hc) as H1.
    cbv beta in H1.
    destruct (DataFrame.drop (intervals cls w) k) as [df1|e].
    + destruct H1 as (h1 & -> & Hwf1 & Hc1 & Hv1). simpl Heap.and_then.
      exists h1. repeat split; try assumption; apply Hwf1.
    + rewrite H1. reflexivity.
  - simpl Heap.and_then.
    pose proof (reassign_intervals_view
                  (fun df => Ok (DataFrame.where_Lithology_ne df lith))
                  self h w cls Hwf Hv Hc) as H2.
    cbv beta in H2. destruct H2 as (h2 & -> & Hwf2 & Hc2 & Hv2).
    exists h2. repeat split; try assumption; apply Hwf2.
Qed.

Lemma reassign_intervals_None (f : DataFrame.t -> result DataFrame.t)
    (self : nat) (h : Heap) :
  instances h !! self = None -> Heap.reassign_intervals f self h = None.
Proof.
  intros H. unfold Heap.reassign_intervals, Heap.getattr_intervals.
  rewrite H. reflexivity.
Qed.

(** A call that returns or raises leaves a well-formed heap with the
    class-level frame it found. *)
Lemma call_keeps_class_frame (self : nat) (h h' : Heap) (r : result unit)
    (m : option (Heap * result unit)) :
  Heap.wf h ->
  (is_Some (instances h !! self) -> Heap.call_on self h m) ->
  (instances h !! self = None -> m = None \/ exists r0, m = Some (h, r0)) ->
  m = Some (h', r) ->
  Heap.wf h' /\ Heap.class_frame h' = Heap.class_frame h.
Proof.
  intros Hwf Hcall Hnone E.
  destruct (instances h !! self) as [o|] eqn:Ho.
  - destruct (Hcall (ex_intro _ o eq_refl)) as (h1 & r1 & E1 & Hwf1 & Hs & _).
    rewrite E in E1. injection E1 as <- <-.
    split; [exact Hwf1|]. apply (only_self_class_frame self h h' Hwf Hs).
  - destruct (Hnone eq_refl) as [E1|[r0 E1]]; rewrite E in E1.
    + discriminate E1.
    + injection E1 as -> _. split; [exact Hwf | reflexivity].
Qed.

Lemma reachable_invariant (pd : DataFrame.Pandas) (h : Heap) :
  Heap.reachable pd h ->
  Heap.wf h /\ Heap.class_frame h = Some DataFrame.empty.
Proof.
  induction 1 as [ | h name x y e d p l Hh [Hwf Hc]
                   | h h' r self top bottom lith desc Hh [Hwf Hc] E
                   | h h' r self layNum lith Hh [Hwf Hc] E ].
  - split; [split; [simpl; lia | constructor] | reflexivity].
  - split; [|exact Hc]. destruct Hwf as [Hcl Hi]. split; [exact Hcl|].
    simpl. apply Forall_app. split; [exact Hi|]. repeat constructor.
  - rewrite <- Hc.
    apply (call_keeps_class_frame self h h' r _ Hwf) in E; [exact E| |].
    + intros Hi. apply call_on_add_interval; assumption.
    + intros Hn. left. unfold Heap.add_interval.
      rewrite reassign_intervals_None by exact Hn. reflexivity.
  - rewrite <- Hc.
    apply (call_keeps_class_frame self h h' r _ Hwf) in E; [exact E| |].
    + intros Hi. apply call_on_remove_interval; assumption.
    + intros Hn. unfold Heap.remove_interval.
      destruct layNum as [k|], lith as [lith|];
        rewrite ?reassign_intervals_None by exact Hn; simpl;
        rewrite ?reassign_intervals_None by exact Hn; eauto.
Qed.

(** * Further properties *)

(** ** What every built well satisfies *)

Lemma StronglySorted_filter {A} (R : A -> A -> Prop) (f : A -> bool)
    (l : list A) :
  StronglySorted R l -> StronglySorted R (List.filter f l).
Proof.
  induction 1 as [|a l Hs IH Ha]; simpl; [constructor|].
  destruct (f a); [|exact IH].
  constructor; [exact IH|].
  rewrite List.Forall_forall in *. intros x Hx.
  apply Ha. apply filter_In in Hx. tauto.
Qed.

Lemma NoDup_index_filter (f : nat * Row -> bool) (df : DataFrame.t) :
  List.NoDup (DataFrame.index df) -> List.NoDup (DataFrame.index (List.filter f df)).
Proof.
  induction df as [|x df IH]; simpl; intros H; [constructor|].
  inversion H as [|? ? Hx Hnd]; subst.
  destruct (f x); simpl; [|apply IH; exact Hnd].
  constructor; [|apply IH; exact Hnd].
  intros Hin. apply Hx. apply in_map_iff in Hin. apply in_map_iff.
  destruct Hin as (y & Hy & Hin). exists y. split; [exact Hy|].
  apply filter_In in Hin. tauto.
Qed.

Lemma index_drop_duplicates_from_incl (df : DataFrame.t) (seen : list Row) :
  incl (DataFrame.index (DataFrame.drop_duplicates_from seen df))
    (DataFrame.index df).
Proof.
  revert seen. induction df as [|[i r] df IH]; intros seen; simpl.
  - apply incl_refl.
  - destruct (existsb (Row_eqb r) seen); simpl.
    + apply incl_tl, IH.
    + apply incl_cons; [left; reflexivity | apply incl_tl, IH].
Qed.

Lemma index_drop_duplicates_from_NoDup (df : DataFrame.t)
    (seen : list Row) :
  List.NoDup (DataFrame.index df) ->
  List.NoDup (DataFrame.index (DataFrame.drop_duplicates_from seen df)).
Proof.
  revert seen. induction df as [|[i r] df IH]; intros seen H; simpl.
  - constructor.
  - inversion H as [|? ? Hi Hnd]; subst.
    destruct (existsb (Row_eqb r) seen); simpl.
    + apply IH. exact Hnd.
    + constructor; [|apply IH; exact Hnd].
      intros Hin. apply Hi.
      apply (index_drop_duplicates_from_incl df (r :: seen)). exact Hin.
Qed.

Lemma add_interval_NoDup_index (pd : DataFrame.Pandas)
    (Well_intervals : DataFrame.t) (self : Well)
    (top bottom : Q) (lithology description : string) :
  List.NoDup
    (DataFrame.index
       (intervals Well_intervals
          (add_interval pd Well_intervals self top bottom lithology
             description))).
Proof.
  rewrite intervals_add_interval.
  eapply Permutation_NoDup.
  - symmetry. apply Permutation_map.
    apply (DataFrame.sort_values_permutes pd).
  - apply index_drop_duplicates_from_NoDup.
    rewrite DataFrameFacts.index_append. apply seq_NoDup.
Qed.

(** What [remove_interval] leaves is what a filter of the table leaves. *)
Lemma remove_interval_filter (Well_intervals : DataFrame.t)
    (self self' : Well) (layNum : option Z) (lithology : option string) :
  remove_interval Well_intervals self layNum lithology = Ok self' ->
  exists f,
    intervals Well_intervals self' =
      List.filter f (intervals Well_intervals self).
Proof.
  unfold remove_interval, DataFrame.drop.
  destruct layNum as [k|], lithology as [L|]; try discriminate;
    try destruct (existsb _ _); try discriminate;
    intros H; injection H as <-; rewrite intervals_set_intervals;
    unfold DataFrame.where_Lithology_ne.
  - rewrite intervals_set_intervals.
    exists (fun x => negb (DataFrame.has_label k x)
                     && DataFrame.Lithology_ne L x).
    induction (intervals Well_intervals self) as [|x df IH]; simpl;
      [reflexivity|].
    destruct (DataFrame.has_label k x); simpl; [exact IH|].
    destruct (DataFrame.Lithology_ne L x); rewrite IH; reflexivity.
  - eexists. reflexivity.
  - eexists. reflexivity.
Qed.

Lemma built_sorted (pd : DataFrame.Pandas) (w : Well) :
  built pd w -> sorted_by_Top (intervals DataFrame.empty w).
Proof.
  induction 1 as [| w top bottom lith desc Hw IH | w w' layNum lith Hw IH Hr].
  - constructor.
  - rewrite intervals_add_interval.
    apply DataFrameFacts.sort_values_sorted.
  - destruct (remove_interval_filter _ _ _ _ _ Hr) as [f ->].
    apply StronglySorted_filter. exact IH.
Qed.

Lemma built_NoDupA (pd : DataFrame.Pandas) (w : Well) :
  built pd w -> NoDupA Row_eq (DataFrame.rows (intervals DataFrame.empty w)).
Proof.
  induction 1 as [| w top bottom lith desc Hw IH | w w' layNum lith Hw IH Hr].
  - constructor.
  - apply add_interval_NoDupA.
  - apply (remove_interval_NoDupA _ _ _ _ _ IH Hr).
Qed.

Lemma built_NoDup_index (pd : DataFrame.Pandas) (w : Well) :
  built pd w -> List.NoDup (DataFrame.index (intervals DataFrame.empty w)).
Proof.
  induction 1 as [| w top bottom lith desc Hw IH | w w' layNum lith Hw IH Hr].
  - constructor.
  - apply add_interval_NoDup_index.
  - destruct (remove_interval_filter _ _ _ _ _ Hr) as [f ->].
    apply NoDup_index_filter. exact IH.
Qed.

(** X1. A well built from a new one by any calls of [add_interval] and
    [remove_interval] has its table sorted ascending by Top, holds no
    two rows equal in all four fields, and carries no index label
    twice. *)
Theorem built_well_invariants (pd : DataFrame.Pandas) (w : Well) :
  built pd w ->
  sorted_by_Top (intervals DataFrame.empty w) /\
  NoDupA Row_eq (DataFrame.rows (intervals DataFrame.empty w)) /\
  List.NoDup (DataFrame.index (intervals DataFrame.empty w)).
Proof.
  intros Hw. split; [|split].
  - apply (built_sorted pd). exact Hw.
  - apply (built_NoDupA pd). exact Hw.
  - apply (built_NoDup_index pd). exact Hw.
Qed.

Lemma built_well_Clay_Till : built pandas16 well_Clay_Till.
Proof. unfold well_Clay_Till. repeat constructor. Qed.

Lemma built_well_invariants_witness :
  built pandas16 well_Clay_Till /\
  sorted_by_Top (intervals DataFrame.empty well_Clay_Till) /\
  NoDupA Row_eq (DataFrame.rows (intervals DataFrame.empty well_Clay_Till)) /\
  List.NoDup (DataFrame.index (intervals DataFrame.empty well_Clay_Till)).
Proof.
  split; [exact built_well_Clay_Till|].
  exact (built_well_invariants pandas16 well_Clay_Till built_well_Clay_Till).
Defined.



(** ** What add_interval stores *)

Lemma drop_duplicates_from_subset (df : DataFrame.t) (seen : list Row)
    (u : Row) :
  InA Row_eq u (DataFrame.rows (DataFrame.drop_duplicates_from seen df)) ->
  InA Row_eq u (DataFrame.rows df).
Proof.
  revert seen. induction df as [|[i r] df IH]; intros seen H; simpl in *.
  - exact H.
  - destruct (existsb (Row_eqb r) seen); simpl in H.
    + right. apply (IH seen H).
    + inversion H as [? ? Hur|? ? Hu']; subst.
      * left. exact Hur.
      * right. apply (IH (r :: seen) Hu').
Qed.

(** X3. When the numbers stored in the table and the Top and Bottom
    passed are numbers the columns hold as passed, the records stored
    after [add_interval] are, up to equality of the four fields, the
    records stored before together with the one added: none is lost and
    no other appears. *)
Theorem add_interval_stores (pd : DataFrame.Pandas)
    (Well_intervals : DataFrame.t) (self : Well)
    (top bottom : Q) (lithology description : string) (r : Row) :
  Forall (kept pd)
    (mkRow lithology top bottom description
       :: DataFrame.rows (intervals Well_intervals self)) ->
  InA Row_eq r
    (DataFrame.rows
       (intervals Well_intervals
          (add_interval pd Well_intervals self top bottom lithology
             description))) <->
  InA Row_eq r (DataFrame.rows (intervals Well_intervals self)) \/
  Row_eq r (mkRow lithology top bottom description).
Proof.
  intros Hkept. inversion Hkept as [|? ? Hu _]; subst.
  rewrite intervals_add_interval.
  set (u := mkRow lithology top bottom description) in *.
  set (A := DataFrame.append pd (intervals Well_intervals self) u).
  assert (InA Row_eq r (DataFrame.rows A) <->
          InA Row_eq r (DataFrame.rows (intervals Well_intervals self)) \/
          Row_eq r u) as HA.
  { unfold A. rewrite DataFrameFacts.rows_append, (Hu _), InA_app_iff.
    split.
    - intros [H|H]; [left; exact H|].
      inversion H as [? ? Hru|? ? Hnil]; subst;
        [right; exact Hru | inversion Hnil].
    - intros [H|H]; [left; exact H|]. right. left. exact H. }
  rewrite <- HA.
  assert (PermutationA Row_eq
            (DataFrame.rows
               (DataFrame.sort_values_by_Top pd (DataFrame.drop_duplicates A)))
            (DataFrame.rows (DataFrame.drop_duplicates A))) as HP.
  { apply (Permutation_PermutationA Row_eq_Equivalence).
    apply Permutation_map, (DataFrame.sort_values_permutes pd). }
  rewrite (PermutationA_equivlistA Row_eq_Equivalence HP r).
  split.
  - apply drop_duplicates_from_subset.
  - intros H.
    destruct (DuplicateFacts.drop_duplicates_from_InA A [] r H) as [Hs|Hk];
      [inversion Hs | exact Hk].
Qed.

(** X4. On a table without two equal rows, whose numbers, like the Top
    and Bottom passed, are numbers the columns hold as passed,
    [add_interval] adds one row when the record is new and none when an
    equal record is stored. *)
Theorem add_interval_length (pd : DataFrame.Pandas)
    (Well_intervals : DataFrame.t) (self : Well)
    (top bottom : Q) (lithology description : string) :
  Forall (kept pd)
    (mkRow lithology top bottom description
       :: DataFrame.rows (intervals Well_intervals self)) ->
  NoDupA Row_eq (DataFrame.rows (intervals Well_intervals self)) ->
  length
    (intervals Well_intervals
       (add_interval pd Well_intervals self top bottom lithology description)) =
  if existsb (Row_eqb (mkRow lithology top bottom description))
       (DataFrame.rows (intervals Well_intervals self))
  then length (intervals Well_intervals self)
  else S (length (intervals Well_intervals self)).
Proof.
  intros Hkept Hnd. inversion Hkept as [|? ? Hu _]; subst.
  rewrite intervals_add_interval.
  rewrite (Permutation_length (DataFrame.sort_values_permutes pd _)).
  rewrite (DuplicateFacts.append_kept pd _ _ Hu).
  unfold DataFrame.drop_duplicates.
  set (u := mkRow lithology top bottom description) in *.
  assert (length (DataFrame.rows (intervals Well_intervals self)) =
          length (intervals Well_intervals self)) as Hlen
    by apply length_map.
  destruct (existsb (Row_eqb u)
              (DataFrame.rows (intervals Well_intervals self))) eqn:E.
  - rewrite DuplicateFacts.drop_duplicates_from_stored_frame.
    + rewrite length_number_from. exact Hlen.
    + exact Hnd.
    + intros r _ H. inversion H.
    + apply existsb_Row_eqb_InA. exact E.
  - rewrite DuplicateFacts.drop_duplicates_from_new_frame.
    + rewrite length_number_from, length_app, Hlen. simpl. lia.
    + exact Hnd.
    + intros r _ H. inversion H.
    + apply existsb_Row_eqb_not_InA. exact E.
Qed.

Lemma add_interval_length_witness :
  Forall (kept pandas16)
    (mkRow "Bedrock" 5 9 no_desc
       :: DataFrame.rows (intervals DataFrame.empty well_Clay_Till)) /\
  NoDupA Row_eq (DataFrame.rows (intervals DataFrame.empty well_Clay_Till)) /\
  length
    (intervals DataFrame.empty
       (add_interval pandas16 DataFrame.empty well_Clay_Till 5 9 "Bedrock"
           no_desc)) =
  if existsb (Row_eqb (mkRow "Bedrock" 5 9 no_desc))
       (DataFrame.rows (intervals DataFrame.empty well_Clay_Till))
  then length (intervals DataFrame.empty well_Clay_Till)
  else S (length (intervals DataFrame.empty well_Clay_Till)).
Proof.
  assert (NoDupA Row_eq
            (DataFrame.rows (intervals DataFrame.empty well_Clay_Till)))
    as H by (apply (built_NoDupA pandas16), built_well_Clay_Till).
  assert (Forall (kept pandas16)
            (mkRow "Bedrock" 5 9 no_desc
               :: DataFrame.rows (intervals DataFrame.empty well_Clay_Till)))
    as Hk by (repeat constructor).
  split; [exact Hk|]. split; [exact H|].
  exact (add_interval_length pandas16 DataFrame.empty well_Clay_Till 5 9
           "Bedrock" no_desc Hk H).
Defined.

(** Silt 3.5-5 added to the well that holds Clay 0-2 and Till 2-5. *)
Lemma add_interval_stores_witness :
  Forall (kept pandas16)
    (mkRow "Silt" (7 # 2) 5 no_desc
       :: DataFrame.rows (intervals DataFrame.empty well_Clay_Till)) /\
  (InA Row_eq (mkRow "Till" 2 5 no_desc)
     (DataFrame.rows
        (intervals DataFrame.empty
           (add_interval pandas16 DataFrame.empty well_Clay_Till (7 # 2) 5
              "Silt" no_desc))) <->
   InA Row_eq (mkRow "Till" 2 5 no_desc)
     (DataFrame.rows (intervals DataFrame.empty well_Clay_Till)) \/
   Row_eq (mkRow "Till" 2 5 no_desc) (mkRow "Silt" (7 # 2) 5 no_desc)).
Proof.
  assert (Forall (kept pandas16)
            (mkRow "Silt" (7 # 2) 5 no_desc
               :: DataFrame.rows (intervals DataFrame.empty well_Clay_Till)))
    as Hk by (repeat constructor).
  split; [exact Hk|].
  exact (add_interval_stores pandas16 DataFrame.empty well_Clay_Till (7 # 2)
           5 "Silt" no_desc (mkRow "Till" 2 5 no_desc) Hk).
Defined.

(** ** Removing the same layer number again *)

Lemma existsb_filter_negb {A} (f g : A -> bool) (l : list A) :
  existsb f (List.filter g (List.filter (fun x => negb (f x)) l)) = false.
Proof.
  induction l as [|a l IH]; simpl; [reflexivity|].
  destruct (f a) eqn:E; simpl; [exact IH|].
  destruct (g a); simpl; [rewrite E|]; exact IH.
Qed.

(** X5. Once [remove_interval(layNum=k, ...)] has returned, no row is
    labelled k: calling [remove_interval] with the same layNum again, with
    or without a lithology, raises the KeyError of [drop]. *)
Theorem remove_interval_again_raises (Well_intervals : DataFrame.t)
    (self self' : Well) (k : Z) (lithology lithology' : option string) :
  remove_interval Well_intervals self (Some k) lithology = Ok self' ->
  remove_interval Well_intervals self' (Some k) lithology' =
    Raise (KeyError_not_in_axis k).
Proof.
  intros H.
  assert (existsb (DataFrame.has_label k) (intervals Well_intervals self')
          = false) as E.
  { revert H. unfold remove_interval, DataFrame.drop.
    destruct (existsb (DataFrame.has_label k)
                (intervals Well_intervals self)); [|destruct lithology;
                                                    discriminate].
    destruct lithology as [L|]; intros H; injection H as <-;
      rewrite intervals_set_intervals.
    - rewrite intervals_set_intervals.
      apply (existsb_filter_negb (DataFrame.has_label k)).
    - rewrite <- (filter_all (fun _ => true)
                    (List.filter _ (intervals Well_intervals self)))
        by reflexivity.
      apply (existsb_filter_negb (DataFrame.has_label k)). }
  unfold remove_interval, DataFrame.drop. rewrite E.
  destruct lithology'; reflexivity.
Qed.

Lemma remove_interval_again_raises_witness :
  remove_interval DataFrame.empty well_Clay_Till (Some 0%Z) None =
    Ok (set_intervals well_Clay_Till [(1, mkRow "Clay" 0 2 no_desc)]) /\
  remove_interval DataFrame.empty
    (set_intervals well_Clay_Till [(1, mkRow "Clay" 0 2 no_desc)])
    (Some 0%Z) (Some "Clay"%string) = Raise (KeyError_not_in_axis 0).
Proof.
  assert (remove_interval DataFrame.empty well_Clay_Till (Some 0%Z) None =
          Ok (set_intervals well_Clay_Till [(1, mkRow "Clay" 0 2 no_desc)]))
    as H by reflexivity.
  split; [exact H|].
  exact (remove_interval_again_raises DataFrame.empty well_Clay_Till _ 0%Z
           None (Some "Clay"%string) H).
Defined.

(** ** The order of two calls of add_interval *)

(** Adding a record that is new to a table without equal rows: the rows
    afterwards are the old rows and the new one. *)
Lemma add_interval_new_Permutation (pd : DataFrame.Pandas)
    (Well_intervals : DataFrame.t)
    (self : Well) (top bottom : Q) (lithology description : string) :
  kept pd (mkRow lithology top bottom description) ->
  NoDupA Row_eq (DataFrame.rows (intervals Well_intervals self)) ->
  ~ InA Row_eq (mkRow lithology top bottom description)
      (DataFrame.rows (intervals Well_intervals self)) ->
  Permutation
    (DataFrame.rows
       (intervals Well_intervals
          (add_interval pd Well_intervals self top bottom lithology
             description)))
    (mkRow lithology top bottom description
       :: DataFrame.rows (intervals Well_intervals self)).
Proof.
  intros Hu Hnd Hnew. rewrite intervals_add_interval.
  rewrite (DuplicateFacts.append_kept pd _ _ Hu).
  unfold DataFrame.drop_duplicates.
  rewrite DuplicateFacts.drop_duplicates_from_new_frame.
  - rewrite (Permutation_map snd
               (DataFrame.sort_values_permutes pd _)).
    fold (DataFrame.rows
            (DataFrame.number_from 0
               (DataFrame.rows (intervals Well_intervals self) ++
                [mkRow lithology top bottom description]))).
    rewrite DataFrameFacts.rows_number_from.
    symmetry. apply Permutation_cons_append.
  - exact Hnd.
  - intros r _ H. inversion H.
  - exact Hnew.
Qed.

Lemma add_two_Permutation (pd : DataFrame.Pandas)
    (Well_intervals : DataFrame.t) (self : Well)
    (a b : Row) :
  kept pd a -> kept pd b ->
  NoDupA Top_eq (b :: a :: DataFrame.rows (intervals Well_intervals self)) ->
  Permutation
    (DataFrame.rows
       (intervals Well_intervals
          (add_interval pd Well_intervals
             (add_interval pd Well_intervals self (Top a) (Bottom a)
                (Lithology a) (Description a))
             (Top b) (Bottom b) (Lithology b) (Description b))))
    (b :: a :: DataFrame.rows (intervals Well_intervals self)).
Proof.
  intros Hka Hkb H. apply NoDupA_Top_eq_Row_eq in H.
  inversion H as [|? ? Hb H']; subst.
  inversion H' as [|? ? Ha Hnd]; subst.
  assert (mkRow (Lithology a) (Top a) (Bottom a) (Description a) = a)
    as Ea by (destruct a; reflexivity).
  assert (mkRow (Lithology b) (Top b) (Bottom b) (Description b) = b)
    as Eb by (destruct b; reflexivity).
  pose proof (add_interval_new_Permutation pd Well_intervals self (Top a)
                (Bottom a) (Lithology a) (Description a)) as P1.
  rewrite Ea in P1. specialize (P1 Hka Hnd Ha).
  set (w1 := add_interval pd Well_intervals self (Top a) (Bottom a)
               (Lithology a) (Description a)) in *.
  pose proof (add_interval_new_Permutation pd Well_intervals w1 (Top b)
                (Bottom b) (Lithology b) (Description b)) as P2.
  rewrite Eb in P2.
  specialize (P2 Hkb (add_interval_NoDupA pd Well_intervals self _ _ _ _)).
  rewrite P2.
  - apply perm_skip. exact P1.
  - intros Hin. apply Hb.
    apply (PermutationA_equivlistA Row_eq_Equivalence
             (Permutation_PermutationA Row_eq_Equivalence P1) b).
    exact Hin.
Qed.

(** X6. When the Tops of the stored rows and of two new intervals are
    pairwise different, and all their numbers are numbers the columns
    hold as passed, the records stored after adding the two intervals,
    and their order, do not depend on which is added first. *)
Theorem add_interval_order_irrelevant (pd : DataFrame.Pandas)
    (Well_intervals : DataFrame.t)
    (self : Well) (a b : Row) :
  Forall (kept pd)
    (b :: a :: DataFrame.rows (intervals Well_intervals self)) ->
  NoDupA Top_eq (b :: a :: DataFrame.rows (intervals Well_intervals self)) ->
  DataFrame.rows
    (intervals Well_intervals
       (add_interval pd Well_intervals
          (add_interval pd Well_intervals self (Top a) (Bottom a)
             (Lithology a) (Description a))
          (Top b) (Bottom b) (Lithology b) (Description b))) =
  DataFrame.rows
    (intervals Well_intervals
       (add_interval pd Well_intervals
          (add_interval pd Well_intervals self (Top b) (Bottom b)
             (Lithology b) (Description b))
          (Top a) (Bottom a) (Lithology a) (Description a))).
Proof.
  intros Hkept H.
  inversion Hkept as [|? ? Hkb Hkept']; subst.
  inversion Hkept' as [|? ? Hka _]; subst.
  assert (NoDupA Top_eq
            (a :: b :: DataFrame.rows (intervals Well_intervals self)))
    as H'.
  { apply (PermutationA_preserves_NoDupA Top_eq_Equivalence
             (Permutation_PermutationA Top_eq_Equivalence
                (perm_swap a b _)) H). }
  pose proof (add_two_Permutation pd Well_intervals self a b Hka Hkb H)
    as P1.
  pose proof (add_two_Permutation pd Well_intervals self b a Hkb Hka H')
    as P2.
  apply rows_sorted_unique.
  - apply sorted_by_Top_rows. rewrite intervals_add_interval.
    apply DataFrameFacts.sort_values_sorted.
  - apply sorted_by_Top_rows. rewrite intervals_add_interval.
    apply DataFrameFacts.sort_values_sorted.
  - rewrite P1, P2. apply perm_swap.
  - apply (PermutationA_preserves_NoDupA Top_eq_Equivalence
             (Permutation_PermutationA Top_eq_Equivalence
                (Permutation_sym P1)) H).
Qed.

Lemma add_interval_order_irrelevant_witness :
  Forall (kept pandas16)
    [mkRow "Bedrock" 5 9 no_desc; mkRow "Silt" (7 # 2) 5 no_desc;
     mkRow "Clay" 0 2 no_desc; mkRow "Till" 2 5 no_desc] /\
  NoDupA Top_eq
    [mkRow "Bedrock" 5 9 no_desc; mkRow "Silt" (7 # 2) 5 no_desc;
     mkRow "Clay" 0 2 no_desc; mkRow "Till" 2 5 no_desc] /\
  DataFrame.rows
    (intervals DataFrame.empty
       (add_interval pandas16 DataFrame.empty
          (add_interval pandas16 DataFrame.empty well_Clay_Till (7 # 2) 5 "Silt"
             no_desc) 5 9 "Bedrock" no_desc)) =
  DataFrame.rows
    (intervals DataFrame.empty
       (add_interval pandas16 DataFrame.empty
          (add_interval pandas16 DataFrame.empty well_Clay_Till 5 9 "Bedrock"
             no_desc) (7 # 2) 5 "Silt" no_desc)).
Proof.
  assert (NoDupA Top_eq
            (mkRow "Bedrock" 5 9 no_desc :: mkRow "Silt" (7 # 2) 5 no_desc
               :: DataFrame.rows (intervals DataFrame.empty well_Clay_Till)))
    as H.
  { repeat constructor; intros Hin;
      repeat (inversion Hin as [? ? Heq|? ? Hin']; subst;
              [vm_compute in Heq; discriminate | clear Hin; rename Hin' into Hin]);
      inversion Hin. }
  assert (Forall (kept pandas16)
            (mkRow "Bedrock" 5 9 no_desc :: mkRow "Silt" (7 # 2) 5 no_desc
               :: DataFrame.rows (intervals DataFrame.empty well_Clay_Till)))
    as Hk by (repeat constructor).
  split; [exact Hk|]. split; [exact H|].
  exact (add_interval_order_irrelevant pandas16 DataFrame.empty
           well_Clay_Till (mkRow "Silt" (7 # 2) 5 no_desc)
           (mkRow "Bedrock" 5 9 no_desc) Hk H).
Defined.

(** ** What plotWell draws *)

Lemma bind_inv_Ok {A B} (m : M A) (k : A -> M B) (p p' : Plt) (b : B) :
  bind m k p = (p', Ok b) ->
  exists a p1, m p = (p1, Ok a) /\ k a p1 = (p', Ok b).
Proof.
  unfold bind. destruct (m p) as [p1 [a|e]]; intros H.
  - exists a, p1. split; [reflexivity | exact H].
  - discriminate H.
Qed.

Section WellDraws.

Variable Well_intervals : DataFrame.t.
Variables (self : Well) (description : bool).

Lemma plotWell_body_ok (i : nat) (x : nat * Row) (st : Style) (p : Plt) :
  nth_error (intervals Well_intervals self) i = Some x ->
  plotTemplates !! Lithology (snd x) = Some st ->
  plotWell_body Well_intervals self description tt i p =
    ((if description
      then add_text (add_patch p (well_patch (snd x) st)) (well_text (snd x))
      else add_patch p (well_patch (snd x) st)), Ok tt).
Proof.
  intros Hi Hst.
  unfold plotWell_body, bind, lift, DataFrame.iloc, plotTemplates_getitem.
  rewrite Hi, Hst. destruct description; reflexivity.
Qed.

(** The loop of [plotWell] over labels that are all positions of rows
    with a style: one rectangle per label, in the order of the labels,
    and one description text per label when asked for. *)
Lemma plotWell_loop_ok (ls : list nat) :
  (forall i, In i ls ->
     exists x st, nth_error (intervals Well_intervals self) i = Some x /\
                  plotTemplates !! Lithology (snd x) = Some st) ->
  forall p : Plt,
  exists p' P T,
    for_each ls (plotWell_body Well_intervals self description) tt p =
      (p', Ok tt) /\
    patches (ax p') = patches (ax p) ++ P /\
    texts (ax p') = texts (ax p) ++ T /\
    Forall2 (fun i pa =>
               exists x st,
                 nth_error (intervals Well_intervals self) i = Some x /\
                 plotTemplates !! Lithology (snd x) = Some st /\
                 pa = well_patch (snd x) st) ls P /\
    (if description
     then Forall2 (fun i tx =>
                     exists x,
                       nth_error (intervals Well_intervals self) i = Some x /\
                       tx = well_text (snd x)) ls T
     else T = []).
Proof.
  induction ls as [|i ls IH]; intros Hls p.
  - exists p, [], []. rewrite !app_nil_r.
    repeat split; try constructor. destruct description; constructor.
  - destruct (Hls i (or_introl eq_refl)) as (x & st & Hx & Hst).
    set (p1 := if description
               then add_text (add_patch p (well_patch (snd x) st))
                      (well_text (snd x))
               else add_patch p (well_patch (snd x) st)).
    destruct (IH (fun j Hj => Hls j (or_intror Hj)) p1)
      as (p' & P & T & Hrun & HP & HT & HF & HFT).
    exists p', (well_patch (snd x) st :: P),
      (if description then well_text (snd x) :: T else T).
    split; [|split; [|split; [|split]]].
    + simpl for_each.
      rewrite (bind_Ok _ _ _ _ _ (plotWell_body_ok i x st p Hx Hst)).
      exact Hrun.
    + rewrite HP. unfold p1. destruct description; simpl;
        rewrite <- app_assoc; reflexivity.
    + rewrite HT. unfold p1. destruct description; simpl;
        [rewrite <- app_assoc|]; reflexivity.
    + constructor; [|exact HF]. exists x, st. repeat split; assumption.
    + destruct description; [|exact HFT].
      constructor; [|exact HFT]. exists x. split; [exact Hx | reflexivity].
Qed.

End WellDraws.

(** X7. On a well with at least one interval, labels 0 .. n-1 in some
    order and only lithologies of the style table, and, with [save], a
    name whose file name [savefig] takes, [plotWell] returns
    normally with exactly one rectangle per stored interval, in the
    order of the index labels, each of width 1 with corners at depths
    Top, Bottom, Bottom, Top and the style of its lithology; with
    [description] it writes each interval's description at x = 1.1 and
    y = Top, and without it no text at all. *)
Theorem plotWell_draws_every_interval (Well_intervals : DataFrame.t)
    (savefig_error : string -> option exn)
    (self : Well) (description hatch legend : bool)
    (figTitle : option string) (save : bool) (p : Plt) :
  renderable Well_intervals self ->
  intervals Well_intervals self <> [] ->
  savefig_accepts savefig_error save (replace_spaces (name self)) ->
  exists p',
    plotWell Well_intervals savefig_error self description hatch legend
      figTitle save p = (p', Ok tt) /\
    Forall2 (fun i pa =>
               exists x st,
                 nth_error (intervals Well_intervals self) i = Some x /\
                 plotTemplates !! Lithology (snd x) = Some st /\
                 pa = well_patch (snd x) st)
      (DataFrame.index (intervals Well_intervals self)) (patches (ax p')) /\
    (if description
     then Forall2 (fun i tx =>
                     exists x,
                       nth_error (intervals Well_intervals self) i = Some x /\
                       tx = well_text (snd x))
            (DataFrame.index (intervals Well_intervals self))
            (texts (ax p'))
     else texts (ax p') = []).
Proof.
  intros Hr Hne Hsave.
  destruct (plotWell_loop_ok Well_intervals self description
              (DataFrame.index (intervals Well_intervals self))
              (renderable_labels Well_intervals self Hr)
              (fst (plt.subplots p)))
    as (p1 & P & T & Hrun & HP & HT & HF & HFT).
  simpl in HP, HT.
  destruct (intervals Well_intervals self) as [|y df] eqn:E;
    [elim Hne; reflexivity|].
  destruct (plotWell_finish_keeps savefig_error self (Top (snd y))
              (Bottom (snd (List.last df y))) legend save Hsave p1)
    as (p' & Hfin & Hpa & Htx).
  exists p'. split; [|split].
  - unfold plotWell. rewrite E.
    rewrite (bind_Ok _ _ _ _ _
               (eq_refl : lift (DataFrame.iloc (y :: df) 0) p = (p, Ok _))).
    rewrite (bind_Ok _ _ _ _ _
               (eq_refl : lift (DataFrame.iloc_last (y :: df)) p
                          = (p, Ok _))).
    rewrite (bind_Ok _ _ _ _ _ (eq_refl : plt.subplots p = (_, Ok tt))).
    rewrite (bind_Ok _ _ _ _ _ Hrun). exact Hfin.
  - rewrite Hpa, HP. exact HF.
  - rewrite Htx, HT. exact HFT.
Qed.

Lemma renderable_well_Clay_Till : renderable DataFrame.empty well_Clay_Till.
Proof.
  split.
  - apply perm_swap.
  - repeat constructor; vm_compute; eexists; reflexivity.
Qed.

Lemma plotWell_draws_every_interval_witness :
  renderable DataFrame.empty well_Clay_Till /\
  intervals DataFrame.empty well_Clay_Till <> [] /\
  savefig_accepts Agg_format_error true
    (replace_spaces (name well_Clay_Till)) /\
  exists p',
    plotWell DataFrame.empty Agg_format_error well_Clay_Till true true false
      None true plt0 = (p', Ok tt) /\
    Forall2 (fun i pa =>
               exists x st,
                 nth_error (intervals DataFrame.empty well_Clay_Till) i
                   = Some x /\
                 plotTemplates !! Lithology (snd x) = Some st /\
                 pa = well_patch (snd x) st)
      (DataFrame.index (intervals DataFrame.empty well_Clay_Till))
      (patches (ax p')) /\
    Forall2 (fun i tx =>
               exists x,
                 nth_error (intervals DataFrame.empty well_Clay_Till) i
                   = Some x /\
                 tx = well_text (snd x))
      (DataFrame.index (intervals DataFrame.empty well_Clay_Till))
      (texts (ax p')).
Proof.
  assert (intervals DataFrame.empty well_Clay_Till <> []) as Hne
    by (simpl; discriminate).
  assert (savefig_accepts Agg_format_error true
            (replace_spaces (name well_Clay_Till))) as Hs
    by (intros _; reflexivity).
  split; [exact renderable_well_Clay_Till|]. split; [exact Hne|].
  split; [exact Hs|].
  exact (plotWell_draws_every_interval DataFrame.empty Agg_format_error
           well_Clay_Till true true false None true plt0
           renderable_well_Clay_Till Hne Hs).
Defined.

(** ** What the renderers leave besides the drawing *)

Section Cosmetics.

Variable Well_intervals : DataFrame.t.
Variable savefig_error : string -> option exn.

Lemma plotWell_body_cosmetics (self : Well) (description : bool) (c : _)
    (u : unit) (i : nat) (p : Plt) :
  cosmetics p = c ->
  cosmetics (fst (plotWell_body Well_intervals self description u i p)) = c.
Proof.
  intros <-.
  unfold plotWell_body, bind, lift, DataFrame.iloc, plotTemplates_getitem.
  destruct (nth_error (intervals Well_intervals self) i) as [x|];
    [|reflexivity].
  destruct (plotTemplates !! Lithology (snd x)) as [st|]; [|reflexivity].
  destruct description; reflexivity.
Qed.

Lemma plotSection_body_cosmetics (w : Well) (width : Q) (c : _)
    (xx : option Q) (i : nat) (p : Plt) :
  cosmetics p = c ->
  cosmetics (fst (plotSection_body Well_intervals w width xx i p)) = c.
Proof.
  intros <-.
  unfold plotSection_body, bind, lift, DataFrame.iloc,
    plotTemplates_getitem.
  destruct (nth_error (intervals Well_intervals w) i) as [x|];
    [|reflexivity].
  destruct (plotTemplates !! Lithology (snd x)) as [st|]; reflexivity.
Qed.

Lemma plotSection_well_cosmetics (width wellLabelHeight : Q) (c : _)
    (xx : option Q) (w : Well) (p : Plt) :
  cosmetics p = c ->
  cosmetics
    (fst (plotSection_well Well_intervals width wellLabelHeight xx w p)) = c.
Proof.
  intros Hp. unfold plotSection_well, bind.
  pose proof (for_each_invariant (fun q => cosmetics q = c)
                (plotSection_body Well_intervals w width)
                (DataFrame.index (intervals Well_intervals w))
                (fun s i q _ Hq =>
                   plotSection_body_cosmetics w width c s i q Hq)
                xx p Hp) as H.
  destruct (for_each _ _ xx p) as [p1 [[v|]|e]]; simpl in *; exact H.
Qed.

Lemma plotWell_finish_outputs (self : Well) (top bttm : Q)
    (with_legend save : bool) (p : Plt) :
  let r := plotWell_finish savefig_error self top bttm with_legend save p in
  snd r = Ok tt ->
  cosmetics (fst r) =
    (fig_open p,
     saved p ++ (if save then [(replace_spaces (name self), 175%Z)] else []),
     S (shown p),
     (Some 1%Q, Some (1 # 4)%Q, Some (top, bttm),
      negb (yaxis_inverted (ax p)), yaxis_grid (ax p)),
     (xlabel (ax p), "Depth [m]"%string,
      (if save then Some (name self) else title (ax p)),
      (if with_legend then Some (Ax.OrderedDict_zip (legend_handles_labels p))
       else legend (ax p)))).
Proof.
  unfold plotWell_finish, bind, plt.savefig, plt.show.
  destruct with_legend, save; simpl;
    try destruct (savefig_error (replace_spaces (name self)));
    simpl; intros H; try discriminate H;
    unfold cosmetics; simpl; rewrite ?app_nil_r; reflexivity.
Qed.

Lemma plotSection_finish_outputs (grid save : bool) (title' : string)
    (north elev : bool) (p : Plt) :
  let r := plotSection_finish savefig_error grid save title' north elev p in
  snd r = Ok tt ->
  cosmetics (fst r) =
    (fig_open p,
     saved p ++ (if save then [(replace_spaces title', 300%Z)] else []),
     S (shown p),
     (Some 1%Q, Some (1 # 4)%Q, ylim (ax p), yaxis_inverted (ax p),
      (if grid then true else yaxis_grid (ax p))),
     ((if north then "Northing [m]" else "Easting [m]")%string,
      (if elev then "Elevation [m]" else "Depth [m]")%string,
      title (ax p),
      Some (Ax.OrderedDict_zip (legend_handles_labels p)))).
Proof.
  unfold plotSection_finish, bind, plt.savefig, plt.show.
  destruct grid, save, north, elev; simpl;
    try destruct (savefig_error (replace_spaces title'));
    simpl; intros H; try discriminate H;
    unfold cosmetics; simpl; rewrite ?app_nil_r; reflexivity.
Qed.

End Cosmetics.

Lemma legend_handles_labels_patches (p q : Plt) :
  patches (ax q) = patches (ax p) ->
  legend_handles_labels q = legend_handles_labels p.
Proof. unfold legend_handles_labels. intros ->. reflexivity. Qed.

(** X8. Whenever [plotWell] returns normally it has shown the figure
    once, and saved it, only with [save], as one file at dpi 175 named by
    the well's name with each space replaced by an underscore. The title
    is the well's name with [save] and none otherwise, whatever
    [figTitle] is; [set_ylim] got the first row's Top and the last row's
    Bottom, [invert_yaxis] was called once, the y label is Depth [m]; the
    legend is there only with [legend], built from the handles and labels
    of the axes. *)
Theorem plotWell_outputs (Well_intervals : DataFrame.t)
    (savefig_error : string -> option exn) (self : Well)
    (description hatch with_legend : bool) (figTitle : option string)
    (save : bool) (p p' : Plt) :
  plotWell Well_intervals savefig_error self description hatch with_legend
    figTitle save p = (p', Ok tt) ->
  exists first last,
    DataFrame.iloc (intervals Well_intervals self) 0 = Ok first /\
    DataFrame.iloc_last (intervals Well_intervals self) = Ok last /\
    shown p' = S (shown p) /\
    saved p' =
      saved p ++
      (if save then [(replace_spaces (name self), 175%Z)] else []) /\
    title (ax p') = (if save then Some (name self) else None) /\
    ylim (ax p') = Some (Top first, Bottom last) /\
    yaxis_inverted (ax p') = true /\
    ylabel (ax p') = "Depth [m]"%string /\
    legend (ax p') =
      (if with_legend
       then Some (Ax.OrderedDict_zip (legend_handles_labels p'))
       else None).
Proof.
  unfold plotWell. intros H.
  apply bind_inv_Ok in H. destruct H as (first & q & H1 & H).
  unfold lift in H1. injection H1 as <- H1.
  apply bind_inv_Ok in H. destruct H as (last & q & H2 & H).
  unfold lift in H2. injection H2 as <- H2.
  apply bind_inv_Ok in H. destruct H as (u & q & H3 & H).
  injection H3 as <- _.
  apply bind_inv_Ok in H. destruct H as (u' & p2 & Hloop & H).
  match type of Hloop with
  | for_each _ _ _ ?Q = _ =>
      pose proof (for_each_invariant
                    (fun q => cosmetics q = cosmetics Q)
                    (plotWell_body Well_intervals self description)
                    (DataFrame.index (intervals Well_intervals self))
                    (fun s i q _ Hq =>
                       plotWell_body_cosmetics Well_intervals self
                         description _ s i q Hq)
                    tt Q eq_refl) as Hcos
  end.
  rewrite Hloop in Hcos. simpl fst in Hcos.
  unfold cosmetics in Hcos. simpl in Hcos.
  injection Hcos as Hfig Hsaved Hshown Hmaj Hmin Hylim Hinv Hgrid Hxl Hyl
    Hti Hleg.
  pose proof (plotWell_finish_outputs savefig_error self (Top first)
                (Bottom last) with_legend save p2) as Hout.
  cbv zeta in Hout. rewrite H in Hout. specialize (Hout eq_refl).
  simpl fst in Hout.
  destruct (plotWell_finish_draws_nothing savefig_error self (Top first)
              (Bottom last) with_legend save p2) as [Hpa _].
  rewrite H in Hpa. simpl fst in Hpa.
  unfold cosmetics in Hout.
  injection Hout as _ Hsaved' Hshown' _ _ Hylim' Hinv' _ _ Hyl' Hti' Hleg'.
  exists first, last.
  rewrite Hshown', Hsaved', Hti', Hylim', Hinv', Hyl', Hleg'.
  rewrite Hshown, Hsaved, Hti, Hinv, Hleg.
  rewrite (legend_handles_labels_patches p2 p' Hpa).
  repeat split; try assumption; try reflexivity.
Qed.

Lemma plotWell_outputs_witness :
  let p' := fst (plotWell DataFrame.empty Agg_format_error well_Clay_Till
                   true true true None true plt0) in
  plotWell DataFrame.empty Agg_format_error well_Clay_Till true true true
    None true plt0 = (p', Ok tt) /\
  exists first last,
    DataFrame.iloc (intervals DataFrame.empty well_Clay_Till) 0 = Ok first /\
    DataFrame.iloc_last (intervals DataFrame.empty well_Clay_Till)
      = Ok last /\
    shown p' = S (shown plt0) /\
    saved p' =
      saved plt0 ++ [(replace_spaces (name well_Clay_Till), 175%Z)] /\
    title (ax p') = Some (name well_Clay_Till) /\
    ylim (ax p') = Some (Top first, Bottom last) /\
    yaxis_inverted (ax p') = true /\
    ylabel (ax p') = "Depth [m]"%string /\
    legend (ax p') = Some (Ax.OrderedDict_zip (legend_handles_labels p')).
Proof.
  intros p'.
  assert (plotWell DataFrame.empty Agg_format_error well_Clay_Till true true
            true None true plt0 = (p', Ok tt)) as H
    by (vm_compute; reflexivity).
  split; [exact H|].
  exact (plotWell_outputs DataFrame.empty Agg_format_error well_Clay_Till
           true true true None true plt0 p' H).
Defined.

(** X9. Whenever [plotSection] returns normally it has shown the figure
    once, and saved it, only with [save], as one file at dpi 300 named by
    [title] with each space replaced by an underscore. [title] is never
    drawn as the figure title; neither [set_ylim] nor [invert_yaxis] is
    called; the x label is Northing or Easting by [north], the y label
    Elevation or Depth by [elevation], the grid is on only with [grid],
    and the legend is always built from the handles and labels of the
    axes. *)
Theorem plotSection_outputs (Well_intervals : DataFrame.t)
    (savefig_error : string -> option exn)
    (wells : list Well) (width : Q) (grid save : bool) (title' : string)
    (north elev : bool) (wellLabelHeight : Q) (p p' : Plt) :
  plotSection Well_intervals savefig_error wells width grid save title'
    north elev wellLabelHeight p = (p', Ok tt) ->
  shown p' = S (shown p) /\
  saved p' =
    saved p ++ (if save then [(replace_spaces title', 300%Z)] else []) /\
  title (ax p') = None /\
  ylim (ax p') = None /\
  yaxis_inverted (ax p') = false /\
  yaxis_grid (ax p') = grid /\
  xlabel (ax p') = (if north then "Northing [m]" else "Easting [m]")%string /\
  ylabel (ax p') = (if elev then "Elevation [m]" else "Depth [m]")%string /\
  legend (ax p') = Some (Ax.OrderedDict_zip (legend_handles_labels p')).
Proof.
  unfold plotSection. intros H.
  apply bind_inv_Ok in H. destruct H as (u & q & H3 & H).
  injection H3 as <- _.
  apply bind_inv_Ok in H. destruct H as (xx & p2 & Hloop & H).
  match type of Hloop with
  | for_each _ _ _ ?Q = _ =>
      pose proof (for_each_invariant
                    (fun q => cosmetics q = cosmetics Q)
                    (plotSection_well Well_intervals width wellLabelHeight)
                    wells
                    (fun s w q _ Hq =>
                       plotSection_well_cosmetics Well_intervals width
                         wellLabelHeight _ s w q Hq)
                    None Q eq_refl) as Hcos
  end.
  rewrite Hloop in Hcos. simpl fst in Hcos.
  unfold cosmetics in Hcos. simpl in Hcos.
  injection Hcos as Hfig Hsaved Hshown Hmaj Hmin Hylim Hinv Hgrid Hxl Hyl
    Hti Hleg.
  pose proof (plotSection_finish_outputs savefig_error grid save title'
                north elev p2) as Hout.
  cbv zeta in Hout. rewrite H in Hout. specialize (Hout eq_refl).
  simpl fst in Hout.
  destruct (plotSection_finish_draws_nothing savefig_error grid save title'
              north elev p2) as [Hpa _].
  rewrite H in Hpa. simpl fst in Hpa.
  unfold cosmetics in Hout.
  injection Hout as _ Hsaved' Hshown' _ _ Hylim' Hinv' Hgrid' Hxl' Hyl'
    Hti' Hleg'.
  rewrite Hshown', Hsaved', Hti', Hylim', Hinv', Hgrid', Hxl', Hyl', Hleg'.
  rewrite Hshown, Hsaved, Hti, Hinv, Hylim, Hgrid.
  rewrite (legend_handles_labels_patches p2 p' Hpa).
  repeat split; try reflexivity. destruct grid; reflexivity.
Qed.

Lemma plotSection_outputs_witness :
  let p' := fst (plotSection DataFrame.empty Agg_format_error
                   [well_100; well_Clay_Till] 5 true true "Cross section A"
                   false true (3 # 2) plt0) in
  plotSection DataFrame.empty Agg_format_error [well_100; well_Clay_Till] 5
    true true "Cross section A" false true (3 # 2) plt0 = (p', Ok tt) /\
  shown p' = S (shown plt0) /\
  saved p' = saved plt0 ++ [(replace_spaces "Cross section A", 300%Z)] /\
  title (ax p') = None /\
  ylim (ax p') = None /\
  yaxis_inverted (ax p') = false /\
  yaxis_grid (ax p') = true /\
  xlabel (ax p') = "Easting [m]"%string /\
  ylabel (ax p') = "Elevation [m]"%string /\
  legend (ax p') = Some (Ax.OrderedDict_zip (legend_handles_labels p')).
Proof.
  intros p'.
  assert (plotSection DataFrame.empty Agg_format_error [well_100;
      well_Clay_Till] 5 true true
            "Cross section A" false true (3 # 2) plt0 = (p', Ok tt)) as H
    by (vm_compute; reflexivity).
  split; [exact H|].
  exact (plotSection_outputs DataFrame.empty Agg_format_error
           [well_100; well_Clay_Till] 5 true true "Cross section A" false
           true (3 # 2) plt0 p' H).
Defined.

(** X10. The options [grid], [save], [title], [north] and [elevation] of
    [plotSection] change neither the rectangles nor the name labels: with
    [elevation] off the y label reads Depth while the rectangles stay at
    the same elevations. [grid], [north] and [elevation] do not change
    whether it raises either; [save] and [title] can, through
    [savefig]. *)
Theorem plotSection_options_keep_drawing (Well_intervals : DataFrame.t)
    (savefig_error : string -> option exn)
    (wells : list Well) (width wellLabelHeight : Q)
    (grid save north elev grid' save' north' elev' : bool)
    (title' title'' : string) (p : Plt) :
  let r := plotSection Well_intervals savefig_error wells width grid save
             title' north elev wellLabelHeight p in
  let r' := plotSection Well_intervals savefig_error wells width grid' save'
              title'' north' elev' wellLabelHeight p in
  let r'' := plotSection Well_intervals savefig_error wells width grid' save
               title' north' elev' wellLabelHeight p in
  patches (ax (fst r)) = patches (ax (fst r')) /\
  texts (ax (fst r)) = texts (ax (fst r')) /\
  snd r = snd r''.
Proof.
  unfold plotSection.
  rewrite !(bind_Ok _ _ _ _ _ (eq_refl : plt.subplots p = (_, Ok tt))).
  destruct (for_each wells
              (plotSection_well Well_intervals width wellLabelHeight) None
              (fst (plt.subplots p))) as [p1 [xx|e]] eqn:E.
  - rewrite !(bind_Ok _ _ _ _ _ E).
    destruct (plotSection_finish_draws_nothing savefig_error grid save
                title' north elev p1) as [Hpa Htx].
    destruct (plotSection_finish_draws_nothing savefig_error grid' save'
                title'' north' elev' p1) as [Hpa' Htx'].
    split; [congruence|]. split; [congruence|].
    apply plotSection_finish_result.
  - rewrite !(bind_Raise _ _ _ _ _ E). repeat split.
Qed.

(** ** The name labels of plotSection *)

Section SectionLabels.

Variable Well_intervals : DataFrame.t.
Variables (width wellLabelHeight : Q).

Lemma plotSection_well_label (w : Well) (xx : option Q) (p : Plt) :
  renderable Well_intervals w ->
  intervals Well_intervals w <> [] ->
  exists p',
    plotSection_well Well_intervals width wellLabelHeight xx w p =
      (p', Ok (Some (xcoord w))) /\
    texts (ax p') =
      texts (ax p) ++ [section_label width wellLabelHeight w].
Proof.
  intros Hw Hne.
  destruct (plotSection_inner_ok Well_intervals w width
              (DataFrame.index (intervals Well_intervals w))
              (renderable_labels Well_intervals w Hw) xx p)
    as (p1 & Hrun & _ & Htx & _).
  destruct (intervals Well_intervals w) as [|y df] eqn:E;
    [elim Hne; reflexivity|].
  simpl in Hrun.
  exists (add_text p1 (section_label width wellLabelHeight w)).
  split.
  - unfold plotSection_well. rewrite E. simpl DataFrame.index.
    rewrite (bind_Ok _ _ _ _ _ Hrun). reflexivity.
  - simpl. rewrite Htx. reflexivity.
Qed.

Lemma plotSection_wells_labels (wells : list Well) :
  Forall (renderable Well_intervals) wells ->
  Forall (fun w => intervals Well_intervals w <> []) wells ->
  forall (xx : option Q) (p : Plt),
  exists p' xx',
    for_each wells (plotSection_well Well_intervals width wellLabelHeight)
      xx p = (p', Ok xx') /\
    texts (ax p') =
      texts (ax p) ++ map (section_label width wellLabelHeight) wells.
Proof.
  induction 1 as [|w wells Hw Hws IH]; intros Hne xx p.
  - exists p, xx. split; [reflexivity|]. simpl. rewrite app_nil_r.
    reflexivity.
  - inversion Hne as [|? ? Hw0 Hne']; subst.
    destruct (plotSection_well_label w xx p Hw Hw0) as (p1 & Hrun & Htx).
    destruct (IH Hne' (Some (xcoord w)) p1) as (p' & xx' & Hrest & Htx').
    exists p', xx'. split.
    + simpl for_each. rewrite (bind_Ok _ _ _ _ _ Hrun). exact Hrest.
    + rewrite Htx', Htx. simpl. rewrite <- app_assoc. reflexivity.
Qed.

End SectionLabels.

(** X11. For wells that each have an interval, labels 0 .. n-1 in some
    order and only lithologies of the style table, and, with [save], a
    title whose file name [savefig] takes, [plotSection] returns
    normally and writes exactly one name label per well, in the order of
    the list: the well's name, rotated by 90, centred over its bar at
    x = xcoord + width/2 and y = elevation + wellLabelHeight. *)
Theorem plotSection_name_labels (Well_intervals : DataFrame.t)
    (savefig_error : string -> option exn)
    (wells : list Well) (width : Q) (grid save : bool) (title' : string)
    (north elev : bool) (wellLabelHeight : Q) (p : Plt) :
  Forall (renderable Well_intervals) wells ->
  Forall (fun w => intervals Well_intervals w <> []) wells ->
  savefig_accepts savefig_error save (replace_spaces title') ->
  exists p',
    plotSection Well_intervals savefig_error wells width grid save title'
      north elev wellLabelHeight p = (p', Ok tt) /\
    texts (ax p') =
      map (fun w =>
             mkText (xcoord w + width * (1 # 2))%Q
               (elevation w + wellLabelHeight)%Q (name w) 90)
        wells.
Proof.
  intros Hr Hne Hsave.
  destruct (plotSection_wells_labels Well_intervals width wellLabelHeight
              wells Hr Hne None (fst (plt.subplots p)))
    as (p1 & xx' & Hrun & Htx).
  destruct (plotSection_finish_keeps savefig_error grid save title' north
              elev Hsave p1)
    as (p' & Hfin & _ & Htx').
  exists p'. split.
  - unfold plotSection.
    rewrite (bind_Ok _ _ _ _ _ (eq_refl : plt.subplots p = (_, Ok tt))).
    rewrite (bind_Ok _ _ _ _ _ Hrun). exact Hfin.
  - rewrite Htx', Htx. reflexivity.
Qed.

Lemma plotSection_name_labels_witness :
  Forall (renderable DataFrame.empty) [well_100; well_Clay_Till] /\
  Forall (fun w => intervals DataFrame.empty w <> [])
    [well_100; well_Clay_Till] /\
  savefig_accepts Agg_format_error true (replace_spaces "Section A.png") /\
  exists p',
    plotSection DataFrame.empty Agg_format_error [well_100; well_Clay_Till]
      5 true true "Section A.png" false true (3 # 2) plt0 = (p', Ok tt) /\
    texts (ax p') =
      map (fun w =>
             mkText (xcoord w + 5 * (1 # 2))%Q (elevation w + (3 # 2))%Q
               (name w) 90)
        [well_100; well_Clay_Till].
Proof.
  assert (Forall (renderable DataFrame.empty) [well_100; well_Clay_Till])
    as Hr.
  { repeat constructor; simpl; try (vm_compute; eexists; reflexivity). }
  assert (Forall (fun w => intervals DataFrame.empty w <> [])
            [well_100; well_Clay_Till]) as Hne
    by (repeat constructor; simpl; discriminate).
  assert (savefig_accepts Agg_format_error true
            (replace_spaces "Section A.png")) as Hs
    by (intros _; reflexivity).
  split; [exact Hr|]. split; [exact Hne|]. split; [exact Hs|].
  exact (plotSection_name_labels DataFrame.empty Agg_format_error
           [well_100; well_Clay_Till] 5 true true "Section A.png" false true
           (3 # 2) plt0 Hr Hne Hs).
Defined.

(** ** The legend *)

Lemma existsb_eqb_In (k : string) (l : list string) :
  existsb (String.eqb k) l = true <-> In k l.
Proof.
  rewrite existsb_exists. split.
  - intros (x & Hx & E). apply String.eqb_eq in E. subst. exact Hx.
  - intros H. exists k. split; [exact H | apply String.eqb_refl].
Qed.

Lemma first_seen_ext (s1 s2 l : list string) :
  (forall k, In k s1 <-> In k s2) -> first_seen s1 l = first_seen s2 l.
Proof.
  revert s1 s2. induction l as [|k l IH]; intros s1 s2 H; simpl;
    [reflexivity|].
  assert (existsb (String.eqb k) s1 = existsb (String.eqb k) s2) as ->.
  { destruct (existsb (String.eqb k) s1) eqn:E1,
             (existsb (String.eqb k) s2) eqn:E2; try reflexivity.
    - apply existsb_eqb_In, H, existsb_eqb_In in E1. congruence.
    - apply existsb_eqb_In, H, existsb_eqb_In in E2. congruence. }
  destruct (existsb (String.eqb k) s2); [apply IH; exact H|].
  f_equal. apply IH. intros k'. simpl. rewrite H. reflexivity.
Qed.

Lemma first_seen_In (seen l : list string) (k : string) :
  In k (first_seen seen l) <-> In k l /\ ~ In k seen.
Proof.
  revert seen. induction l as [|a l IH]; intros seen; simpl; [tauto|].
  destruct (existsb (String.eqb a) seen) eqn:E.
  - rewrite IH. apply existsb_eqb_In in E.
    split; [tauto|]. intros [[->|H] Hs]; tauto.
  - assert (~ In a seen) as Ha.
    { intros H. apply existsb_eqb_In in H. congruence. }
    simpl. rewrite IH. simpl.
    destruct (string_dec a k) as [->|Hne]; [tauto|]. tauto.
Qed.

Lemma first_seen_NoDup (seen l : list string) :
  List.NoDup (first_seen seen l).
Proof.
  revert seen. induction l as [|a l IH]; intros seen; simpl;
    [constructor|].
  destruct (existsb (String.eqb a) seen); [apply IH|].
  constructor; [|apply IH].
  rewrite first_seen_In. simpl. tauto.
Qed.

Lemma od_set_keys (d : list (string * Patch)) (k : string) (v : Patch) :
  map fst (Ax.od_set d k v) =
  if existsb (String.eqb k) (map fst d) then map fst d
  else map fst d ++ [k].
Proof.
  induction d as [|[k' v'] d IH]; simpl; [reflexivity|].
  rewrite (String.eqb_sym k k').
  destruct (String.eqb_spec k' k) as [->|Hne]; simpl; [reflexivity|].
  rewrite IH. destruct (existsb (String.eqb k) (map fst d)); reflexivity.
Qed.

Lemma fold_od_set_keys (lh d : list (string * Patch)) :
  map fst (fold_left (fun d kv => Ax.od_set d (fst kv) (snd kv)) lh d) =
  map fst d ++ first_seen (map fst d) (map fst lh).
Proof.
  revert d. induction lh as [|[k v] lh IH]; intros d; simpl.
  - rewrite app_nil_r. reflexivity.
  - rewrite IH, od_set_keys.
    destruct (existsb (String.eqb k) (map fst d)) eqn:E; [reflexivity|].
    rewrite <- app_assoc. simpl. f_equal. f_equal.
    apply first_seen_ext. intros k'. rewrite in_app_iff. simpl. tauto.
Qed.

Lemma OrderedDict_zip_keys (lh : list (string * Patch)) :
  map fst (Ax.OrderedDict_zip lh) = first_seen [] (map fst lh).
Proof. apply (fold_od_set_keys lh []). Qed.

Lemma od_set_In (d : list (string * Patch)) (k : string) (v : Patch)
    (k' : string) (v' : Patch) :
  List.NoDup (map fst d) ->
  In (k', v') (Ax.od_set d k v) ->
  (k' = k /\ v' = v) \/ (k' <> k /\ In (k', v') d).
Proof.
  induction d as [|[a b] d IH]; simpl; intros Hnd.
  - intros [H|[]]. left. injection H as <- <-. split; reflexivity.
  - inversion Hnd as [|? ? Ha Hnd']; subst.
    destruct (String.eqb_spec a k) as [->|Hne]; simpl.
    + intros [H|H].
      * left. injection H as <- <-. split; reflexivity.
      * right. split; [|right; exact H].
        intros ->. apply Ha. apply (in_map fst) in H. exact H.
    + intros [H|H].
      * right. injection H as <- <-. split; [exact Hne | left; reflexivity].
      * destruct (IH Hnd' H) as [Hl|[Hk Hin]]; [left; exact Hl|].
        right. split; [exact Hk | right; exact Hin].
Qed.

Lemma OrderedDict_zip_last (lh : list (string * Patch)) (k : string)
    (v : Patch) :
  In (k, v) (Ax.OrderedDict_zip lh) ->
  exists l1 l2, lh = l1 ++ (k, v) :: l2 /\ ~ In k (map fst l2).
Proof.
  revert k v. induction lh as [|[k0 v0] lh IH] using rev_ind; intros k v.
  - intros [].
  - unfold Ax.OrderedDict_zip. rewrite fold_left_app. simpl.
    fold (Ax.OrderedDict_zip lh). intros H.
    apply od_set_In in H.
    + destruct H as [[-> ->]|[Hk Hin]].
      * exists lh, []. split; [reflexivity|]. intros [].
      * destruct (IH k v Hin) as (l1 & l2 & -> & Hl2).
        exists l1, (l2 ++ [(k0, v0)]). split.
        -- rewrite <- app_assoc. reflexivity.
        -- rewrite map_app, in_app_iff. simpl. intros [H|[H|[]]];
             [exact (Hl2 H) | exact (Hk (eq_sym H))].
    + rewrite OrderedDict_zip_keys. apply first_seen_NoDup.
Qed.

(** X12. The legend built by [OrderedDict(zip(l, h))] from the labels
    and handles of the axes has one entry per distinct label, in the
    order in which the labels first occur, and the handle of an entry is
    the last patch drawn with that label. *)
Theorem legend_one_entry_per_label (lh : list (string * Patch)) :
  map fst (Ax.OrderedDict_zip lh) = first_seen [] (map fst lh) /\
  List.NoDup (map fst (Ax.OrderedDict_zip lh)) /\
  (forall k, In k (map fst (Ax.OrderedDict_zip lh)) <-> In k (map fst lh)) /\
  (forall k v,
     In (k, v) (Ax.OrderedDict_zip lh) ->
     exists l1 l2, lh = l1 ++ (k, v) :: l2 /\ ~ In k (map fst l2)).
Proof.
  split; [apply OrderedDict_zip_keys|]. split; [|split].
  - rewrite OrderedDict_zip_keys. apply first_seen_NoDup.
  - intros k. rewrite OrderedDict_zip_keys, first_seen_In. simpl. tauto.
  - apply OrderedDict_zip_last.
Qed.

(** The legend of lithologies A, B, A, C has the entries A, B, C. *)
Example first_seen_ABAC :
  first_seen [] ["Clay"; "Till"; "Clay"; "Silt"]%string =
  ["Clay"; "Till"; "Silt"]%string.
Proof. reflexivity. Qed.

(** ** The saved file name *)

Lemma replace_spaces_length (s : string) :
  String.length (replace_spaces s) = String.length s.
Proof. induction s as [|c s IH]; simpl; [reflexivity | rewrite IH; reflexivity]. Qed.

(** X13. The file name [s.replace(' ', '_')] has the length of [s],
    holds an underscore wherever [s] holds a space or an underscore and
    the character of [s] everywhere else, so it holds no space; a name
    without spaces is kept as it is. *)
Theorem replace_spaces_spec (s : string) :
  String.length (replace_spaces s) = String.length s /\
  (forall n c, String.get n s = Some c ->
     String.get n (replace_spaces s) =
       Some (if Ascii.eqb c " "%char then "_"%char else c)) /\
  (forall n, String.get n (replace_spaces s) <> Some " "%char) /\
  ((forall n, String.get n s <> Some " "%char) -> replace_spaces s = s).
Proof.
  split; [apply replace_spaces_length|].
  assert (forall n c, String.get n s = Some c ->
            String.get n (replace_spaces s) =
              Some (if Ascii.eqb c " "%char then "_"%char else c)) as Hget.
  { induction s as [|a s IH]; intros n c; simpl; [discriminate|].
    destruct n as [|n]; [intros H; injection H as ->; reflexivity|].
    apply IH. }
  split; [exact Hget|]. split.
  - intros n H.
    destruct (String.get n s) as [c|] eqn:E.
    + rewrite (Hget n c E) in H. injection H as H.
      destruct (Ascii.eqb_spec c " "%char) as [Heq|Hne];
        [discriminate | contradiction].
    + assert (String.length s <= n) as Hlen.
      { clear -E. revert n E. induction s as [|a s IH]; intros n E; simpl;
          [lia|]. destruct n as [|n]; [discriminate|].
        simpl in E. apply IH in E. lia. }
      rewrite <- replace_spaces_length in Hlen.
      clear -H Hlen. revert n H Hlen.
      induction (replace_spaces s) as [|a t IH]; intros n H Hlen; simpl in *;
        [discriminate|]. destruct n as [|n]; [lia|].
      apply (IH n H). lia.
  - clear Hget. induction s as [|a s IH]; intros H; simpl; [reflexivity|].
    destruct (Ascii.eqb_spec a " "%char) as [->|Hne].
    + elim (H 0). reflexivity.
    + f_equal. apply IH. intros n. exact (H (S n)).
Qed.

(** ** Failures of the renderers *)

(** X15. A renderer that raises, whatever the exception, has saved no
    file and shown no figure: [savefig] and [show] come last and nothing
    before them writes or shows. *)
Theorem renderers_raise_without_output (Well_intervals : DataFrame.t)
    (savefig_error : string -> option exn)
    (p p' : Plt) (e : exn) :
  (forall self description hatch with_legend figTitle save,
     plotWell Well_intervals savefig_error self description hatch
       with_legend figTitle save p = (p', Raise e) ->
     saved p' = saved p /\ shown p' = shown p) /\
  (forall wells width grid save title' north elev wellLabelHeight,
     plotSection Well_intervals savefig_error wells width grid save title'
       north elev wellLabelHeight p = (p', Raise e) ->
     saved p' = saved p /\ shown p' = shown p).
Proof.
  split.
  - intros self description hatch with_legend figTitle save H.
    eapply plotWell_raise_no_output; exact H.
  - intros wells width grid save title' north elev wellLabelHeight H.
    eapply plotSection_raise_no_output; exact H.
Qed.

Lemma renderers_raise_without_output_witness :
  saved (fst (plotWell DataFrame.empty Agg_format_error well_Sand true true
                false None true plt0)) = saved plt0 /\
  shown (fst (plotWell DataFrame.empty Agg_format_error well_Sand true true
                false None true plt0)) = shown plt0.
Proof.
  apply (proj1 (renderers_raise_without_output DataFrame.empty
                  Agg_format_error plt0
                  (fst (plotWell DataFrame.empty Agg_format_error well_Sand
                          true true false None true plt0))
                  (KeyError "Sand"))
           well_Sand true true false None true).
  vm_compute. reflexivity.
Defined.

(** The exception can be that of [savefig]: the title [Sec.A 1] gives
    the file name [Sec.A_1], whose format [a_1] matplotlib does not
    know; the rectangle is drawn, nothing is saved or shown. The same
    for [plotWell] on a well named [BH 1.5]. *)
Example renderers_raise_at_savefig :
  (exists p',
     plotSection DataFrame.empty Agg_format_error [well_100] 5 true true
       "Sec.A 1" false true (3 # 2) plt0 =
       (p', Raise (ValueError_format "a_1")) /\
     length (patches (ax p')) = 1 /\ saved p' = [] /\ shown p' = 0) /\
  (exists p',
     plotWell DataFrame.empty Agg_format_error
       (add_interval pandas16 DataFrame.empty
          {| name := "BH 1.5"; xcoord := 0; ycoord := 0; elevation := 0;
             date := "---"; project := "---";
             logged_by := "Not Specified"; own_intervals := None |}
          0 2 "Clay" no_desc)
       true true false None true plt0 =
       (p', Raise (ValueError_format "5")) /\
     length (patches (ax p')) = 1 /\ saved p' = [] /\ shown p' = 0).
Proof.
  split; eexists; (split; [vm_compute; reflexivity|]);
    (split; [reflexivity|]); split; reflexivity.
Qed.

Lemma positional_well_Sand : positional_index DataFrame.empty well_Sand.
Proof. apply Permutation_refl. Qed.

Lemma unknown_well_Sand : has_unknown_lithology DataFrame.empty well_Sand.
Proof. apply Exists_cons_hd. vm_compute. reflexivity. Qed.

Lemma plotWell_unknown_lithology_KeyError_witness :
  positional_index DataFrame.empty well_Sand /\
  has_unknown_lithology DataFrame.empty well_Sand /\
  exists p' l,
    plotWell DataFrame.empty Agg_format_error well_Sand true true false None
      true plt0 = (p', Raise (KeyError l)) /\
    plotTemplates !! l = None /\
    saved p' = saved plt0 /\ shown p' = shown plt0.
Proof.
  split; [exact positional_well_Sand|]. split; [exact unknown_well_Sand|].
  exact (plotWell_unknown_lithology_KeyError DataFrame.empty
           Agg_format_error well_Sand true true false None true plt0
           positional_well_Sand unknown_well_Sand).
Defined.

Lemma plotSection_unknown_lithology_KeyError_witness :
  Forall (positional_index DataFrame.empty) [well_100; well_Sand] /\
  first_well_nonempty DataFrame.empty [well_100; well_Sand] /\
  Exists (has_unknown_lithology DataFrame.empty) [well_100; well_Sand] /\
  exists p' l,
    plotSection DataFrame.empty Agg_format_error [well_100; well_Sand] 5
      true true "Cross-section" false true (3 # 2) plt0 =
      (p', Raise (KeyError l)) /\
    plotTemplates !! l = None /\
    saved p' = saved plt0 /\ shown p' = shown plt0.
Proof.
  assert (Forall (positional_index DataFrame.empty) [well_100; well_Sand])
    as Hpos by (repeat constructor).
  assert (first_well_nonempty DataFrame.empty [well_100; well_Sand])
    as Hfirst by (simpl; discriminate).
  assert (Exists (has_unknown_lithology DataFrame.empty)
            [well_100; well_Sand]) as Hbad
    by (apply Exists_cons_tl, Exists_cons_hd, unknown_well_Sand).
  split; [exact Hpos|]. split; [exact Hfirst|]. split; [exact Hbad|].
  exact (plotSection_unknown_lithology_KeyError DataFrame.empty
      Agg_format_error 5 (3 # 2)
           [well_100; well_Sand] true true "Cross-section" false true plt0
           Hpos Hfirst Hbad).
Defined.

Lemma plotSection_first_well_empty_witness :
  intervals DataFrame.empty well_empty_50 = [] /\
  plotSection DataFrame.empty Agg_format_error [well_empty_50; well_100] 5
    true false "Cross-section" false true (3 # 2) plt0 =
  (fst (plt.subplots plt0), Raise (UnboundLocalError "xx")).
Proof.
  assert (intervals DataFrame.empty well_empty_50 = []) as H by reflexivity.
  split; [exact H|].
  exact (plotSection_first_well_empty DataFrame.empty Agg_format_error
           well_empty_50 [well_100] 5 true false "Cross-section" false true
           (3 # 2) plt0 H).
Defined.

(** ** Rendering after a removal *)

Section StaleLabels.

Variable Well_intervals : DataFrame.t.

(** The loop of [plotWell] over labels of which one is no position, all
    lithologies having a style: it raises the IndexError of [iloc]. *)
Lemma plotWell_loop_stale (self : Well) (description : bool)
    (ls : list nat) :
  Forall (fun x => is_Some (plotTemplates !! Lithology (snd x)))
    (intervals Well_intervals self) ->
  (exists i, In i ls /\ length (intervals Well_intervals self) <= i) ->
  forall p, exists p',
    for_each ls (plotWell_body Well_intervals self description) tt p =
      (p', Raise (IndexError "single positional indexer is out-of-bounds")).
Proof.
  intros Hknown. rewrite List.Forall_forall in Hknown.
  induction ls as [|i ls IH]; intros (j & Hj & Hlen) p.
  - destruct Hj.
  - destruct (nth_error (intervals Well_intervals self) i) as [x|] eqn:Hx.
    + destruct (Hknown x (nth_error_In _ _ Hx)) as [st Hst].
      destruct Hj as [<-|Hj].
      { apply nth_error_None in Hlen. congruence. }
      match goal with
      | |- context [for_each _ _ _ ?q] =>
          destruct (IH (ex_intro _ j (conj Hj Hlen))
                      (fst (plotWell_body Well_intervals self description
                              tt i q))) as (p' & Hrun)
      end.
      exists p'. simpl for_each.
      rewrite (bind_Ok _ _ _ _ _
                 (plotWell_body_ok Well_intervals self description i x st p
                    Hx Hst)).
      rewrite (plotWell_body_ok Well_intervals self description i x st p
                 Hx Hst) in Hrun.
      exact Hrun.
    + exists p. simpl for_each. apply bind_Raise.
      unfold plotWell_body, bind, lift, DataFrame.iloc. rewrite Hx.
      reflexivity.
Qed.

Lemma filter_length_lt {A} (f : A -> bool) (l : list A) (x : A) :
  In x l -> f x = false -> length (List.filter f l) < length l.
Proof.
  induction l as [|a l IH]; intros Hin Hx; [destruct Hin|].
  simpl. destruct Hin as [->|Hin].
  - rewrite Hx. pose proof (List.filter_length_le f l). lia.
  - specialize (IH Hin Hx). destruct (f a); simpl; lia.
Qed.

Lemma remove_interval_label_filter (self : Well) (k : nat) :
  In k (DataFrame.index (intervals Well_intervals self)) ->
  remove_interval Well_intervals self (Some (Z.of_nat k)) None =
    Ok (set_intervals self
          (List.filter (fun x => negb (fst x =? k))
             (intervals Well_intervals self))).
Proof.
  intros Hk. unfold remove_interval, DataFrame.drop.
  assert (existsb (DataFrame.has_label (Z.of_nat k))
            (intervals Well_intervals self) = true) as E.
  { apply existsb_exists. apply in_map_iff in Hk.
    destruct Hk as (x & Hx & Hin). exists x. split; [exact Hin|].
    rewrite has_label_of_nat, Hx. apply Nat.eqb_refl. }
  rewrite E. do 2 f_equal. apply filter_ext. intros x.
  rewrite has_label_of_nat. reflexivity.
Qed.

End StaleLabels.

(** X19. On a well with labels 0 .. n-1 in some order and only
    lithologies of the style table, after [remove_interval(layNum=k)] has
    removed the row labelled k, for k other than the last label n-1,
    [plotWell] raises IndexError and saves and shows nothing: the label
    n-1 is still there and is used as a position of a table that has
    fewer than n rows. *)
Theorem plotWell_after_remove_raises (Well_intervals : DataFrame.t)
    (savefig_error : string -> option exn)
    (self w' : Well) (k : nat) (description hatch with_legend : bool)
    (figTitle : option string) (save : bool) (p : Plt) :
  renderable Well_intervals self ->
  S k < length (intervals Well_intervals self) ->
  remove_interval Well_intervals self (Some (Z.of_nat k)) None = Ok w' ->
  exists p',
    plotWell Well_intervals savefig_error w' description hatch with_legend
      figTitle save p =
      (p', Raise (IndexError "single positional indexer is out-of-bounds")) /\
    saved p' = saved p /\ shown p' = shown p.
Proof.
  intros [Hperm Hknown] Hk Hrem.
  assert (In k (DataFrame.index (intervals Well_intervals self))) as Hkin.
  { apply (Permutation_in _ (Permutation_sym Hperm)), in_seq. lia. }
  pose proof (remove_interval_label_filter Well_intervals self k Hkin)
    as Hw.
  rewrite Hrem in Hw. injection Hw as ->.
  set (keep := fun x : nat * Row => negb (fst x =? k)).
  set (self' := set_intervals self
                  (List.filter keep (intervals Well_intervals self))).
  assert (intervals Well_intervals self' =
          List.filter keep (intervals Well_intervals self)) as Hdf'
    by reflexivity.
  assert (In (length (intervals Well_intervals self) - 1)
            (DataFrame.index (intervals Well_intervals self))) as Hlast.
  { apply (Permutation_in _ (Permutation_sym Hperm)), in_seq. lia. }
  apply in_map_iff in Hlast. destruct Hlast as (y & Hy & Hyin).
  apply in_map_iff in Hkin. destruct Hkin as (z & Hz & Hzin).
  assert (In y (intervals Well_intervals self')) as Hy'.
  { rewrite Hdf'. apply filter_In. split; [exact Hyin|].
    unfold keep. rewrite Hy. apply negb_true_iff, Nat.eqb_neq. lia. }
  assert (length (intervals Well_intervals self') <=
          length (intervals Well_intervals self) - 1) as Hlen.
  { rewrite Hdf'.
    pose proof (filter_length_lt keep (intervals Well_intervals self) z
                  Hzin) as Hlt.
    unfold keep in Hlt at 1. rewrite Hz, Nat.eqb_refl in Hlt.
    specialize (Hlt eq_refl). lia. }
  assert (Forall (fun x => is_Some (plotTemplates !! Lithology (snd x)))
            (intervals Well_intervals self')) as Hknown'.
  { rewrite Hdf'. rewrite List.Forall_forall in *. intros x Hx.
    apply Hknown. apply filter_In in Hx. tauto. }
  assert (In (length (intervals Well_intervals self) - 1)
            (DataFrame.index (intervals Well_intervals self'))) as Hstale.
  { rewrite <- Hy. apply in_map. exact Hy'. }
  destruct (plotWell_loop_stale Well_intervals self' description
              (DataFrame.index (intervals Well_intervals self')) Hknown'
              (ex_intro _ _ (conj Hstale Hlen))
              (fst (plt.subplots p))) as (p' & Hrun).
  assert (plotWell Well_intervals savefig_error self' description hatch
            with_legend figTitle save p =
          (p', Raise (IndexError
                        "single positional indexer is out-of-bounds")))
    as Hplot.
  { unfold plotWell.
    destruct (intervals Well_intervals self') as [|y0 df0] eqn:E;
      [destruct Hy'|].
    rewrite (bind_Ok _ _ _ _ _
               (eq_refl : lift (DataFrame.iloc (y0 :: df0) 0) p
                          = (p, Ok _))).
    rewrite (bind_Ok _ _ _ _ _
               (eq_refl : lift (DataFrame.iloc_last (y0 :: df0)) p
                          = (p, Ok _))).
    rewrite (bind_Ok _ _ _ _ _ (eq_refl : plt.subplots p = (_, Ok tt))).
    apply bind_Raise. exact Hrun. }
  exists p'. split; [exact Hplot|].
  eapply plotWell_raise_no_output; exact Hplot.
Qed.

Lemma renderable_well_three : renderable DataFrame.empty well_three.
Proof.
  split.
  - apply Permutation_refl.
  - repeat constructor; vm_compute; eexists; reflexivity.
Qed.

Lemma plotWell_after_remove_raises_witness :
  renderable DataFrame.empty well_three /\
  1 < length (intervals DataFrame.empty well_three) /\
  remove_interval DataFrame.empty well_three (Some (Z.of_nat 0)) None =
    Ok (set_intervals well_three
          [(1, mkRow "Silt" 1 2 no_desc); (2, mkRow "Till" 2 3 no_desc)]) /\
  exists p',
    plotWell DataFrame.empty Agg_format_error
      (set_intervals well_three
         [(1, mkRow "Silt" 1 2 no_desc); (2, mkRow "Till" 2 3 no_desc)])
      true true false None false plt0 =
      (p', Raise (IndexError "single positional indexer is out-of-bounds")) /\
    saved p' = saved plt0 /\ shown p' = shown plt0.
Proof.
  assert (1 < length (intervals DataFrame.empty well_three)) as Hk
    by (simpl; lia).
  assert (remove_interval DataFrame.empty well_three (Some (Z.of_nat 0))
            None =
          Ok (set_intervals well_three
                [(1, mkRow "Silt" 1 2 no_desc);
                 (2, mkRow "Till" 2 3 no_desc)])) as Hrem by reflexivity.
  split; [exact renderable_well_three|]. split; [exact Hk|].
  split; [exact Hrem|].
  exact (plotWell_after_remove_raises DataFrame.empty Agg_format_error
           well_three _ 0 true true false None false plt0
           renderable_well_three Hk Hrem).
Defined.

(** ** A new instance *)

(** X20. A new well starts with an empty table, whatever wells were made
    before and whatever calls of [add_interval] and [remove_interval]
    were made on them: no call writes the class-level frame, and the
    constructor gives the new instance no table of its own. *)
Theorem new_well_reads_empty (pd : DataFrame.Pandas) (h : Heap)
    (name : string) (xcoord ycoord elevation : Q)
    (date project logged_by : string) :
  Heap.reachable pd h ->
  Heap.read_intervals
    (fst (Heap.construct name xcoord ycoord elevation date project
            logged_by h))
    (snd (Heap.construct name xcoord ycoord elevation date project
            logged_by h)) = Some DataFrame.empty.
Proof.
  intros Hh. destruct (reachable_invariant pd h Hh) as [_ Hc].
  unfold Heap.read_intervals, Heap.getattr_intervals. simpl.
  rewrite list_lookup_middle by reflexivity. simpl. exact Hc.
Qed.

Lemma new_well_reads_empty_witness :
  Heap.reachable pandas16 heap_after_calls /\
  Heap.read_intervals 0 heap_after_calls =
    Some [(0, mkRow "Clay" 0 2 no_desc)] /\
  Heap.read_intervals
    (fst (Heap.construct "BH-2" 50 0 0 "---" "---" "Not Specified"
            heap_after_calls))
    (snd (Heap.construct "BH-2" 50 0 0 "---" "---" "Not Specified"
            heap_after_calls)) = Some DataFrame.empty.
Proof.
  assert (Heap.reachable pandas16 heap_after_calls) as H.
  { apply (Heap.reachable_add_interval pandas16
             (snd (Heap.construct "Borehole" 0 0 0 "---" "---"
                     "Not Specified" Heap.initial))
             heap_after_calls (Ok tt) 0 0 2 "Clay" no_desc);
      [apply Heap.reachable_construct, Heap.reachable_initial | reflexivity]. }
  split; [exact H|]. split; [reflexivity|].
  exact (new_well_reads_empty pandas16 heap_after_calls "BH-2" 50 0 0 "---"
           "---" "Not Specified" H).
Defined.
